(** * react-time-travel: the virtual-clock controller and its interception layer

    A shallow embedding of [packages/core/src]: [environment.ts] (the
    environment classifier and the activation policy), [controller.ts]
    ([TimeControllerImpl]) and [hijacker.ts] ([TimeHijacker]), followed by
    the properties of the controller that the specification states.

    Conventions of the embedding.
    - A JavaScript [number] is [NaN], a signed infinity, or a finite value
      carried as the rational it denotes; the result of an arithmetic
      operation on finite values is the exact result rounded to binary64
      (to nearest, ties to even).  The sign of a zero is not modelled.  The
      time value held by a [Date] object is an integer number of
      milliseconds or [NaN], as [TimeClip] leaves it.
    - Every method is a function from the state (controller fields, hijacker
      fields and the global bindings the code touches) to an [outcome] that
      says whether the call returned or threw, and carries the state it left
      behind.
    - Subscriber callbacks are host code.  A callback is identified by a
      natural number (its identity as a [Set] member) and the host's
      [behaviour] table gives what it does when called: subscribe or
      unsubscribe callbacks, and possibly throw.  Callbacks that call the
      time mutators again, or that change the [Date] they are handed, are
      outside the embedding.
    - One controller and one hijacker are modelled, so every shim found on
      a global binding belongs to that hijacker.
    - [Set.prototype.forEach] walks the live entry list of the set, so a
      notification round can be unbounded; the loop takes fuel and reports
      [Diverged] when it runs out. *)

From Stdlib Require Import ZArith QArith Qabs Qround Qreduction Qpower.
From Stdlib Require Import String Ascii List Bool Lia.
From Stdlib Require Qcanon.
From stdpp Require Import base list gmap.
Import ListNotations.

Local Open Scope string_scope.
Local Open Scope list_scope.
Local Open Scope Z_scope.

(** ** Numbers and dates *)

Inductive number : Type :=
| NaN
| Infinity (negative : bool)
| Finite (q : Q).

Definition isNaN (n : number) : bool :=
  match n with NaN => true | _ => false end.

Definition Qnegative (q : Q) : bool := Qnum q <? 0.
Definition Qzero (q : Q) : bool := Qnum q =? 0.

(** *** Rounding to binary64 *)

(** The binade of a positive rational: the [e] with [2^e <= q < 2^(e+1)]. *)
Definition binade (q : Q) : Z :=
  let e := Z.log2 (Qnum q) - Z.log2 (Zpos (Qden q)) in
  if Qle_bool (2 ^ e) q then e else e - 1.

(** The integer nearest to [q], the even one of the two when [q] is half
    way. *)
Definition round_half_even (q : Q) : Z :=
  let f := Qfloor q in
  match (q - inject_Z f ?= 1 # 2)%Q with
  | Lt => f
  | Gt => f + 1
  | Eq => if Z.even f then f else f + 1
  end.

(** A positive rational rounded to a whole number of units in the last
    place: 53 bits of precision, the exponent not below that of the
    subnormal numbers. *)
Definition round_magnitude (a : Q) : Q :=
  let k := Z.max (binade a - 52) (-1074) in
  (inject_Z (round_half_even (a / 2 ^ k)) * 2 ^ k)%Q.

(** The binary64 value of an exact result [q]. *)
Definition round64 (q : Q) : number :=
  if Qzero q then Finite 0
  else
    let r := round_magnitude (Qabs q) in
    if Qle_bool (2 ^ 1024) r then Infinity (Qnegative q)
    else Finite (Qred (if Qnegative q then - r else r)%Q).

(** [a + b] on numbers. *)
Definition num_add (a b : number) : number :=
  match a, b with
  | NaN, _ | _, NaN => NaN
  | Infinity sa, Infinity sb => if Bool.eqb sa sb then Infinity sa else NaN
  | Infinity sa, Finite _ => Infinity sa
  | Finite _, Infinity sb => Infinity sb
  | Finite x, Finite y => round64 (x + y)
  end.

(** [a * b] on numbers. *)
Definition num_mul (a b : number) : number :=
  match a, b with
  | NaN, _ | _, NaN => NaN
  | Infinity sa, Infinity sb => Infinity (xorb sa sb)
  | Infinity sa, Finite y =>
      if Qzero y then NaN else Infinity (xorb sa (Qnegative y))
  | Finite x, Infinity sb =>
      if Qzero x then NaN else Infinity (xorb (Qnegative x) sb)
  | Finite x, Finite y => round64 (x * y)
  end.

Definition num_neg (a : number) : number :=
  match a with
  | NaN => NaN
  | Infinity s => Infinity (negb s)
  | Finite x => Finite (- x)%Q
  end.

Definition of_Z (z : Z) : number := Finite (inject_Z z).

(** The value of a [Date] object: its time value. *)
Inductive date : Type :=
| InvalidDate
| DateAt (ms : Z).

(** [Date.prototype.getTime]. *)
Definition getTime (d : date) : number :=
  match d with
  | InvalidDate => NaN
  | DateAt t => of_Z t
  end.

(** The largest time value a [Date] can hold, 8.64e15 ms. *)
Definition maxTime : Z := 8640000000000000.

(** ECMAScript [TimeClip]: non-finite and out-of-range values give an invalid
    date, any other value is truncated towards zero. *)
Definition TimeClip (n : number) : date :=
  match n with
  | Finite q =>
      if Qle_bool (Qabs q) (inject_Z maxTime)
      then DateAt (Z.quot (Qnum q) (Zpos (Qden q)))
      else InvalidDate
  | _ => InvalidDate
  end.

(** The argument type [Date | string | number] of [setTime]. *)
Inductive TimeInput : Type :=
| FromDate (d : date)
| FromNumber (n : number)
| FromString (s : string).

(** Truthiness of such a value, as [options.startTime || new Date()] tests
    it. *)
Definition truthy (v : TimeInput) : bool :=
  match v with
  | FromDate _ => true
  | FromNumber NaN => false
  | FromNumber (Infinity _) => true
  | FromNumber (Finite q) => negb (Qzero q)
  | FromString s => negb (String.eqb s "")
  end.

(** ** environment.ts *)

Inductive Environment : Type := development | test | production.

#[global] Instance Environment_eq_dec : EqDecision Environment.
Proof. solve_decision. Defined.

(** What [detectEnvironment] reads from its surroundings. *)
Record Signals : Type := {
  process_env : bool;              (* typeof process !== 'undefined' && process.env *)
  NODE_ENV : option string;        (* process.env.NODE_ENV *)
  has_window : bool;               (* typeof window !== 'undefined' *)
  has_document : bool;             (* typeof document !== 'undefined' *)
  test_runner : bool;              (* jest, jasmine, mocha, __karma__ in window,
                                      or a HeadlessChrome user agent *)
  hostname : string;               (* window.location.hostname *)
  port : string;                   (* window.location.port *)
  protocol : string;               (* window.location.protocol *)
  has_console : bool
}.

(** [toLowerCase], on the letters A to Z; no other character lowers to a
    letter of the three names [detectEnvironment] compares with. *)
Definition lower_ascii (c : ascii) : ascii :=
  let n := nat_of_ascii c in
  if ((65 <=? n) && (n <=? 90))%nat then ascii_of_nat (n + 32) else c.

Fixpoint toLowerCase (s : string) : string :=
  match s with
  | EmptyString => EmptyString
  | String c r => String (lower_ascii c) (toLowerCase r)
  end.

Fixpoint includes (s sub : string) : bool :=
  String.prefix sub s ||
  match s with
  | EmptyString => false
  | String _ r => includes r sub
  end.

Definition detectEnvironment (sg : Signals) : Environment :=
  let nodeEnv := if process_env sg then toLowerCase <$> NODE_ENV sg else None in
  if decide (nodeEnv = Some "production") then production
  else if decide (nodeEnv = Some "test") then test
  else if decide (nodeEnv = Some "development") then development
  else if has_window sg then
    if test_runner sg then test
    else if String.eqb (hostname sg) "localhost"
         || String.eqb (hostname sg) "127.0.0.1"
         || includes (hostname sg) ".local"
         || negb (String.eqb (port sg) "")
    then development
    else if String.eqb (protocol sg) "https:"
         || negb (includes (hostname sg) ".")
    then production
    else development
  else development.

Definition shouldEnableTimeControl (sg : Signals) (environment : option Environment) : bool :=
  let env := default (detectEnvironment sg) environment in
  if decide (env = production) then false
  else bool_decide (env = development) || bool_decide (env = test).

Definition isBrowser (sg : Signals) : bool := has_window sg && has_document sg.

(** [environment] is [None] when the value is not one of the three names
    (the [default] branch of the [switch]); of the values the types allow
    that is [undefined]. *)
Definition getEnvironmentWarning (environment : option Environment) : option string :=
  match environment with
  | Some production =>
      Some "Time control is disabled in production for safety. This is expected behavior."
  | Some test => None
  | Some development => None
  | None => Some "Unknown environment detected. Time control behavior may be unpredictable."
  end.

(** ** Host callbacks and the subscriber set *)

Definition callback : Type := nat.

(** What a callback does when it is called, one step after the other. *)
Inductive step : Type :=
| Subscribe (c : callback)      (* controller.subscribe(c) *)
| Unsubscribe (c : callback)    (* the unsubscribe function subscribe(c) returned *)
| Throw (v : nat).              (* throw v *)

(** The [[SetData]] of a JavaScript [Set]: the entries in insertion order,
    a deleted entry leaving an empty slot behind. *)
Abbreviation SetData := (list (option callback)).

Definition set_has (d : SetData) (c : callback) : bool :=
  bool_decide (Some c ∈ d).

(** [Set.prototype.add] *)
Definition set_add (c : callback) (d : SetData) : SetData :=
  if set_has d c then d else d ++ [Some c].

(** [Set.prototype.delete] *)
Definition set_delete (c : callback) (d : SetData) : SetData :=
  (λ e, if decide (e = Some c) then None else e) <$> d.

(** [Set.prototype.clear] *)
Definition set_clear (d : SetData) : SetData := (λ _, None) <$> d.

(** The members of the set, in insertion order. *)
Definition members (d : SetData) : list callback := omap id d.

(** ** Function values *)

(** A value that can be bound to [globalThis.Date]: the platform's own
    constructor, or a [ControlledDate] made by [hijackNativeFunctions], which
    closes over the constructor it replaced ([ControlledDate.original]).
    [stamp] tells apart the closures of different calls. *)
Inductive DateConstructor : Type :=
| NativeDate
| ControlledDate (stamp : nat) (original : DateConstructor).

(** A value that can be read from [Date.now]. *)
Inductive NowFunction : Type :=
| NativeNow
| ControlledNow (stamp : nat).     (* the arrow function stored in ControlledDate.now *)

(** [Date.now], read off the constructor. *)
Definition now_of (D : DateConstructor) : NowFunction :=
  match D with
  | NativeDate => NativeNow
  | ControlledDate k _ => ControlledNow k
  end.

Inductive PrototypeMethod : Type := ProtoGetTime | ProtoToString | ProtoToISOString.

Record NativeFunctionBackup : Type := {
  backup_Date : DateConstructor;
  backup_DateNow : NowFunction;
  backup_DatePrototypeGetTime : PrototypeMethod;
  backup_DatePrototypeToString : PrototypeMethod;
  backup_DatePrototypeToISOString : PrototypeMethod
}.

(** An entry point of a third-party library: the function the library
    shipped, or a wrapper made by [hijackMoment] or [hijackDayjs] around the
    function it found. *)
Inductive Library : Type := Moment | Dayjs.

Inductive LibFunction : Type :=
| Shipped (lib : Library)
| MomentNowShim (stamp : nat) (original : LibFunction)
| DayjsShim (stamp : nat) (original : LibFunction).

Definition stamp_of (f : LibFunction) : option nat :=
  match f with
  | Shipped _ => None
  | MomentNowShim k _ | DayjsShim k _ => Some k
  end.

(** ** State *)

Inductive level : Type := info | warn | error.

Inductive exn : Type :=
| Error (message : string)      (* new Error(message) *)
| TypeError (message : string)
| RangeError (message : string)
| Raised (v : nat).             (* a value thrown by host code *)

(** One console line; [log_value] is the value printed after the text, if
    any. *)
Record logline : Type := Log { log_level : level; log_text : string; log_value : option exn }.

(** A property of an options object: left out, given as [undefined] (the
    declared types allow it), or given with a value. *)
Inductive optional (A : Type) : Type :=
| Absent
| Undefined
| Given (a : A).
Arguments Absent {A}.
Arguments Undefined {A}.
Arguments Given {A} a.

(** The value of a property, [undefined] ([None]) also when it is left
    out. *)
Definition given {A} (p : optional A) : option A :=
  match p with
  | Given a => Some a
  | Absent | Undefined => None
  end.

(** [TimeControlOptions]: every field optional. *)
Record TimeControlOptions : Type := {
  opt_enabled : optional bool;
  opt_startTime : optional TimeInput;
  opt_hijackLibraries : optional bool;
  opt_environment : optional Environment;
  opt_onTimeChange : optional callback
}.

(** A function held in [this.options.onTimeChange]: the default [() => {}]
    of the constructor, or a function of the host. *)
Inductive handler : Type :=
| NoHandler
| Handler (c : callback).

(** [Required<TimeControlOptions>], the type of [this.options].  The
    constructor fills in every field; [updateOptions] can set a field to
    [undefined] ([None]) afterwards. *)
Record Options : Type := {
  options_enabled : option bool;
  options_startTime : option TimeInput;
  options_hijackLibraries : option bool;
  options_environment : option Environment;
  options_onTimeChange : option handler
}.

(** The fields of [TimeControllerImpl]. *)
Record Controller : Type := {
  currentTime : date;
  enabled : bool;
  subscribers : SetData;
  options : Options
}.

(** The fields of [TimeHijacker]. *)
Record Hijacker : Type := {
  backup : option NativeFunctionBackup;
  isHijacked : bool
}.

(** The global bindings the code reads and writes.  Where a browser has
    [window] it is [globalThis] itself, so the [window.moment] and
    [window.dayjs] lookups of the source find what the [globalThis] lookups
    find and are not listed apart. *)
Record Globals : Type := {
  signals : Signals;                       (* what detectEnvironment sees *)
  clock : Z;                               (* the wall clock, in ms *)
  globalDate : DateConstructor;            (* globalThis.Date *)
  moment_global : bool;                    (* globalThis.moment is the moment function *)
  moment_require : bool;                   (* require('moment') returns it *)
  moment_now : option LibFunction;         (* moment.now *)
  dayjs_global : option LibFunction;       (* globalThis.dayjs *)
  dayjs_require : option LibFunction;      (* what require('dayjs') returns *)
  original_prop : gmap nat LibFunction;    (* the __original property of each wrapper *)
  next_stamp : nat;
  console : list logline;
  calls : list (callback * date)           (* every callback call so far, with its argument *)
}.

Record state : Type := State {
  controller : Controller;
  hijacker : Hijacker;
  globals : Globals
}.

Definition with_controller (f : Controller → Controller) (s : state) : state :=
  State (f (controller s)) (hijacker s) (globals s).
Definition with_hijacker (f : Hijacker → Hijacker) (s : state) : state :=
  State (controller s) (f (hijacker s)) (globals s).
Definition with_globals (f : Globals → Globals) (s : state) : state :=
  State (controller s) (hijacker s) (f (globals s)).

Definition set_currentTime (d : date) : state → state :=
  with_controller (λ c, Build_Controller d (enabled c) (subscribers c) (options c)).
Definition set_enabled (b : bool) : state → state :=
  with_controller (λ c, Build_Controller (currentTime c) b (subscribers c) (options c)).
Definition set_subscribers (d : SetData) : state → state :=
  with_controller (λ c, Build_Controller (currentTime c) (enabled c) d (options c)).
Definition set_options (o : Options) : state → state :=
  with_controller (λ c, Build_Controller (currentTime c) (enabled c) (subscribers c) o).

Definition set_backup (b : option NativeFunctionBackup) : state → state :=
  with_hijacker (λ h, Build_Hijacker b (isHijacked h)).
Definition set_isHijacked (b : bool) : state → state :=
  with_hijacker (λ h, Build_Hijacker (backup h) b).

Definition set_globalDate (D : DateConstructor) : state → state :=
  with_globals (λ g, Build_Globals (signals g) (clock g) D (moment_global g) (moment_require g)
    (moment_now g) (dayjs_global g) (dayjs_require g) (original_prop g)
    (next_stamp g) (console g) (calls g)).
Definition set_moment_now (f : option LibFunction) : state → state :=
  with_globals (λ g, Build_Globals (signals g) (clock g) (globalDate g) (moment_global g) (moment_require g)
    f (dayjs_global g) (dayjs_require g) (original_prop g)
    (next_stamp g) (console g) (calls g)).
Definition set_dayjs_global (f : option LibFunction) : state → state :=
  with_globals (λ g, Build_Globals (signals g) (clock g) (globalDate g) (moment_global g) (moment_require g)
    (moment_now g) f (dayjs_require g) (original_prop g)
    (next_stamp g) (console g) (calls g)).
Definition set_original_prop (m : gmap nat LibFunction) : state → state :=
  with_globals (λ g, Build_Globals (signals g) (clock g) (globalDate g) (moment_global g) (moment_require g)
    (moment_now g) (dayjs_global g) (dayjs_require g) m
    (next_stamp g) (console g) (calls g)).
Definition set_next_stamp (k : nat) : state → state :=
  with_globals (λ g, Build_Globals (signals g) (clock g) (globalDate g) (moment_global g) (moment_require g)
    (moment_now g) (dayjs_global g) (dayjs_require g) (original_prop g)
    k (console g) (calls g)).
Definition set_console (l : list logline) : state → state :=
  with_globals (λ g, Build_Globals (signals g) (clock g) (globalDate g) (moment_global g) (moment_require g)
    (moment_now g) (dayjs_global g) (dayjs_require g) (original_prop g)
    (next_stamp g) l (calls g)).
Definition set_calls (l : list (callback * date)) : state → state :=
  with_globals (λ g, Build_Globals (signals g) (clock g) (globalDate g) (moment_global g) (moment_require g)
    (moment_now g) (dayjs_global g) (dayjs_require g) (original_prop g)
    (next_stamp g) (console g) l).

Definition console_log (lv : level) (text : string) (v : option exn) (s : state) : state :=
  set_console (console (globals s) ++ [Log lv text v]) s.

(** A fresh closure identity. *)
Definition fresh (s : state) : nat * state :=
  (next_stamp (globals s), set_next_stamp (S (next_stamp (globals s))) s).

(** ** Outcomes *)

(** How a call ends, and the state it leaves.  [Diverged] is a notification
    round that was still running when the fuel ran out. *)
Inductive outcome (A : Type) : Type :=
| Returned (a : A) (s : state)
| Thrown (e : exn) (s : state)
| Diverged (s : state).
Arguments Returned {A} a s.
Arguments Thrown {A} e s.
Arguments Diverged {A} s.

Definition state_of {A} (o : outcome A) : state :=
  match o with
  | Returned _ s | Thrown _ s | Diverged s => s
  end.

(** The monad of methods: a method runs on a state and ends in an
    outcome. *)
Definition M (A : Type) : Type := state → outcome A.

#[global] Instance M_ret : MRet M := λ A a s, Returned a s.

#[global] Instance M_bind : MBind M := λ A B k m s,
  match m s with
  | Returned a s' => k a s'
  | Thrown e s' => Thrown e s'
  | Diverged s' => Diverged s'
  end.

Definition throw {A} (e : exn) : M A := λ s, Thrown e s.
Definition gets {A} (f : state → A) : M A := λ s, Returned (f s) s.
Definition modify (f : state → state) : M unit := λ s, Returned tt (f s).
Definition when (b : bool) (m : M unit) : M unit := if b then m else mret tt.

Definition try_catch (m : M unit) (handler : exn → M unit) : M unit := λ s,
  match m s with
  | Thrown e s' => handler e s'
  | o => o
  end.

(** ** The host *)

(** What the embedding takes from the host application and the platform:
    [Date.parse], and the code of every callback. *)
Record Host : Type := {
  dateParse : string → number;
  behaviour : callback → list step
}.

(** What [new undefined (...)] throws in [ControlledDate]. *)
Definition not_a_constructor : exn :=
  TypeError "this.constructor.original is not a constructor".

(** What calling [undefined] throws in [setTime] and [addTime]. *)
Definition not_a_function : exn :=
  TypeError "this.options.onTimeChange is not a function".

(** The text [notifySubscribers] logs with what a subscriber threw. *)
Definition subscriber_error : string := "[react-time-travel] Error in subscriber callback:".

(** The result of one of the calls the shims intercept. *)
Inductive value : Type :=
| VDate (d : date)                                (* a Date object *)
| VString (d : date)                              (* d.toString() *)
| VNumber (n : number)
| VLib (lib : Library) (args : list TimeInput).   (* what the shipped library function
                                                     returns for these arguments *)

Section Model.

Variable host : Host.

(** *** Calls of [Date] *)

(** [new Date(arg)] on the platform's constructor. *)
Definition native_construct (arg : TimeInput) : date :=
  match arg with
  | FromDate d => TimeClip (getTime d)
  | FromNumber n => TimeClip n
  | FromString str => TimeClip (dateParse host str)
  end.

(** [new D(arg)].  A [ControlledDate] passes a call with arguments on as
    [new this.constructor.original(...args)].  [hijackNativeFunctions] sets
    [ControlledDate.prototype] to the prototype object of the [Date] it
    replaces, whose [constructor] property is the platform's [Date]; so
    [this.constructor] is the platform's [Date], which has no property
    [original] (that is defined on [ControlledDate] itself), and the [new]
    throws a [TypeError]. *)
Definition construct (D : DateConstructor) (arg : TimeInput) : M date :=
  match D with
  | NativeDate => mret (native_construct arg)
  | ControlledDate _ _ => throw not_a_constructor
  end.

(** [TimeControllerImpl.getCurrentTime]: [new Date(this.currentTime.getTime())],
    with [Date] looked up in the global scope when the call is made. *)
Definition getCurrentTime : M date := λ s,
  construct (globalDate (globals s)) (FromNumber (getTime (currentTime (controller s)))) s.

Definition isActive (s : state) : bool := enabled (controller s).

(** [new D()] *)
Definition construct_now (D : DateConstructor) : M date :=
  match D with
  | NativeDate => gets (λ s, DateAt (clock (globals s)))
  | ControlledDate _ _ =>
      controlled ← getCurrentTime;
      (* new this.constructor.original(controlled.getTime()) *)
      throw not_a_constructor
  end.

(** [D()], called without [new] and without arguments. *)
Definition call_Date (D : DateConstructor) : M value :=
  match D with
  | NativeDate => gets (λ s, VString (DateAt (clock (globals s))))
  | ControlledDate _ _ => controlled ← getCurrentTime; mret (VString controlled)
  end.

(** [f()] for a function [f] read from [Date.now].  The arrow function of a
    [ControlledDate] reads [this.backup] of its hijacker when it is called;
    were the backed-up [now] such an arrow function itself, the two would
    call each other without end. *)
Definition call_now (f : NowFunction) : M number :=
  match f with
  | NativeNow => gets (λ s, of_Z (clock (globals s)))
  | ControlledNow _ => λ s,
      if negb (isActive s) then
        match backup (hijacker s) with
        | None => Thrown (TypeError "Cannot read properties of null (reading 'DateNow')") s
        | Some b =>
            match backup_DateNow b with
            | NativeNow => Returned (of_Z (clock (globals s))) s
            | ControlledNow _ => Thrown (RangeError "Maximum call stack size exceeded") s
            end
        end
      else (controlled ← getCurrentTime; mret (getTime controlled)) s
  end.

(** *** Calls of the library entry points *)

Fixpoint call_lib (f : LibFunction) (args : list TimeInput) : M value :=
  match f with
  | Shipped lib => mret (VLib lib args)
  | MomentNowShim _ original => λ s,
      if negb (isActive s) then call_lib original [] s
      else (controlled ← getCurrentTime; mret (VNumber (getTime controlled))) s
  | DayjsShim _ original => λ s,
      if bool_decide (args = []) && isActive s
      then (controlled ← getCurrentTime; call_lib original [FromDate controlled]) s
      else call_lib original args s
  end.

(** [f.__original].  A [DayjsShim] has the function it wraps as its prototype
    ([Object.setPrototypeOf (controlled, original)]), so the lookup goes on
    there when the wrapper has no such property of its own. *)
Fixpoint get_original (props : gmap nat LibFunction) (f : LibFunction) : option LibFunction :=
  match f with
  | Shipped _ => None
  | MomentNowShim k _ => props !! k
  | DayjsShim k proto =>
      match props !! k with
      | Some o => Some o
      | None => get_original props proto
      end
  end.

(** [delete f.__original] *)
Definition delete_original (f : LibFunction) (s : state) : state :=
  match stamp_of f with
  | Some k => set_original_prop (delete k (original_prop (globals s))) s
  | None => s
  end.

(** *** hijacker.ts: [TimeHijacker] *)

(** The guard [typeof globalThis === 'undefined'] of the source never holds
    and is left out. *)
Definition hijackNativeFunctions : M unit := λ s,
  if isHijacked (hijacker s) then Returned tt s
  else
    let D := globalDate (globals s) in
    let b := {| backup_Date := D;
                backup_DateNow := now_of D;
                backup_DatePrototypeGetTime := ProtoGetTime;
                backup_DatePrototypeToString := ProtoToString;
                backup_DatePrototypeToISOString := ProtoToISOString |} in
    let '(k, s1) := fresh (set_backup (Some b) s) in
    Returned tt (set_isHijacked true (set_globalDate (ControlledDate k D) s1)).

Definition restoreNativeFunctions : M unit := λ s,
  match isHijacked (hijacker s), backup (hijacker s) with
  | true, Some b => Returned tt (set_isHijacked false (set_globalDate (backup_Date b) s))
  | _, _ => Returned tt s
  end.

(** [globalThis.moment || window.moment || require('moment')] *)
Definition find_moment (s : state) : bool :=
  moment_global (globals s) || moment_require (globals s).

Definition hijackMoment : M unit := λ s,
  if find_moment s then
    match moment_now (globals s) with
    | Some original =>
        let '(k, s1) := fresh s in
        let s2 := set_moment_now (Some (MomentNowShim k original)) s1 in
        Returned tt (set_original_prop (<[k:=original]> (original_prop (globals s2))) s2)
    | None => Returned tt s
    end
  else Returned tt s.

(** [restoreMoment] looks for [moment] on [globalThis] and [window] only. *)
Definition restoreMoment : M unit := λ s,
  if moment_global (globals s) then
    match moment_now (globals s) with
    | Some now =>
        match get_original (original_prop (globals s)) now with
        | Some o =>
            let s1 := set_moment_now (Some o) s in      (* moment.now = moment.now.__original *)
            Returned tt (delete_original o s1)          (* delete moment.now.__original *)
        | None => Returned tt s
        end
    | None => Returned tt s
    end
  else Returned tt s.

(** [globalThis.dayjs || window.dayjs || require('dayjs')] *)
Definition find_dayjs (s : state) : option LibFunction :=
  match dayjs_global (globals s) with
  | Some f => Some f
  | None => dayjs_require (globals s)
  end.

Definition hijackDayjs : M unit := λ s,
  match find_dayjs s with
  | Some original =>
      let '(k, s1) := fresh s in
      let controlled := DayjsShim k original in
      let s2 := set_original_prop (<[k:=original]> (original_prop (globals s1))) s1 in
      match dayjs_global (globals s2) with
      | Some _ => Returned tt (set_dayjs_global (Some controlled) s2)
      | None => Returned tt s2
      end
  | None => Returned tt s
  end.

Definition restoreDayjs : M unit := λ s,
  match dayjs_global (globals s) with
  | Some dayjs =>
      match get_original (original_prop (globals s)) dayjs with
      | Some original => Returned tt (set_dayjs_global (Some original) s)
      | None => Returned tt s
      end
  | None => Returned tt s
  end.

Definition hijackDateFns : M unit := mret tt.
Definition restoreDateFns : M unit := mret tt.

Definition hijackLibraries : M unit :=
  _ ← hijackMoment; _ ← hijackDayjs; hijackDateFns.

Definition restoreLibraries : M unit :=
  _ ← restoreMoment; _ ← restoreDayjs; restoreDateFns.

Definition Hijacker_isActive (s : state) : bool := isHijacked (hijacker s).

Definition Hijacker_destroy : M unit :=
  _ ← restoreNativeFunctions;
  _ ← restoreLibraries;
  modify (set_backup None).

(** *** Calling host callbacks *)

Fixpoint run_steps (b : list step) (s : state) : option nat * state :=
  match b with
  | [] => (None, s)
  | Subscribe c :: rest =>
      run_steps rest (set_subscribers (set_add c (subscribers (controller s))) s)
  | Unsubscribe c :: rest =>
      run_steps rest (set_subscribers (set_delete c (subscribers (controller s))) s)
  | Throw v :: _ => (Some v, s)
  end.

(** [c(arg)] *)
Definition call (c : callback) (arg : date) : M unit := λ s,
  let s1 := set_calls (calls (globals s) ++ [(c, arg)]) s in
  match run_steps (behaviour host c) s1 with
  | (None, s2) => Returned tt s2
  | (Some v, s2) => Thrown (Raised v) s2
  end.

(** [this.subscribers.forEach(f)], from entry [index] on: the loop of
    [Set.prototype.forEach], which reads the entry list anew at every turn. *)
Fixpoint forEach (fuel : nat) (index : nat) (f : callback → M unit) : M unit := λ s,
  match fuel with
  | O => Diverged s
  | S fuel' =>
      match subscribers (controller s) !! index with
      | None => Returned tt s
      | Some None => forEach fuel' (S index) f s
      | Some (Some c) => (_ ← f c; forEach fuel' (S index) f) s
      end
  end.

(** *** controller.ts: [TimeControllerImpl] *)

Definition notifySubscribers (fuel : nat) : M unit :=
  currentTime ← getCurrentTime;
  forEach fuel 0%nat (λ callback,
    try_catch (call callback currentTime)
      (λ e, modify (console_log error subscriber_error (Some e)))).

(** [this.options.onTimeChange(this.getCurrentTime())]: the function is read,
    the argument is evaluated, then the call is made. *)
Definition call_onTimeChange : M unit :=
  onTimeChange ← gets (λ s, options_onTimeChange (options (controller s)));
  currentTime ← getCurrentTime;
  match onTimeChange with
  | Some (Handler h) => call h currentTime
  | Some NoHandler => mret tt
  | None => throw not_a_function
  end.

Definition setTime (fuel : nat) (time : TimeInput) : M unit :=
  newTime ← (λ s, construct (globalDate (globals s)) time s);
  if isNaN (getTime newTime) then throw (Error "Invalid time provided to setTime")
  else
    _ ← modify (set_currentTime newTime);
    _ ← notifySubscribers fuel;
    call_onTimeChange.

Definition addTime (fuel : nat) (milliseconds : number) : M unit :=
  if isNaN milliseconds then throw (Error "Invalid milliseconds provided to addTime")
  else
    newTime ← (λ s, construct (globalDate (globals s))
                      (FromNumber (num_add (getTime (currentTime (controller s))) milliseconds))
                      s);
    _ ← modify (set_currentTime newTime);
    _ ← notifySubscribers fuel;
    call_onTimeChange.

Definition addMinutes (fuel : nat) (minutes : number) : M unit :=
  addTime fuel (num_mul (num_mul minutes (of_Z 60)) (of_Z 1000)).

Definition addHours (fuel : nat) (hours : number) : M unit :=
  addTime fuel (num_mul (num_mul (num_mul hours (of_Z 60)) (of_Z 60)) (of_Z 1000)).

Definition addDays (fuel : nat) (days : number) : M unit :=
  addTime fuel (num_mul (num_mul (num_mul (num_mul days (of_Z 24)) (of_Z 60)) (of_Z 60)) (of_Z 1000)).

Definition resetToRealTime (fuel : nat) : M unit :=
  now ← (λ s, construct_now (globalDate (globals s)) s);
  setTime fuel (FromDate now).

(** [if (this.options.hijackLibraries)] *)
Definition wants_libraries (s : state) : bool :=
  default false (options_hijackLibraries (options (controller s))).

Definition enable (fuel : nat) : M unit := λ s,
  if enabled (controller s) then Returned tt s
  else if negb (shouldEnableTimeControl (signals (globals s))
                  (options_environment (options (controller s))))
  then Returned tt
         (console_log warn "[react-time-travel] Cannot enable time control in production environment" None s)
  else
    (_ ← modify (set_enabled true);
     _ ← hijackNativeFunctions;
     _ ← when (wants_libraries s) hijackLibraries;
     notifySubscribers fuel) s.

Definition disable (fuel : nat) : M unit := λ s,
  if negb (enabled (controller s)) then Returned tt s
  else
    (_ ← modify (set_enabled false);
     _ ← restoreNativeFunctions;
     _ ← restoreLibraries;
     notifySubscribers fuel) s.

Definition subscribe (callback : callback) : M unit :=
  modify (λ s, set_subscribers (set_add callback (subscribers (controller s))) s).

(** The function [subscribe (callback)] returns. *)
Definition unsubscribe (callback : callback) : M unit :=
  modify (λ s, set_subscribers (set_delete callback (subscribers (controller s))) s).

(** One property of [{ ...this.options, ...newOptions }]: the spread copies
    every property [newOptions] has, one whose value is [undefined]
    included. *)
Definition spread {A B} (f : A → B) (old : option B) (new : optional A) : option B :=
  match new with
  | Absent => old
  | Undefined => None
  | Given a => Some (f a)
  end.

(** [{ ...this.options, ...newOptions }] *)
Definition merge_options (o : Options) (n : TimeControlOptions) : Options :=
  {| options_enabled := spread id (options_enabled o) (opt_enabled n);
     options_startTime := spread id (options_startTime o) (opt_startTime n);
     options_hijackLibraries := spread id (options_hijackLibraries o) (opt_hijackLibraries n);
     options_environment := spread id (options_environment o) (opt_environment n);
     options_onTimeChange := spread Handler (options_onTimeChange o) (opt_onTimeChange n) |}.

Definition updateOptions (newOptions : TimeControlOptions) : M unit := λ s,
  let oldHijackLibraries := options_hijackLibraries (options (controller s)) in
  let s1 := set_options (merge_options (options (controller s)) newOptions) s in
  (_ ← when (enabled (controller s1)
             && negb (bool_decide
                        (oldHijackLibraries = options_hijackLibraries (options (controller s1)))))
         (if wants_libraries s1 then hijackLibraries else restoreLibraries);
   match opt_onTimeChange newOptions with
   | Given h => currentTime ← getCurrentTime; call h currentTime
   | Absent | Undefined => mret tt
   end) s1.

Definition destroy (fuel : nat) : M unit :=
  _ ← disable fuel;
  _ ← Hijacker_destroy;
  modify (λ s, set_subscribers (set_clear (subscribers (controller s))) s).

(** *** Construction *)

(** [`${environment}`] *)
Definition env_name (e : option Environment) : string :=
  match e with
  | Some development => "development"
  | Some test => "test"
  | Some production => "production"
  | None => "undefined"
  end.

Definition logEnvironmentInfo (environment : option Environment) (enabled : bool) : M unit := λ s,
  let sg := signals (globals s) in
  if negb (isBrowser sg) || negb (has_console sg) then Returned tt s
  else if enabled then
    Returned tt (console_log info
      ("[react-time-travel] Time control enabled in " ++ env_name environment ++ " environment")%string
      None s)
  else
    match getEnvironmentWarning environment with
    | Some warning =>
        Returned tt (console_log warn ("[react-time-travel] " ++ warning)%string None s)
    | None =>
        Returned tt (console_log info
          ("[react-time-travel] Time control disabled in " ++ env_name environment ++ " environment")%string
          None s)
    end.

(** The platform a controller is constructed on: the wall clock, which of
    the libraries are there and how they can be reached, and the signals of
    the environment.  Nothing is hijacked yet. *)
Record Platform : Type := {
  platform_signals : Signals;
  platform_clock : Z;
  platform_moment_global : bool;
  platform_moment_require : bool;
  platform_dayjs_global : bool;
  platform_dayjs_require : bool
}.

Definition pristine (p : Platform) : Globals :=
  {| signals := platform_signals p;
     clock := platform_clock p;
     globalDate := NativeDate;
     moment_global := platform_moment_global p;
     moment_require := platform_moment_require p;
     moment_now :=
       if platform_moment_global p || platform_moment_require p
       then Some (Shipped Moment) else None;
     dayjs_global := if platform_dayjs_global p then Some (Shipped Dayjs) else None;
     dayjs_require := if platform_dayjs_require p then Some (Shipped Dayjs) else None;
     original_prop := ∅;
     next_stamp := 0%nat;
     console := [];
     calls := [] |}.

(** [options.startTime || new Date()], where [new Date()] gives [now]. *)
Definition initial_startTime (now : date) (opts : TimeControlOptions) : TimeInput :=
  match opt_startTime opts with
  | Given v => if truthy v then v else FromDate now
  | Absent | Undefined => FromDate now
  end.

(** [this.options] as the constructor sets it. *)
Definition initial_options (sg : Signals) (now : date) (opts : TimeControlOptions) : Options :=
  let environment := default (detectEnvironment sg) (given (opt_environment opts)) in
  {| options_enabled :=
       Some (default (shouldEnableTimeControl sg (Some environment)) (given (opt_enabled opts)));
     options_startTime := Some (initial_startTime now opts);
     options_hijackLibraries := Some (default true (given (opt_hijackLibraries opts)));
     options_environment := Some environment;
     options_onTimeChange :=
       Some match opt_onTimeChange opts with
            | Given h => Handler h
            | Absent | Undefined => NoHandler
            end |}.

(** [new TimeControllerImpl(options)].  [new Date()] is the platform's own
    here, so it reads the wall clock. *)
Definition new_TimeControllerImpl (fuel : nat) (p : Platform) (opts : TimeControlOptions)
  : outcome unit :=
  let g := pristine p in
  let now := DateAt (clock g) in
  let o := initial_options (signals g) now opts in
  let s0 :=
    State {| currentTime := now; enabled := false; subscribers := []; options := o |}
          {| backup := None; isHijacked := false |}
          g in
  (_ ← setTime fuel (initial_startTime now opts);
   _ ← (λ s, when (default false (options_enabled (options (controller s)))) (enable fuel) s);
   ((λ s, logEnvironmentInfo (options_environment (options (controller s)))
            (enabled (controller s)) s) : M unit)) s0.

(** *** Sequences of calls *)

(** The public operations of a controller, and [Elapse]: the wall clock
    moving on between two calls. *)
Inductive op : Type :=
| OpSetTime (time : TimeInput)
| OpAddTime (milliseconds : number)
| OpAddMinutes (minutes : number)
| OpAddHours (hours : number)
| OpAddDays (days : number)
| OpResetToRealTime
| OpEnable
| OpDisable
| OpSubscribe (c : callback)
| OpUnsubscribe (c : callback)
| OpUpdateOptions (newOptions : TimeControlOptions)
| OpDestroy
| Elapse (ms : Z).

Definition set_clock (t : Z) : state → state :=
  with_globals (λ g, Build_Globals (signals g) t (globalDate g) (moment_global g)
    (moment_require g) (moment_now g) (dayjs_global g) (dayjs_require g)
    (original_prop g) (next_stamp g) (console g) (calls g)).

Definition perform (fuel : nat) (o : op) : M unit :=
  match o with
  | OpSetTime time => setTime fuel time
  | OpAddTime ms => addTime fuel ms
  | OpAddMinutes m => addMinutes fuel m
  | OpAddHours h => addHours fuel h
  | OpAddDays d => addDays fuel d
  | OpResetToRealTime => resetToRealTime fuel
  | OpEnable => enable fuel
  | OpDisable => disable fuel
  | OpSubscribe c => subscribe c
  | OpUnsubscribe c => unsubscribe c
  | OpUpdateOptions n => updateOptions n
  | OpDestroy => destroy fuel
  | Elapse ms => modify (λ s, set_clock (clock (globals s) + ms) s)
  end.

(** The calls of [ops] one after the other; a caller that catches what a
    call throws goes on with the next one. *)
Fixpoint run (fuel : nat) (ops : list op) (s : state) : state :=
  match ops with
  | [] => s
  | o :: rest =>
      match perform fuel o s with
      | Returned _ s' | Thrown _ s' => run fuel rest s'
      | Diverged s' => s'
      end
  end.

End Model.

(** * utils.ts

    The utilities that compute on numbers, dates and strings.  A string is
    a sequence of code units below 256.  [formatTimePeriod],
    [formatDisplayDate] and [generateId] print fractional numbers, use the
    locale or draw random numbers, and are not embedded. *)

From Stdlib Require Import DecimalString.

(** ** Numbers, continued *)

(** [a < b]; [false] when either is [NaN]. *)
Definition num_lt (a b : number) : bool :=
  match a, b with
  | NaN, _ | _, NaN => false
  | Infinity sa, Infinity sb => sa && negb sb
  | Infinity sa, Finite _ => sa
  | Finite _, Infinity sb => negb sb
  | Finite x, Finite y => negb (Qle_bool y x)
  end.

(** [a === b] *)
Definition num_eqb (a b : number) : bool :=
  match a, b with
  | Infinity sa, Infinity sb => Bool.eqb sa sb
  | Finite x, Finite y => Qeq_bool x y
  | _, _ => false
  end.

(** [a - b] *)
Definition num_sub (a b : number) : number := num_add a (num_neg b).

(** [a / b]; the sign of a zero is not modelled, a zero divisor counts as
    [+0]. *)
Definition num_div (a b : number) : number :=
  match a, b with
  | NaN, _ | _, NaN => NaN
  | Infinity _, Infinity _ => NaN
  | Infinity sa, Finite y => Infinity (xorb sa (Qnegative y))
  | Finite _, Infinity _ => Finite 0
  | Finite x, Finite y =>
      if Qzero y then (if Qzero x then NaN else Infinity (Qnegative x))
      else round64 (x / y)
  end.

Definition Math_abs (a : number) : number :=
  match a with
  | NaN => NaN
  | Infinity _ => Infinity false
  | Finite x => Finite (Qabs x)
  end.

Definition Math_floor (a : number) : number :=
  match a with
  | Finite x => Finite (inject_Z (Qfloor x))
  | _ => a
  end.

(** [Math.max] and [Math.min] of two numbers; the sign of a zero is not
    modelled. *)
Definition Math_max (a b : number) : number :=
  if isNaN a || isNaN b then NaN else if num_lt a b then b else a.

Definition Math_min (a b : number) : number :=
  if isNaN a || isNaN b then NaN else if num_lt b a then b else a.

(** The decimal numeral of an integer. *)
Definition integer_toString (z : Z) : string :=
  ((if (z <? 0)%Z then "-" else "") ++ NilZero.string_of_uint (N.to_uint (Z.abs_N z)))%string.

(** [`${n}`] for [NaN], the infinities and the integers below 1e21 in
    magnitude.  The finite numbers printed here are results of
    [Math.floor]. *)
Definition Number_toString (n : number) : string :=
  match n with
  | NaN => "NaN"
  | Infinity negative => if negative then "-Infinity" else "Infinity"
  | Finite q => integer_toString (Qfloor q)
  end.

(** ** [DEFAULT_TIME_PERIODS] and [parseTimePeriod] *)

Record TimePeriod : Type := {
  period_label : string;
  period_value : number;          (* milliseconds *)
  period_shortcut : option string
}.

Definition DEFAULT_TIME_PERIODS : list TimePeriod :=
  [ {| period_label := "1 minute"; period_value := of_Z (60 * 1000);
       period_shortcut := Some "1m" |};
    {| period_label := "5 minutes"; period_value := of_Z (5 * 60 * 1000);
       period_shortcut := Some "5m" |};
    {| period_label := "15 minutes"; period_value := of_Z (15 * 60 * 1000);
       period_shortcut := Some "15m" |};
    {| period_label := "30 minutes"; period_value := of_Z (30 * 60 * 1000);
       period_shortcut := Some "30m" |};
    {| period_label := "1 hour"; period_value := of_Z (60 * 60 * 1000);
       period_shortcut := Some "1h" |};
    {| period_label := "6 hours"; period_value := of_Z (6 * 60 * 60 * 1000);
       period_shortcut := Some "6h" |};
    {| period_label := "12 hours"; period_value := of_Z (12 * 60 * 60 * 1000);
       period_shortcut := Some "12h" |};
    {| period_label := "1 day"; period_value := of_Z (24 * 60 * 60 * 1000);
       period_shortcut := Some "1d" |};
    {| period_label := "1 week"; period_value := of_Z (7 * 24 * 60 * 60 * 1000);
       period_shortcut := Some "1w" |} ].

(** [\d] *)
Definition is_digit (c : ascii) : bool :=
  let n := nat_of_ascii c in ((48 <=? n) && (n <=? 57))%nat.

(** [\s], among the code units below 256: TAB, LF, VT, FF, CR, SP and
    NBSP. *)
Definition is_whitespace (c : ascii) : bool :=
  bool_decide (nat_of_ascii c ∈ [9; 10; 11; 12; 13; 32; 160]%nat).

(** [[smhdw]] *)
Definition is_unit (c : ascii) : bool :=
  bool_decide (c ∈ ["s"; "m"; "h"; "d"; "w"]%char).

(** The longest prefix of [s] whose characters satisfy [f], and the rest: a
    greedy [f*]. *)
Fixpoint span (f : ascii → bool) (s : string) : string * string :=
  match s with
  | EmptyString => (EmptyString, EmptyString)
  | String c r =>
      if f c then let '(a, b) := span f r in (String c a, b) else (EmptyString, s)
  end.

(** [s.match (/^(\d+(?:\.\d+)?)\s*([smhdw]?)$/)]: the digits before and
    after the point of group 1, and group 2.  No character belongs to two
    of the classes, so the greedy reading is the only one. *)
Definition match_period (s : string) : option (string * string * string) :=
  let '(int, r1) := span is_digit s in
  if String.eqb int "" then None
  else
    let '(frac, r2) :=
      match r1 with
      | String c r =>
          if Ascii.eqb c "." then
            let '(frac, r') := span is_digit r in
            if String.eqb frac "" then (EmptyString, r1) else (frac, r')
          else (EmptyString, r1)
      | EmptyString => (EmptyString, r1)
      end in
    let '(_, r3) := span is_whitespace r2 in
    match r3 with
    | EmptyString => Some (int, frac, EmptyString)
    | String u EmptyString =>
        if is_unit u then Some (int, frac, String u EmptyString) else None
    | _ => None
    end.

Definition digit_value (c : ascii) : Z := Z.of_nat (nat_of_ascii c) - 48.

Fixpoint digits_value (acc : Z) (s : string) : Z :=
  match s with
  | EmptyString => acc
  | String c r => digits_value (10 * acc + digit_value c) r
  end.

(** The mathematical value of the decimal numeral [int.frac]. *)
Definition decimal_value (int frac : string) : Q :=
  digits_value 0 (int ++ frac)%string # Z.to_pos (10 ^ Z.of_nat (String.length frac)).

(** [parseFloat] on the text [int] or [int.frac] of group 1: the number
    nearest to its mathematical value.  (Engines round correctly; past the
    twentieth significant digit ECMAScript would let them be off by
    one unit in the last place.) *)
Definition parseFloat_decimal (int frac : string) : number :=
  round64 (decimal_value int frac).

(** [multipliers[unit]] *)
Definition multipliers (unit : string) : number :=
  if String.eqb unit "s" then of_Z 1000
  else if String.eqb unit "m" then of_Z (60 * 1000)
  else if String.eqb unit "h" then of_Z (60 * 60 * 1000)
  else if String.eqb unit "d" then of_Z (24 * 60 * 60 * 1000)
  else if String.eqb unit "w" then of_Z (7 * 24 * 60 * 60 * 1000)
  else NaN.

Definition parseTimePeriod (input : string) : exn + number :=
  match match_period (toLowerCase input) with
  | None => inl (Error ("Invalid time period format: " ++ input))
  | Some (int, frac, unit2) =>
      let value := parseFloat_decimal int frac in
      let unit := if String.eqb unit2 "" then "m" else unit2 in
      inr (num_mul value (multipliers unit))
  end.

(** ** [clamp] *)

Definition clamp (value min max : number) : number :=
  Math_min (Math_max value min) max.

(** ** [isValidDate], [safeParseDate] and [getRelativeTimeDescription] *)

(** [date instanceof Date && !isNaN (date.getTime ())] *)
Definition isValidDate (v : TimeInput) : bool :=
  match v with
  | FromDate d => negb (isNaN (getTime d))
  | _ => false
  end.

(** A value that [isValidDate] has narrowed to a [Date]. *)
Definition as_Date (v : TimeInput) : date :=
  match v with
  | FromDate d => d
  | _ => InvalidDate
  end.

Section Utilities.

Variable host : Host.

(** [`${input}`] for a [Date | string | number]; it is the string itself
    for a string. *)
Variable toString : TimeInput → string.

Definition safeParseDate (input : TimeInput) : M date :=
  if isValidDate input
  then λ s, construct host (globalDate (globals s)) (FromNumber (getTime (as_Date input))) s
  else
    parsed ← (λ s, construct host (globalDate (globals s)) input s);
    if isValidDate (FromDate parsed) then mret parsed
    else throw (Error ("Unable to parse date from input: " ++ toString input)).

(** [toTime] is [None] when the argument is left out or [undefined]: the
    default [new Date ()] is then evaluated with the [Date] that is bound
    at the call. *)
Definition getRelativeTimeDescription (fromTime : date) (toTime : option date) : M string :=
  toTime ← match toTime with
           | Some d => mret d
           | None => λ s, construct_now host (globalDate (globals s)) s
           end;
  let diffMs := num_sub (getTime toTime) (getTime fromTime) in
  let absDiffMs := Math_abs diffMs in
  let isInPast := num_lt diffMs (of_Z 0) in
  let seconds := Math_floor (num_div absDiffMs (of_Z 1000)) in
  let minutes := Math_floor (num_div seconds (of_Z 60)) in
  let hours := Math_floor (num_div minutes (of_Z 60)) in
  let days := Math_floor (num_div hours (of_Z 24)) in
  let '(unit, value) :=
    if num_lt (of_Z 0) days then
      (if num_eqb days (of_Z 1) then "day" else "days", days)
    else if num_lt (of_Z 0) hours then
      (if num_eqb hours (of_Z 1) then "hour" else "hours", hours)
    else if num_lt (of_Z 0) minutes then
      (if num_eqb minutes (of_Z 1) then "minute" else "minutes", minutes)
    else
      (if num_eqb seconds (of_Z 1) then "second" else "seconds", seconds) in
  let direction := if isInPast then "ago" else "from now" in
  mret (Number_toString value ++ " " ++ unit ++ " " ++ direction)%string.

End Utilities.

(** ** [debounce] and [throttle]

    The timers of the host.  [setTimeout] returns a new handle, a positive
    integer, and files the task with the time it is due, a delay below zero
    counting as zero; [clearTimeout] removes the task of a handle.  When
    the host gets to its timers ([run_timers]) it takes out the tasks that
    are due, the one due first and set first ahead.  A task is never run
    before it is due; how long after is up to the host, which is to say up
    to when [run_timers] is called.  Delays are whole milliseconds; hosts
    agree on the delays from 1 to 2147483647 (Node turns any other delay
    into 1, a browser wraps it to 32 bits), so the properties below are
    stated for those. *)

Section Timers.

Context {Task : Type}.

Record Timers : Type := {
  timers_now : Z;                              (* the time of the host *)
  timers_next : nat;                           (* the handle of the next timer *)
  timers_pending : list (nat * Z * Task)       (* handle, time due, task *)
}.

Definition setTimeout (task : Task) (delay : Z) (h : Timers) : nat * Timers :=
  (timers_next h,
   {| timers_now := timers_now h;
      timers_next := S (timers_next h);
      timers_pending :=
        timers_pending h ++ [(timers_next h, timers_now h + Z.max 0 delay, task)] |}).

Definition clearTimeout (handle : nat) (h : Timers) : Timers :=
  {| timers_now := timers_now h;
     timers_next := timers_next h;
     timers_pending := filter (λ e, e.1.1 ≠ handle) (timers_pending h) |}.

Fixpoint insert_by_due (e : nat * Z * Task) (l : list (nat * Z * Task))
  : list (nat * Z * Task) :=
  match l with
  | [] => [e]
  | e' :: rest => if e.1.2 <=? e'.1.2 then e :: l else e' :: insert_by_due e rest
  end.

(** The host's time moves on by [dt] and the host runs its timers: the
    tasks that are due, in the order they are run, and the timers left. *)
Definition run_timers (dt : Z) (h : Timers) : list Task * Timers :=
  let now := timers_now h + dt in
  let due := filter (λ e, e.1.2 ≤ now) (timers_pending h) in
  (snd <$> foldr insert_by_due [] due,
   {| timers_now := now;
      timers_next := timers_next h;
      timers_pending := filter (λ e, ¬ e.1.2 ≤ now) (timers_pending h) |}).

End Timers.

Arguments Timers : clear implicits.

Section Debounce.

(** The arguments of a call of the debounced function, and of [func]. *)
Context {Args : Type}.

(** The closure [debounce (func, wait)] returns: its variable [timeout], the
    timers, whose tasks are calls [func (...args)] that wait, and the calls
    of [func] made so far, with their times. *)
Record Debounced : Type := {
  timeout : option nat;
  debounce_timers : Timers Args;
  debounce_calls : list (Z * Args)
}.

(** [debounce (func, wait)], before its first call. *)
Definition debounce (now : Z) : Debounced :=
  {| timeout := None;
     debounce_timers := {| timers_now := now; timers_next := 1; timers_pending := [] |};
     debounce_calls := [] |}.

(** One call of the debounced function.  A handle is a positive integer, so
    [if (timeout)] holds once a timer was set. *)
Definition debounced (wait : Z) (args : Args) (d : Debounced) : Debounced :=
  let h1 :=
    match timeout d with
    | Some handle => clearTimeout handle (debounce_timers d)
    | None => debounce_timers d
    end in
  let '(handle, h2) := setTimeout args wait h1 in
  {| timeout := Some handle; debounce_timers := h2; debounce_calls := debounce_calls d |}.

(** The host runs its timers, [dt] later: the calls of [func] that are
    due are made. *)
Definition debounce_elapse (dt : Z) (d : Debounced) : Debounced :=
  let '(tasks, h) := run_timers dt (debounce_timers d) in
  {| timeout := timeout d;
     debounce_timers := h;
     debounce_calls := debounce_calls d ++ ((λ args, (timers_now h, args)) <$> tasks) |}.

End Debounce.

Arguments Debounced : clear implicits.

Section Throttle.

Context {Args : Type}.

(** Whether [func] throws on given arguments. *)
Variable func_throws : Args → bool.

(** The closure [throttle (func, limit)] returns: its variable [inThrottle],
    the timers, whose tasks set [inThrottle] back to [false], and the calls
    of [func] made so far, with their times. *)
Record Throttled : Type := {
  inThrottle : bool;
  throttle_timers : Timers unit;
  throttle_calls : list (Z * Args)
}.

(** [throttle (func, limit)], before its first call. *)
Definition throttle (now : Z) : Throttled :=
  {| inThrottle := false;
     throttle_timers := {| timers_now := now; timers_next := 1; timers_pending := [] |};
     throttle_calls := [] |}.

(** One call of the throttled function: whether it threw (what [func]
    throws is passed on, before [inThrottle] is set), and the closure it
    leaves. *)
Definition throttled (limit : Z) (args : Args) (t : Throttled) : bool * Throttled :=
  if negb (inThrottle t) then
    let calls := throttle_calls t ++ [(timers_now (throttle_timers t), args)] in
    if func_throws args then
      (true, {| inThrottle := false; throttle_timers := throttle_timers t;
                throttle_calls := calls |})
    else
      let '(_, h) := setTimeout tt limit (throttle_timers t) in
      (false, {| inThrottle := true; throttle_timers := h; throttle_calls := calls |})
  else (false, t).

(** The host runs its timers, [dt] later. *)
Definition throttle_elapse (dt : Z) (t : Throttled) : Throttled :=
  let '(tasks, h) := run_timers dt (throttle_timers t) in
  {| inThrottle := if tasks is [] then inThrottle t else false;
     throttle_timers := h;
     throttle_calls := throttle_calls t |}.

End Throttle.

Arguments Throttled : clear implicits.

(** ** Vocabulary of the statements *)

(** A time value a [Date] can hold. *)
Definition in_range (t : Z) : Prop := Z.abs t <= maxTime.

(** A state with the subscriber set, the console and the record of calls
    blanked out: what a notification round cannot change. *)
Definition observers_erased (s : state) : state :=
  set_subscribers [] (set_console [] (set_calls [] s)).

(** The calls made between [s] and a later state [s']. *)
Definition calls_since (s s' : state) : list (callback * date) :=
  drop (length (calls (globals s))) (calls (globals s')).

(** The console lines written between [s] and a later state [s']. *)
Definition console_since (s s' : state) : list logline :=
  drop (length (console (globals s))) (console (globals s')).

Definition changes_membership (st : step) : bool :=
  match st with
  | Subscribe _ | Unsubscribe _ => true
  | Throw _ => false
  end.

(** A callback whose code neither subscribes nor unsubscribes; it may
    throw. *)
Definition keeps_membership (host : Host) (c : callback) : Prop :=
  Forall (λ st, changes_membership st = false) (behaviour host c).

(** No member of the set has code that subscribes or unsubscribes. *)
Definition membership_kept (host : Host) (d : SetData) : bool :=
  forallb (λ c, forallb (λ st, negb (changes_membership st)) (behaviour host c)) (members d).

(** The value a callback throws, if its code gets to a [throw]. *)
Fixpoint first_throw (b : list step) : option nat :=
  match b with
  | [] => None
  | Throw v :: _ => Some v
  | _ :: rest => first_throw rest
  end.

(** An [updateOptions] argument that leaves [environment] at [production]:
    it has no such property, or gives it as [production]. *)
Definition keeps_environment (o : op) : Prop :=
  match o with
  | OpUpdateOptions n =>
      opt_environment n = Absent ∨ opt_environment n = Given production
  | _ => True
  end.

(** The state one subscriber call of a round leaves: the call is recorded,
    the callback runs, and what it throws is logged. *)
Definition delivered (host : Host) (arg : date) (c : callback) (s : state) : state :=
  let s1 := set_calls (calls (globals s) ++ [(c, arg)]) s in
  match run_steps (behaviour host c) s1 with
  | (None, s2) => s2
  | (Some v, s2) => console_log error subscriber_error (Some (Raised v)) s2
  end.

(** The slots of a set as a round can change them: entries are appended, and
    an entry that is there stays or becomes empty. *)
Definition slots_evolve (d d' : SetData) : Prop :=
  (length d ≤ length d')%nat ∧
  ∀ j c, (j < length d)%nat → d' !! j = Some (Some c) → d !! j = Some (Some c).

(** The line logged for member [c] of a round, if its code throws. *)
Definition error_line (host : Host) (c : callback) : option logline :=
  (λ v, Log error subscriber_error (Some (Raised v))) <$> first_throw (behaviour host c).

(** The instant a controller holds, as [getCurrentTime] returns it when it
    returns. *)
Definition virtual_instant (s : state) : date :=
  TimeClip (getTime (currentTime (controller s))).

(** What [getCurrentTime ()] returns, if it returns. *)
Definition reads (host : Host) (s : state) : option date :=
  match getCurrentTime host s with
  | Returned d _ => Some d
  | _ => None
  end.

(** The function of the host held in [onTimeChange], if it is one. *)
Definition host_handler (o : option handler) : option callback :=
  match o with
  | Some (Handler h) => Some h
  | Some NoHandler | None => None
  end.

(** [globalThis.Date] is the platform's own constructor. *)
Definition native (s : state) : Prop := globalDate (globals s) = NativeDate.

(** [globalThis.Date] is a [ControlledDate]. *)
Definition intercepted (s : state) : Prop :=
  match globalDate (globals s) with
  | NativeDate => False
  | ControlledDate _ _ => True
  end.

(** The state [enable] leaves before its round, when it activates. *)
Definition activated (s : state) : state :=
  state_of (when (wants_libraries s) hijackLibraries
              (state_of (hijackNativeFunctions (set_enabled true s)))).

(** The state [disable] leaves before its round. *)
Definition deactivated (s : state) : state :=
  state_of (restoreLibraries (state_of (restoreNativeFunctions (set_enabled false s)))).

(** A method that returns on every state. *)
Definition always_returns (m : M unit) : Prop :=
  ∀ s, m s = Returned tt (state_of (m s)).

(** A method that throws on no state. *)
Definition never_throws (m : M unit) : Prop :=
  ∀ s e s', m s ≠ Thrown e s'.

(** The activation state and the options of a controller. *)
Definition policy (s : state) : bool * Options :=
  (enabled (controller s), options (controller s)).

(** A method that leaves both as they are, however it ends. *)
Definition preserves_policy {A} (m : M A) : Prop :=
  ∀ s, policy (state_of (m s)) = policy s.

(** The text of the policy warning of [enable]. *)
Definition policy_warning : string :=
  "[react-time-travel] Cannot enable time control in production environment".

(** The environment a controller is constructed for. *)
Definition resolved_environment (p : Platform) (opts : TimeControlOptions) : Environment :=
  default (detectEnvironment (platform_signals p)) (given (opt_environment opts)).

(** Whether the constructor asks for activation: the [enabled] option, or
    the answer of the policy when there is none. *)
Definition requested (p : Platform) (opts : TimeControlOptions) : bool :=
  default (shouldEnableTimeControl (platform_signals p) (Some (resolved_environment p opts)))
    (given (opt_enabled opts)).

(** [this.options] as the constructor sets it on platform [p]. *)
Definition constructor_options (p : Platform) (opts : TimeControlOptions) : Options :=
  initial_options (platform_signals p) (DateAt (platform_clock p)) opts.

(** The [startTime] the constructor goes by on platform [p]. *)
Definition constructor_startTime (p : Platform) (opts : TimeControlOptions) : TimeInput :=
  initial_startTime (DateAt (platform_clock p)) opts.

(** A disabled controller of a production environment. *)
Definition production_locked (s : state) : Prop :=
  enabled (controller s) = false
  ∧ options_environment (options (controller s)) = Some production.

(** ** The claims that do not hold as stated *)

(** An explicit [enabled] option forces the initial activation state. *)
Definition explicit_policy_forces (host : Host) (fuel : nat) (p : Platform)
    (opts : TimeControlOptions) : Prop :=
  ∀ b s, opt_enabled opts = Given b →
    new_TimeControllerImpl host fuel p opts = Returned tt s →
    isActive s = b.


(** The inverse law of [addMinutes] at [m]: adding [m] and then [-m] minutes
    restores what [getCurrentTime] returns. *)
Definition inverse_law (host : Host) (fuel : nat) (s : state) (m : number) : Prop :=
  reads host
    (state_of (addMinutes host fuel (num_neg m) (state_of (addMinutes host fuel m s))))
  = reads host s.

(** A controller constructed on [p] with [opts] is active after no sequence
    of calls. *)
Definition never_active (host : Host) (fuel : nat) (p : Platform)
    (opts : TimeControlOptions) : Prop :=
  ∀ ops,
    isActive (run host fuel ops (state_of (new_TimeControllerImpl host fuel p opts))) = false.

(** ** Example hosts and controllers *)

(** A Node process with [NODE_ENV] set. *)
Definition node_signals (node_env : string) : Signals :=
  {| process_env := true; NODE_ENV := Some node_env; has_window := false;
     has_document := false; test_runner := false; hostname := ""; port := "";
     protocol := ""; has_console := true |}.

(** A platform with both libraries on [globalThis], at wall-clock time 5000. *)
Definition example_platform (node_env : string) : Platform :=
  {| platform_signals := node_signals node_env;
     platform_clock := 5000;
     platform_moment_global := true;
     platform_moment_require := false;
     platform_dayjs_global := true;
     platform_dayjs_require := false |}.

(** Callback 1 throws; callback 4 unsubscribes callback 5 and subscribes
    callback 6; callback 9 throws; every other callback does nothing. *)
Definition example_host : Host :=
  {| dateParse := λ _, NaN;
     behaviour := λ c,
       match c with
       | 1 => [Throw 7]
       | 4 => [Unsubscribe 5; Subscribe 6]
       | 9 => [Throw 42]
       | _ => []
       end%nat |}.

Definition example_options (enabled : optional bool) (onTimeChange : optional callback)
  : TimeControlOptions :=
  {| opt_enabled := enabled;
     opt_startTime := Given (FromNumber (of_Z 1000));
     opt_hijackLibraries := Absent;
     opt_environment := Absent;
     opt_onTimeChange := onTimeChange |}.

(** A controller of a test environment, not enabled, at virtual time 1000. *)
Definition disabled_controller : state :=
  state_of (new_TimeControllerImpl example_host 10 (example_platform "test")
              (example_options (Given false) Absent)).

(** The same after [enable ()], whose [TypeError] the caller has caught. *)
Definition enabled_controller : state :=
  run example_host 10 [OpEnable] disabled_controller.

(** Two subscribers, the first of which throws. *)
Definition throwing_subscriber : state :=
  run example_host 10 [OpSubscribe 1%nat; OpSubscribe 2%nat] disabled_controller.

(** Two subscribers, the first of which unsubscribes the second and
    subscribes a third. *)
Definition meddling_subscriber : state :=
  run example_host 10 [OpSubscribe 4%nat; OpSubscribe 5%nat] disabled_controller.

Definition only_onTimeChange (h : callback) : TimeControlOptions :=
  {| opt_enabled := Absent; opt_startTime := Absent; opt_hijackLibraries := Absent;
     opt_environment := Absent; opt_onTimeChange := Given h |}.

(** [{ environment }] *)
Definition only_environment (e : optional Environment) : TimeControlOptions :=
  {| opt_enabled := Absent; opt_startTime := Absent; opt_hijackLibraries := Absent;
     opt_environment := e; opt_onTimeChange := Absent |}.

(** Two subscribers, and an [onTimeChange] that throws. *)
Definition failing_onTimeChange : state :=
  run example_host 10 [OpUpdateOptions (only_onTimeChange 9%nat)] throwing_subscriber.

(** A production platform. *)
Definition production_platform : Platform := example_platform "production".

Definition no_options : TimeControlOptions :=
  {| opt_enabled := Absent; opt_startTime := Absent; opt_hijackLibraries := Absent;
     opt_environment := Absent; opt_onTimeChange := Absent |}.

(** Calls that try hard to enable a production controller. *)
Definition insistent_calls : list op :=
  [OpSubscribe 1%nat; OpEnable; OpSetTime (FromNumber (of_Z 2000));
   OpUpdateOptions (example_options (Given true) (Given 9%nat)); OpEnable;
   OpAddDays (of_Z 1); OpDisable; OpEnable; OpResetToRealTime; OpDestroy; OpEnable].

(** Calls that take a production controller out of production. *)
Definition leaving_production : list op :=
  [OpUpdateOptions (only_environment (Given development)); OpEnable].

(** The shims of a hijacker installed around a controller that is not
    enabled: [new TimeHijacker (controller)], then [hijackNativeFunctions ()]
    and [hijackLibraries ()]. *)
Definition shimmed_while_disabled : state :=
  state_of ((hijackNativeFunctions ≫= λ _, hijackLibraries) disabled_controller).

(** The libraries hijacked twice, then restored once. *)
Definition twice_hijacked_once_restored : state :=
  state_of ((hijackLibraries ≫= λ _, hijackLibraries ≫= λ _, restoreLibraries)
              disabled_controller).

(** A platform where [moment] and [dayjs] are reached through [require]
    only. *)
Definition require_only_platform : Platform :=
  {| platform_signals := node_signals "test";
     platform_clock := 5000;
     platform_moment_global := false;
     platform_moment_require := true;
     platform_dayjs_global := false;
     platform_dayjs_require := true |}.

Definition require_only_controller : state :=
  state_of (new_TimeControllerImpl example_host 10 require_only_platform
              (example_options (Given false) Absent)).

(** ** Further vocabulary *)

(** The instant 2024-01-01T12:00:00Z, and a controller set to it. *)
Definition noon_new_year_2024 : Z := 1704110400000.

Definition new_year_controller : state :=
  state_of (setTime example_host 10 (FromNumber (of_Z noon_new_year_2024))
              disabled_controller).

(** What the hijacker has no business with: the controller, the signals,
    the clock, the console and the record of calls. *)
Definition outside_hijacker (s : state)
  : Controller * Signals * Z * list logline * list (callback * date) :=
  (controller s, signals (globals s), clock (globals s), console (globals s),
   calls (globals s)).

Definition preserves_outside (m : M unit) : Prop :=
  ∀ s, outside_hijacker (state_of (m s)) = outside_hijacker s.

(** The calls made to callback [c]. *)
Definition calls_to (c : callback) (l : list (callback * date)) : list (callback * date) :=
  filter (λ p, fst p = c) l.

(** Who a controller may call, and whom it has called. *)
Definition audience (s : state) : SetData * option handler * list (callback * date) :=
  (subscribers (controller s), options_onTimeChange (options (controller s)),
   calls (globals s)).

(** Callback [c] is neither a subscriber nor the [onTimeChange] option. *)
Definition quiet_for (c : callback) (s : state) : Prop :=
  (Some c ∉ subscribers (controller s))
  ∧ options_onTimeChange (options (controller s)) ≠ Some (Handler c).

(** Between [s] and [s'] callback [c] was not called. *)
Definition never_calls (c : callback) (s s' : state) : Prop :=
  ∃ new, calls (globals s') = calls (globals s) ++ new ∧ ∀ p, p ∈ new → fst p ≠ c.

(** A method that leaves [c] out: from a state where [c] is unknown to the
    controller it does not call [c], and [c] stays unknown. *)
Definition keeps_out {A} (c : callback) (m : M A) : Prop :=
  ∀ s, quiet_for c s → quiet_for c (state_of (m s)) ∧ never_calls c s (state_of (m s)).

(** A call that does not hand [c] to the controller. *)
Definition leaves_out (c : callback) (o : op) : Prop :=
  match o with
  | OpSubscribe c' => c' ≠ c
  | OpUpdateOptions n => opt_onTimeChange n ≠ Given c
  | _ => True
  end.

(** Calls that leave callback 5 out: callback 7 is subscribed meanwhile and
    the controller is enabled, moved and destroyed. *)
Definition calls_without_5 : list op :=
  [OpSetTime (FromNumber (of_Z 2000)); OpEnable; OpSubscribe 7%nat;
   OpAddDays (of_Z 1); OpUpdateOptions (only_onTimeChange 9%nat);
   OpResetToRealTime; OpDisable; OpDestroy].

(** The calls that are meant to move the virtual instant. *)
Definition moves_instant (o : op) : bool :=
  match o with
  | OpSetTime _ | OpAddTime _ | OpAddMinutes _ | OpAddHours _ | OpAddDays _
  | OpResetToRealTime => true
  | _ => false
  end.

(** Activation, subscriptions, options and a day of wall-clock time. *)
Definition calls_around_the_clock : list op :=
  [OpEnable; OpSubscribe 1%nat; Elapse 86400000; OpDisable;
   OpUpdateOptions (only_onTimeChange 9%nat); OpEnable; OpUnsubscribe 1%nat; OpDestroy].

(** A method that leaves [f] of the state as it is, however it ends. *)
Definition preserves {A B} (f : state → B) (m : M A) : Prop :=
  ∀ s, f (state_of (m s)) = f s.

(** What the library wrappers have no business with. *)
Definition outside_libraries (s : state) : Controller * Hijacker * DateConstructor :=
  (controller s, hijacker s, globalDate (globals s)).

(** What the native hijack has no business with: the library entry points
    and their [__original] properties. *)
Definition outside_native (s : state)
  : bool * bool * option LibFunction * option LibFunction * option LibFunction
    * gmap nat LibFunction :=
  (moment_global (globals s), moment_require (globals s), moment_now (globals s),
   dayjs_global (globals s), dayjs_require (globals s), original_prop (globals s)).

(** The backup [hijackNativeFunctions] takes of the platform's own [Date]. *)
Definition native_backup : NativeFunctionBackup :=
  {| backup_Date := NativeDate;
     backup_DateNow := NativeNow;
     backup_DatePrototypeGetTime := ProtoGetTime;
     backup_DatePrototypeToString := ProtoToString;
     backup_DatePrototypeToISOString := ProtoToISOString |}.

(** [globalThis.Date] agrees with the activation state: the platform's own
    [Date] while the controller is not enabled, one [ControlledDate] around
    it, backed up, while it is. *)
Definition Date_coherent (s : state) : Prop :=
  isHijacked (hijacker s) = enabled (controller s)
  ∧ if enabled (controller s)
    then (∃ k, globalDate (globals s) = ControlledDate k NativeDate)
         ∧ backup (hijacker s) = Some native_backup
    else globalDate (globals s) = NativeDate.

(** A platform whose [moment], if it has one, is on [globalThis]. *)
Definition moment_on_globalThis (p : Platform) : Prop :=
  platform_moment_require p = true → platform_moment_global p = true.

(** The entry point [now] is one wrapper around what the platform shipped,
    and the wrapper's [__original] is what it wraps. *)
Definition wrapped_once (g : Globals) (shipped now : option LibFunction)
    (shim : nat → LibFunction → LibFunction) : Prop :=
  match shipped with
  | None => now = None
  | Some f =>
      ∃ k, (k < next_stamp g)%nat ∧ now = Some (shim k f) ∧ original_prop g !! k = Some f
  end.

Definition libraries_wrapped (p : Platform) (g : Globals) : Prop :=
  wrapped_once g (moment_now (pristine p)) (moment_now g) MomentNowShim
  ∧ wrapped_once g (dayjs_global (pristine p)) (dayjs_global g) DayjsShim.

Definition libraries_shipped (p : Platform) (g : Globals) : Prop :=
  moment_now g = moment_now (pristine p) ∧ dayjs_global g = dayjs_global (pristine p).

(** Where the libraries are found does not change. *)
Definition libraries_found (p : Platform) (g : Globals) : Prop :=
  moment_global g = platform_moment_global p
  ∧ moment_require g = platform_moment_require p
  ∧ dayjs_require g = dayjs_require (pristine p).

Definition libraries_state (p : Platform) (wrapped : bool) (g : Globals) : Prop :=
  libraries_found p g
  ∧ if wrapped then libraries_wrapped p g else libraries_shipped p g.


(** The state [updateOptions] leaves before it calls the new
    [onTimeChange]. *)
Definition reconfigured (n : TimeControlOptions) (s : state) : state :=
  let s1 := set_options (merge_options (options (controller s)) n) s in
  state_of (when (enabled (controller s1)
                  && negb (bool_decide
                             (options_hijackLibraries (options (controller s))
                              = options_hijackLibraries (options (controller s1)))))
              (if wants_libraries s1 then hijackLibraries else restoreLibraries) s1).

(** Calls on a controller of a test environment: [enable ()], which
    activates it and throws; a subscription; a day on the wall clock; and
    [setTime (2000)], which throws while the controller is enabled. *)
Definition calls_while_enabled : list op :=
  [OpEnable; OpSubscribe 1%nat; Elapse 86400000; OpSetTime (FromNumber (of_Z 2000))].

(** The enabled controller of a test environment with subscriber 1, still
    at virtual time 1000. *)
Definition busy_controller : state :=
  run example_host 10 calls_while_enabled disabled_controller.

(** A controller constructed in production with default options. *)
Definition production_controller : state :=
  state_of (new_TimeControllerImpl example_host 10 production_platform no_options).

(** The controller with two subscribers after [addTime (Infinity)]: its
    instant is an invalid date. *)
Definition lost_controller : state :=
  state_of (addTime example_host 10 (Infinity false) throwing_subscriber).

(** [{ startTime: 0, onTimeChange: 2 }]: the epoch as start time. *)
Definition epoch_start : TimeControlOptions :=
  {| opt_enabled := Absent; opt_startTime := Given (FromNumber (of_Z 0));
     opt_hijackLibraries := Absent; opt_environment := Absent;
     opt_onTimeChange := Given 2%nat |}.

(** A browser page: no [process], a window and a document. *)
Definition page_signals (hostname port protocol : string) : Signals :=
  {| process_env := false; NODE_ENV := None; has_window := true;
     has_document := true; test_runner := false; hostname := hostname; port := port;
     protocol := protocol; has_console := true |}.

(** [NODE_ENV] does not name one of the three environments. *)
Definition NODE_ENV_unrecognised (sg : Signals) : Prop :=
  process_env sg = false
  ∨ NODE_ENV sg = None
  ∨ ∃ v, NODE_ENV sg = Some v ∧ ∀ e, toLowerCase v ≠ env_name (Some e).

(** A [Date] object holds a time value [TimeClip] has let through. *)
Definition well_formed (v : TimeInput) : Prop :=
  match v with
  | FromDate (DateAt t) => in_range t
  | _ => True
  end.

(** [`${input}`] for the inputs of the examples: strings print as they
    are. *)
Definition example_toString (v : TimeInput) : string :=
  match v with
  | FromString str => str
  | FromNumber n => Number_toString n
  | FromDate _ => "Invalid Date"
  end.

(** Every character of [s] satisfies [f]. *)
Fixpoint all_chars (f : ascii → bool) (s : string) : bool :=
  match s with
  | EmptyString => true
  | String c r => f c && all_chars f r
  end.

(** The text of a decimal number: the digits [int], followed by a point and
    the digits [frac] when there are any. *)
Definition number_text (int frac : string) : string :=
  if String.eqb frac "" then int else (int ++ "." ++ frac)%string.

(** No unit, or one of the unit letters in either case. *)
Definition unit_text (u : string) : Prop :=
  u = "" ∨ ∃ c, u = String c "" ∧ is_unit (lower_ascii c) = true.

(** [s] is empty or starts with a character that does not satisfy [f]. *)
Definition starts_without (f : ascii → bool) (s : string) : Prop :=
  match s with
  | EmptyString => True
  | String c _ => f c = false
  end.

(** The largest of day, hour, minute and second that [d] milliseconds
    reach, with its length in milliseconds; the second when they reach
    none. *)
Definition largest_unit (d : Z) : Z * string :=
  if 86400000 <=? d then (86400000, "day")
  else if 3600000 <=? d then (3600000, "hour")
  else if 60000 <=? d then (60000, "minute")
  else (1000, "second").

(** The description of the distance between the instants [f] and [t]: the
    whole number of largest units it holds, the unit in the singular for
    one, and [ago] when [t] is before [f]. *)
Definition relative_description (f t : Z) : string :=
  let d := Z.abs (t - f) in
  let '(U, name) := largest_unit d in
  let n := d / U in
  (integer_toString n ++ " " ++ name ++ (if (n =? 1)%Z then "" else "s") ++ " "
   ++ (if (t <? f)%Z then "ago" else "from now"))%string.

(** The line [logEnvironmentInfo] writes in a browser. *)
Definition environment_line (env : Environment) (active : bool) : logline :=
  if active then
    Log info
      ("[react-time-travel] Time control enabled in " ++ env_name (Some env) ++ " environment")
      None
  else
    match getEnvironmentWarning (Some env) with
    | Some warning => Log warn ("[react-time-travel] " ++ warning) None
    | None =>
        Log info
          ("[react-time-travel] Time control disabled in " ++ env_name (Some env)
           ++ " environment")
          None
    end.

(** A browser page of a production site, with [{ enabled: true }]. *)
Definition production_page : Platform :=
  {| platform_signals := page_signals "shop.example.com" "" "https:";
     platform_clock := 5000;
     platform_moment_global := false;
     platform_moment_require := false;
     platform_dayjs_global := false;
     platform_dayjs_require := false |}.

Definition insist_enabled : TimeControlOptions :=
  {| opt_enabled := Given true; opt_startTime := Absent; opt_hijackLibraries := Absent;
     opt_environment := Absent; opt_onTimeChange := Absent |}.

(** A host whose callback 3 unsubscribes itself and subscribes itself
    again. *)
Definition resubscribing_host : Host :=
  {| dateParse := λ _, NaN;
     behaviour := λ c,
       match c with
       | 3 => [Unsubscribe 3; Subscribe 3]
       | _ => []
       end%nat |}.

(** The disabled controller with callback 3 as its only subscriber. *)
Definition resubscribing_controller : state :=
  run resubscribing_host 10 [OpSubscribe 3%nat] disabled_controller.

(** What happens to a debounced or throttled function: it is called, or
    time passes and the host runs its timers. *)
Inductive timer_event (Args : Type) : Type :=
| Invoke (args : Args)
| Pause (dt : Z).

Arguments Invoke {Args} args.
Arguments Pause {Args} dt.

(** The time that passes over a sequence of events. *)
Definition elapsed {Args} (events : list (timer_event Args)) : Z :=
  foldr (λ e acc, match e with Pause dt => dt + acc | Invoke _ => acc end) 0 events.

(** No event takes the time back. *)
Definition forward {Args} (e : timer_event Args) : Prop :=
  match e with
  | Pause dt => 0 ≤ dt
  | Invoke _ => True
  end.

(** A burst of calls of a debounced function, each followed by a pause. *)
Fixpoint debounce_burst {Args} (wait : Z) (burst : list (Args * Z)) (d : Debounced Args)
  : Debounced Args :=
  match burst with
  | [] => d
  | (args, pause) :: rest =>
      debounce_burst wait rest (debounce_elapse pause (debounced wait args d))
  end.

(** Events on a throttled function; a call that throws is caught by the
    caller. *)
Fixpoint throttle_run {Args} (func_throws : Args → bool) (limit : Z)
    (events : list (timer_event Args)) (t : Throttled Args) : Throttled Args :=
  match events with
  | [] => t
  | Invoke args :: rest =>
      throttle_run func_throws limit rest (throttled func_throws limit args t).2
  | Pause dt :: rest => throttle_run func_throws limit rest (throttle_elapse dt t)
  end.

(** A debounced function has at most one timer waiting, and [timeout] is
    its handle. *)
Definition one_waiting {Args} (d : Debounced Args) : Prop :=
  timers_pending (debounce_timers d) = []
  ∨ ∃ due args,
      timers_pending (debounce_timers d) = [(default 0%nat (timeout d), due, args)]
      ∧ is_Some (timeout d).

(** * Properties *)

(** ** Binary64 arithmetic *)

Section Binary64.

Local Open Scope Q_scope.

(** *** Powers of two *)

Lemma two_neq_0 : ~ (2 : Q) == 0.
Proof. discriminate. Qed.

Lemma pow2_pos k : 0 < 2 ^ k.
Proof. apply Qpower_0_lt. reflexivity. Qed.

Lemma pow2_Z k : (0 <= k)%Z -> 2 ^ k == inject_Z (2 ^ k).
Proof. intros H. now rewrite Zpower_Qpower. Qed.

Lemma pow2_le j k : (j <= k)%Z -> 2 ^ j <= 2 ^ k.
Proof. intros H. apply Qpower_le_compat_l; [exact H | discriminate]. Qed.

Lemma pow2_lt j k : (j < k)%Z -> 2 ^ j < 2 ^ k.
Proof. intros H. apply Qpower_lt_compat_l; [exact H | reflexivity]. Qed.

Lemma pow2_lt_inv j k : 2 ^ j < 2 ^ k -> (j < k)%Z.
Proof.
  intros H. destruct (Z_lt_le_dec j k) as [|Hle]; [assumption|].
  apply pow2_le in Hle. exfalso. apply (Qlt_irrefl (2 ^ j)).
  eapply Qlt_le_trans; eauto.
Qed.

Lemma pow2_split j k : 2 ^ (j + k) == 2 ^ j * 2 ^ k.
Proof. apply Qpower_plus, two_neq_0. Qed.

Lemma pow2_cancel k : 2 ^ k * 2 ^ (- k) == 1.
Proof. rewrite <- pow2_split, Z.add_opp_diag_r. reflexivity. Qed.

Lemma pow2_frac a b :
  (0 <= a)%Z -> (0 <= b)%Z -> 2 ^ (a - b) == (2 ^ a)%Z # Z.to_pos (2 ^ b).
Proof.
  intros Ha Hb. rewrite Qpower_minus by apply two_neq_0.
  rewrite (Qmake_Qdiv (2 ^ a)), Z2Pos.id by (apply Z.pow_pos_nonneg; lia).
  now rewrite !pow2_Z.
Qed.

(** *** The binade of a positive rational *)

Lemma binade_spec q : 0 < q -> 2 ^ binade q <= q /\ q < 2 ^ (binade q + 1).
Proof.
  intros Hq. destruct q as [n d]. unfold binade. cbn [Qnum Qden].
  assert (0 < n)%Z as Hn by (unfold Qlt in Hq; simpl in Hq; lia).
  set (ln := Z.log2 n). set (ld := Z.log2 (Z.pos d)).
  assert (0 <= ln)%Z as Hln by apply Z.log2_nonneg.
  assert (0 <= ld)%Z as Hld by apply Z.log2_nonneg.
  destruct (Z.log2_spec n Hn) as [Hn1 Hn2]. fold ln in Hn1, Hn2.
  destruct (Z.log2_spec (Z.pos d) eq_refl) as [Hd1 Hd2]. fold ld in Hd1, Hd2.
  assert (0 < 2 ^ ln)%Z as Pn by (apply Z.pow_pos_nonneg; lia).
  assert (0 < 2 ^ ld)%Z as Pd by (apply Z.pow_pos_nonneg; lia).
  assert (n # d < 2 ^ (ln - ld + 1)) as Hup.
  { replace (ln - ld + 1)%Z with (ln + 1 - ld)%Z by lia.
    rewrite pow2_frac by lia. unfold Qlt. cbn [Qnum Qden].
    rewrite Z2Pos.id by lia. change (Z.succ ln) with (ln + 1)%Z in Hn2.
    apply Z.lt_le_trans with (2 ^ (ln + 1) * 2 ^ ld)%Z.
    - apply Z.mul_lt_mono_pos_r; assumption.
    - apply Z.mul_le_mono_nonneg_l; [lia | assumption]. }
  assert (2 ^ (ln - ld - 1) <= n # d) as Hlow.
  { replace (ln - ld - 1)%Z with (ln - (ld + 1))%Z by lia.
    rewrite pow2_frac by lia. unfold Qle. cbn [Qnum Qden].
    rewrite Z2Pos.id by (apply Z.pow_pos_nonneg; lia).
    change (Z.succ ld) with (ld + 1)%Z in Hd2.
    apply Z.le_trans with (n * Z.pos d)%Z.
    - apply Z.mul_le_mono_nonneg_r; lia.
    - apply Z.mul_le_mono_nonneg_l; lia. }
  destruct (Qle_bool (2 ^ (ln - ld)) (n # d)) eqn:E.
  - apply Qle_bool_iff in E. split; assumption.
  - split; [exact Hlow|].
    replace (ln - ld - 1 + 1)%Z with (ln - ld)%Z by lia.
    apply Qnot_le_lt. intros H. apply Qle_bool_iff in H. congruence.
Qed.

Lemma binade_unique q e : 2 ^ e <= q -> q < 2 ^ (e + 1) -> binade q = e.
Proof.
  intros H1 H2.
  assert (0 < q) as Hq by (eapply Qlt_le_trans; [apply (pow2_pos e) | exact H1]).
  destruct (binade_spec q Hq) as [B1 B2].
  assert (binade q < e + 1)%Z
    by (apply pow2_lt_inv; eapply Qle_lt_trans; eauto).
  assert (e < binade q + 1)%Z
    by (apply pow2_lt_inv; eapply Qle_lt_trans; eauto).
  lia.
Qed.

Lemma binade_le q e : 0 < q -> q < 2 ^ (e + 1) -> (binade q <= e)%Z.
Proof.
  intros Hq H. destruct (binade_spec q Hq) as [B1 _].
  assert (binade q < e + 1)%Z by (apply pow2_lt_inv; eapply Qle_lt_trans; eauto).
  lia.
Qed.

Lemma binade_ge q e : 2 ^ e <= q -> (e <= binade q)%Z.
Proof.
  intros H.
  assert (0 < q) as Hq by (eapply Qlt_le_trans; [apply (pow2_pos e) | exact H]).
  destruct (binade_spec q Hq) as [_ B2].
  assert (e < binade q + 1)%Z by (apply pow2_lt_inv; eapply Qle_lt_trans; eauto).
  lia.
Qed.

Lemma binade_comp p q : 0 < p -> p == q -> binade p = binade q.
Proof.
  intros Hp E. destruct (binade_spec p Hp) as [B1 B2]. symmetry.
  apply binade_unique; now rewrite <- E.
Qed.

(** *** Rounding to the nearest integer *)

Lemma round_half_even_Z n : round_half_even (inject_Z n) = n.
Proof.
  unfold round_half_even. rewrite Qfloor_Z.
  assert (inject_Z n - inject_Z n == 0) as E by ring.
  rewrite E. reflexivity.
Qed.

Lemma round_half_even_comp p q : p == q -> round_half_even p = round_half_even q.
Proof.
  intros E. unfold round_half_even. rewrite (Qfloor_comp _ _ E).
  assert (p - inject_Z (Qfloor q) == q - inject_Z (Qfloor q)) as -> by now rewrite E.
  reflexivity.
Qed.

Lemma round_half_even_bounds q :
  (Qfloor q <= round_half_even q <= Qfloor q + 1)%Z.
Proof.
  unfold round_half_even. destruct (_ ?= _); [destruct (Z.even _)|..]; lia.
Qed.

Lemma round_half_even_down q :
  q - inject_Z (Qfloor q) < 1 # 2 -> round_half_even q = Qfloor q.
Proof.
  intros H. unfold round_half_even.
  destruct (Qcompare_spec (q - inject_Z (Qfloor q)) (1 # 2)) as [E|_|G].
  - rewrite E in H. discriminate.
  - reflexivity.
  - exfalso. apply (Qlt_irrefl (1 # 2)). eapply Qlt_trans; eauto.
Qed.

(** *** Rounding to binary64 *)

Lemma Qzero_iff q : Qzero q = true <-> q == 0.
Proof.
  unfold Qzero, Qeq. simpl. rewrite Z.eqb_eq. lia.
Qed.

Lemma Qzero_comp p q : p == q -> Qzero p = Qzero q.
Proof.
  intros E. destruct (Qzero p) eqn:Hp, (Qzero q) eqn:Hq; try reflexivity.
  - apply Qzero_iff in Hp. rewrite E in Hp. apply Qzero_iff in Hp. congruence.
  - apply Qzero_iff in Hq. rewrite <- E in Hq. apply Qzero_iff in Hq. congruence.
Qed.

Lemma Qnegative_iff q : Qnegative q = true <-> q < 0.
Proof. unfold Qnegative, Qlt. simpl. rewrite Z.ltb_lt. lia. Qed.

Lemma Qnegative_comp p q : p == q -> Qnegative p = Qnegative q.
Proof.
  intros E. destruct (Qnegative p) eqn:Hp, (Qnegative q) eqn:Hq; try reflexivity.
  - apply Qnegative_iff in Hp. rewrite E in Hp. apply Qnegative_iff in Hp. congruence.
  - apply Qnegative_iff in Hq. rewrite <- E in Hq. apply Qnegative_iff in Hq. congruence.
Qed.

Lemma Qabs_positive q : Qzero q = false -> 0 < Qabs q.
Proof.
  intros H. destruct (Qle_lt_or_eq _ _ (Qabs_nonneg q)) as [|E]; [assumption|].
  assert (q == 0) as Hq.
  { destruct (Qlt_le_dec q 0) as [N|P].
    - rewrite Qabs_neg in E by now apply Qlt_le_weak.
      rewrite <- (Qopp_involutive q), <- E. reflexivity.
    - rewrite Qabs_pos in E by assumption. now symmetry. }
  apply Qzero_iff in Hq. congruence.
Qed.

Lemma round_magnitude_comp a b : 0 < a -> a == b -> round_magnitude a = round_magnitude b.
Proof.
  intros Ha E. unfold round_magnitude. rewrite <- (binade_comp a b Ha E).
  set (k := Z.max (binade a - 52) (-1074)).
  assert (a / 2 ^ k == b / 2 ^ k) as D by (apply Qmult_comp; [exact E | reflexivity]).
  now rewrite (round_half_even_comp _ _ D).
Qed.

Lemma round64_comp p q : p == q -> round64 p = round64 q.
Proof.
  intros E. unfold round64. rewrite <- (Qzero_comp p q E), <- (Qnegative_comp p q E).
  destruct (Qzero p) eqn:Hz; [reflexivity|].
  rewrite (round_magnitude_comp (Qabs p) (Qabs q)); [reflexivity | | now rewrite E].
  now apply Qabs_positive.
Qed.

(** A magnitude that is a whole number of units in the last place is kept. *)
Lemma round_magnitude_exact a n :
  a == inject_Z n * 2 ^ Z.max (binade a - 52) (-1074) -> round_magnitude a == a.
Proof.
  intros E. unfold round_magnitude.
  set (k := Z.max (binade a - 52) (-1074)) in *.
  assert (a / 2 ^ k == inject_Z n) as D.
  { rewrite E at 1. unfold Qdiv. rewrite <- Qmult_assoc, Qmult_inv_r, Qmult_1_r.
    - reflexivity.
    - intros H. pose proof (pow2_pos k) as P. rewrite H in P. discriminate. }
  rewrite (round_half_even_comp _ _ D), round_half_even_Z. now rewrite <- E.
Qed.

Lemma round64_exact q n :
  Qzero q = false ->
  Qabs q == inject_Z n * 2 ^ Z.max (binade (Qabs q) - 52) (-1074) ->
  Qabs q < 2 ^ 1024 ->
  round64 q = Finite (Qred q).
Proof.
  intros Hz E Hlt. unfold round64. rewrite Hz.
  pose proof (round_magnitude_exact _ _ E) as R.
  destruct (Qle_bool (2 ^ 1024) (round_magnitude (Qabs q))) eqn:B.
  - apply Qle_bool_iff in B. rewrite R in B. exfalso.
    apply (Qlt_irrefl (Qabs q)). eapply Qlt_le_trans; eauto.
  - f_equal. apply Qred_complete.
    destruct (Qnegative q) eqn:N.
    + apply Qnegative_iff in N. rewrite R, Qabs_neg by now apply Qlt_le_weak.
      apply Qopp_involutive.
    + rewrite R. apply Qabs_pos.
      apply Qnot_lt_le. intros H. apply Qnegative_iff in H. congruence.
Qed.

Lemma Qred_inject_Z z : Qred (inject_Z z) = inject_Z z.
Proof.
  apply Qcanon.Qred_identity. simpl. apply Z.gcd_1_r.
Qed.

Lemma Qabs_inject_Z z : Qabs (inject_Z z) = inject_Z (Z.abs z).
Proof. reflexivity. Qed.

(** A whole number [c * 2^j] with [|c| < 2^53] is a binary64 value. *)
Lemma round64_dyadic_strict c j :
  (Z.abs c < 2 ^ 53)%Z -> (0 <= j <= 970)%Z ->
  round64 (inject_Z (c * 2 ^ j)) = of_Z (c * 2 ^ j).
Proof.
  intros Hc Hj. unfold of_Z.
  destruct (Qzero (inject_Z (c * 2 ^ j))) eqn:Hz.
  - unfold round64. rewrite Hz. unfold Qzero in Hz. simpl in Hz.
    apply Z.eqb_eq in Hz. now rewrite Hz.
  - assert (0 < 2 ^ j)%Z as Pj by (apply Z.pow_pos_nonneg; lia).
    assert (Z.abs (c * 2 ^ j) = Z.abs c * 2 ^ j)%Z as Habs
      by (rewrite Z.abs_mul, (Z.abs_eq (2 ^ j)); lia).
    assert (0 < Z.abs c)%Z as Pc.
    { unfold Qzero in Hz. simpl in Hz. apply Z.eqb_neq in Hz. nia. }
    set (a := Qabs (inject_Z (c * 2 ^ j))).
    assert (a == inject_Z (Z.abs c) * 2 ^ j) as Ha.
    { unfold a. rewrite Qabs_inject_Z, Habs, inject_Z_mult, pow2_Z by lia. reflexivity. }
    assert (0 < a) as Pa by now apply Qabs_positive.
    assert (binade a <= 52 + j)%Z as He.
    { apply binade_le; [exact Pa|]. rewrite Ha.
      replace (52 + j + 1)%Z with (53 + j)%Z by lia. rewrite pow2_split.
      apply Qmult_lt_compat_r; [apply pow2_pos|].
      rewrite pow2_Z by lia. now rewrite <- Zlt_Qlt. }
    set (k := Z.max (binade a - 52) (-1074)).
    assert (k <= j)%Z as Hk by (unfold k; lia).
    rewrite (round64_exact (inject_Z (c * 2 ^ j)) (Z.abs c * 2 ^ (j - k)));
      [now rewrite Qred_inject_Z | exact Hz | |].
    + fold a. fold k. rewrite Ha, inject_Z_mult, <- Qmult_assoc.
      rewrite <- pow2_Z by lia. rewrite <- pow2_split.
      now replace (j - k + k)%Z with j by lia.
    + fold a. rewrite Ha.
      apply Qlt_le_trans with (2 ^ 53 * 2 ^ j).
      * apply Qmult_lt_compat_r; [apply pow2_pos|].
        rewrite pow2_Z by lia. now rewrite <- Zlt_Qlt.
      * rewrite <- pow2_split. apply pow2_le. lia.
Qed.

Lemma round64_dyadic c j :
  (Z.abs c <= 2 ^ 53)%Z -> (0 <= j <= 969)%Z ->
  round64 (inject_Z (c * 2 ^ j)) = of_Z (c * 2 ^ j).
Proof.
  intros Hc Hj. destruct (Z.eq_dec (Z.abs c) (2 ^ 53)%Z) as [E|N].
  - assert (c * 2 ^ j = (c / 2) * 2 ^ (j + 1))%Z as ->.
    { rewrite Z.pow_add_r, Z.pow_1_r by lia.
      assert (c = 2 * (c / 2))%Z as Hc2.
      { apply Z.div_exact; [lia|]. 
        destruct (Z.abs_spec c) as [[_ A]|[_ A]]; rewrite A in E.
        - now rewrite E.
        - replace c with (- 2 ^ 53)%Z by lia. reflexivity. }
      rewrite Hc2 at 1. ring. }
    apply round64_dyadic_strict; [|lia].
    destruct (Z.abs_spec c) as [[_ A]|[_ A]]; rewrite A in E.
    + rewrite E. reflexivity.
    + replace c with (- 2 ^ 53)%Z by lia. reflexivity.
  - apply round64_dyadic_strict; lia.
Qed.

Lemma round64_of_Z z : (Z.abs z <= 2 ^ 53)%Z -> round64 (inject_Z z) = of_Z z.
Proof.
  intros H. rewrite <- (Z.mul_1_r z) at 1 2.
  change 1%Z with (2 ^ 0)%Z at 1 2. apply round64_dyadic; [exact H | lia].
Qed.

(** *** The floor of a rounded quotient *)

Lemma floor_scaled_bounds a b K m :
  (0 <= a)%Z -> (0 < b)%Z -> (0 < K)%Z -> (b < 2 * K)%Z ->
  ((a * K) / b <= m <= (a * K) / b + 1)%Z ->
  (2 * ((a * K) mod b) < b -> m = (a * K) / b)%Z ->
  (a / b * K <= m < (a / b + 1) * K)%Z.
Proof.
  intros Ha Hb HK HbK Hm Hdown.
  pose proof (Z.div_mod a b ltac:(lia)) as Da.
  pose proof (Z.mod_pos_bound a b Hb) as Ra.
  pose proof (Z.div_mod (a * K) b ltac:(lia)) as DA.
  pose proof (Z.mod_pos_bound (a * K) b Hb) as RA.
  set (n := (a / b)%Z) in *. set (r := (a mod b)%Z) in *.
  set (f := (a * K / b)%Z) in *. set (g := ((a * K) mod b)%Z) in *.
  assert (n * K <= f)%Z as Hlow.
  { unfold f. apply Z.div_le_lower_bound; [exact Hb|]. nia. }
  assert (f <= (n + 1) * K - 1)%Z as Hup.
  { assert (f < (n + 1) * K)%Z; [|lia].
    unfold f. apply Z.div_lt_upper_bound; [exact Hb|]. nia. }
  split; [lia|].
  destruct (Z.eq_dec f ((n + 1) * K - 1)%Z) as [E|N]; [|lia].
  rewrite Hdown; [lia|]. nia.
Qed.

Lemma round64_quotient_floor a b :
  (0 <= a < 2 ^ 53)%Z -> (0 < b <= 2 ^ 53)%Z ->
  exists q, round64 (inject_Z a / inject_Z b) = Finite q /\ Qfloor q = (a / b)%Z.
Proof.
  intros Ha Hb.
  destruct (Z.eq_dec a 0%Z) as [->|Na].
  - exists 0. split; [|now rewrite Z.div_0_l by lia].
    rewrite (round64_comp _ 0); [reflexivity|]. unfold Qdiv. apply Qmult_0_l.
  - set (pb := Z.to_pos b).
    assert (Z.pos pb = b) as Hpb by (apply Z2Pos.id; lia).
    assert (inject_Z a / inject_Z b == a # pb) as Ex
      by (rewrite (Qmake_Qdiv a pb), Hpb; reflexivity).
    rewrite (round64_comp _ _ Ex).
    set (x := a # pb).
    assert (0 < x) as Px by (unfold x, Qlt; simpl; lia).
    assert (Qabs x = x) as Habs.
    { unfold x, Qabs. now rewrite Z.abs_eq by lia. }
    assert (Qzero x = false) as Hz by (unfold x, Qzero; simpl; apply Z.eqb_neq; lia).
    assert (Qnegative x = false) as Hn by (unfold x, Qnegative; simpl; apply Z.ltb_ge; lia).
    destruct (binade_spec x Px) as [B1 B2].
    set (e := binade x) in *.
    assert (e <= 52)%Z as He1.
    { apply binade_le; [exact Px|]. unfold x, Qlt. simpl.
      change (2 ^ 53)%Q with (inject_Z (2 ^ 53)). simpl. nia. }
    assert (-53 <= e)%Z as He2.
    { apply binade_ge. unfold x. change (2 ^ (-53))%Q with (1 # Z.to_pos (2 ^ 53)).
      unfold Qle. simpl. rewrite Hpb. lia. }
    assert (Z.max (e - 52) (-1074) = e - 52)%Z as Hk by lia.
    set (K := (2 ^ (52 - e))%Z).
    assert (0 < K)%Z as PK by (apply Z.pow_pos_nonneg; lia).
    assert (2 ^ (e - 52) == 1 # Z.to_pos K) as Hpow.
    { replace (e - 52)%Z with (0 - (52 - e))%Z by lia.
      rewrite pow2_frac by lia. reflexivity. }
    assert (b < 2 * K)%Z as HbK.
    { assert (inject_Z b * 2 ^ e < 2 ^ 53) as H.
      { apply Qle_lt_trans with (inject_Z b * x).
        - apply Qmult_le_l; [unfold Qlt; simpl; lia | exact B1].
        - assert (inject_Z b * x == inject_Z a) as ->.
          { unfold x, Qeq, Qmult. cbn [Qnum Qden inject_Z].
            rewrite Pos.mul_1_l, Hpb. ring. }
          rewrite pow2_Z by lia. rewrite <- Zlt_Qlt. lia. }
      assert (inject_Z b < inject_Z (2 * K)) as H'; [|now rewrite <- Zlt_Qlt in H'].
      assert (inject_Z (2 * K) == 2 ^ 53 * 2 ^ (- e)) as ->.
      { unfold K. rewrite <- pow2_split.
        replace (2 * 2 ^ (52 - e))%Z with (2 ^ (53 + - e))%Z
          by (replace (53 + - e)%Z with (Z.succ (52 - e)) by lia;
              rewrite Z.pow_succ_r by lia; reflexivity).
        now rewrite pow2_Z by lia. }
      apply Qmult_lt_r with (2 ^ e); [apply pow2_pos|].
      rewrite <- Qmult_assoc, (Qmult_comm (2 ^ (- e))), pow2_cancel, Qmult_1_r.
      exact H. }
    set (y := (a * K)%Z # pb).
    assert (x / 2 ^ (e - 52) == y) as Hy.
    { rewrite Hpow. unfold x, y, Qeq, Qdiv, Qmult, Qinv. simpl.
      rewrite Z2Pos.id, Pos.mul_1_r by lia. reflexivity. }
    set (m := round_half_even y).
    assert (Qfloor y = (a * K / b)%Z) as Hf
      by (unfold y, Qfloor; now rewrite Hpb).
    assert (a / b * K <= m < (a / b + 1) * K)%Z as Hm.
    { apply floor_scaled_bounds with (b := b); try lia.
      - pose proof (round_half_even_bounds y) as H. rewrite Hf in H. exact H.
      - intros Hd. unfold m. rewrite round_half_even_down; [exact Hf|].
        rewrite Hf. unfold y, Qlt, Qminus, Qplus, Qopp, inject_Z.
        cbn [Qnum Qden]. rewrite Pos.mul_1_r, Hpb.
        pose proof (Z.div_mod (a * K) b ltac:(lia)). lia. }
    assert (round_magnitude x == m # Z.to_pos K) as Hr.
    { unfold round_magnitude. fold e. rewrite Hk.
      rewrite (round_half_even_comp _ _ Hy). fold m. rewrite Hpow.
      unfold Qeq, Qmult. cbn [Qnum Qden inject_Z]. lia. }
    exists (Qred (round_magnitude x)). split.
    + unfold round64. rewrite Hz, Hn, Habs.
      destruct (Qle_bool (2 ^ 1024) (round_magnitude x)) eqn:O; [|reflexivity].
      exfalso. apply Qle_bool_iff in O. rewrite Hr in O.
      assert (m # Z.to_pos K <= inject_Z (2 ^ 53)) as U.
      { unfold Qle. cbn [Qnum Qden inject_Z]. rewrite Z2Pos.id by lia.
        assert (a / b < 2 ^ 53)%Z by (apply Z.div_lt_upper_bound; nia). nia. }
      apply (Qlt_irrefl (2 ^ 1024)).
      eapply Qle_lt_trans; [exact O|]. eapply Qle_lt_trans; [exact U|].
      rewrite <- pow2_Z by lia. apply pow2_lt. lia.
    + rewrite (Qfloor_comp _ _ (Qred_correct _)), (Qfloor_comp _ _ Hr).
      unfold Qfloor. rewrite Z2Pos.id by lia.
      symmetry. apply Z.div_unique with (m - a / b * K)%Z; lia.
Qed.

(** *** Arithmetic on whole numbers *)

(** The sum of two whole numbers is exact up to [2^53]. *)
Lemma num_add_of_Z a b :
  (Z.abs (a + b) <= 2 ^ 53)%Z -> num_add (of_Z a) (of_Z b) = of_Z (a + b).
Proof.
  intros H. unfold num_add, of_Z.
  rewrite <- inject_Z_plus. now apply round64_of_Z.
Qed.

Lemma num_sub_of_Z a b :
  (Z.abs (a - b) <= 2 ^ 53)%Z -> num_sub (of_Z a) (of_Z b) = of_Z (a - b).
Proof.
  intros H. unfold num_sub. change (num_neg (of_Z b)) with (of_Z (- b)).
  now apply num_add_of_Z.
Qed.

(** The product of two whole numbers is exact when it is [c * 2^j] with [c]
    up to [2^53]. *)
Lemma num_mul_of_Z a b c j :
  (a * b = c * 2 ^ j)%Z -> (Z.abs c <= 2 ^ 53)%Z -> (0 <= j <= 969)%Z ->
  num_mul (of_Z a) (of_Z b) = of_Z (a * b).
Proof.
  intros E Hc Hj. unfold num_mul, of_Z.
  rewrite <- inject_Z_mult, E. now apply round64_dyadic.
Qed.

(** [Math.floor (a / b)] on whole numbers is the whole quotient. *)
Lemma floor_div_of_Z a b :
  (0 <= a < 2 ^ 53)%Z -> (0 < b <= 2 ^ 53)%Z ->
  Math_floor (num_div (of_Z a) (of_Z b)) = of_Z (a / b).
Proof.
  intros Ha Hb. unfold num_div, of_Z.
  assert (Qzero (inject_Z b) = false) as -> by (apply Z.eqb_neq; simpl; lia).
  destruct (round64_quotient_floor a b Ha Hb) as (q & -> & Hq).
  unfold Math_floor. now rewrite Hq.
Qed.

(** *** Negation *)

(** Rounding is symmetric about zero. *)
Lemma round64_opp q : round64 (- q) = num_neg (round64 q).
Proof.
  unfold round64.
  assert (Qzero (- q) = Qzero q) as Ez.
  { unfold Qzero. destruct q as [n d]. simpl. destruct n; reflexivity. }
  rewrite Ez. destruct (Qzero q) eqn:Hz; [reflexivity|].
  rewrite (round_magnitude_comp (Qabs (- q)) (Qabs q));
    [| now apply Qabs_positive | apply Qabs_opp].
  assert (Qnegative (- q) = negb (Qnegative q)) as ->.
  { unfold Qzero, Qnegative in *. destruct q as [[|n|n] d]; simpl in *;
      [discriminate | reflexivity | reflexivity]. }
  destruct (Qle_bool (2 ^ 1024) (round_magnitude (Qabs q))); [reflexivity|].
  destruct (Qnegative q); cbn [negb num_neg]; f_equal.
  - rewrite Qred_opp. destruct (Qred (round_magnitude (Qabs q))) as [a b].
    unfold Qopp. cbn [Qnum Qden]. now rewrite Z.opp_involutive.
  - apply Qred_opp.
Qed.

(** [(-a) * y] is [-(a * y)] for a positive [y]. *)
Lemma num_mul_neg_l a y :
  0 < y -> num_mul (num_neg a) (Finite y) = num_neg (num_mul a (Finite y)).
Proof.
  intros Hy. destruct a as [|sa|x]; cbn [num_neg num_mul].
  - reflexivity.
  - assert (Qnegative y = false) as ->.
    { destruct (Qnegative y) eqn:E; [|reflexivity].
      apply Qnegative_iff in E. exfalso. exact (Qlt_irrefl _ (Qlt_trans _ _ _ Hy E)). }
    destruct (Qzero y); [reflexivity|]. cbn [num_neg]. now rewrite !xorb_false_r.
  - rewrite <- round64_opp. apply round64_comp. ring.
Qed.

Lemma num_mul_neg_of_Z a n :
  (0 < n)%Z -> num_mul (num_neg a) (of_Z n) = num_neg (num_mul a (of_Z n)).
Proof.
  intros Hn. apply num_mul_neg_l. unfold Qlt. simpl. lia.
Qed.

End Binary64.

(** Closes a conjunction of closed equations by evaluation. *)
Ltac evaluate :=
  repeat match goal with |- _ ∧ _ => split end; vm_compute; reflexivity.

(** Refutes the membership of a value in a closed list it differs from at
    every position. *)
Ltac refute_membership :=
  let H := fresh in
  intros H; apply list_elem_of_In in H; simpl in H;
  repeat (destruct H as [H|H]; [discriminate H|]); exact H.

Ltac munfold :=
  unfold mbind, M_bind, mret, M_ret, gets, modify, when, throw, try_catch in *.

(** ** Dates *)

Section Dates.

Variable host : Host.

Lemma construct_native arg s :
  construct host NativeDate arg s = Returned (native_construct host arg) s.
Proof. reflexivity. Qed.

Lemma construct_intercepted k D arg s :
  construct host (ControlledDate k D) arg s = Thrown not_a_constructor s.
Proof. reflexivity. Qed.

Lemma TimeClip_of_Z t : in_range t → TimeClip (of_Z t) = DateAt t.
Proof.
  unfold in_range, TimeClip, of_Z, inject_Z, Qle_bool. simpl. intros H.
  rewrite !Z.mul_1_r, Z.quot_1_r.
  destruct (Z.leb_spec (Z.abs t) maxTime) as [_|Hlt]; [reflexivity | lia].
Qed.

Lemma TimeClip_out_of_range t : ¬ in_range t → TimeClip (of_Z t) = InvalidDate.
Proof.
  unfold in_range, TimeClip, of_Z, inject_Z, Qle_bool. simpl. intros H.
  rewrite !Z.mul_1_r.
  destruct (Z.leb_spec (Z.abs t) maxTime) as [Hle|_]; [lia | reflexivity].
Qed.

Lemma TimeClip_in_range n t : TimeClip n = DateAt t → in_range t.
Proof.
  destruct n as [| |[a d]]; try discriminate. unfold TimeClip, Qle_bool. simpl.
  destruct (Z.leb_spec (Z.abs a * 1) (maxTime * Z.pos d)) as [Hle|]; [|discriminate].
  intros [= <-]. unfold in_range.
  rewrite <- (Z.quot_abs a (Z.pos d)) by lia. simpl.
  apply Z.quot_le_upper_bound; lia.
Qed.

Lemma native_construct_in_range arg t : native_construct host arg = DateAt t → in_range t.
Proof. destruct arg; simpl; apply TimeClip_in_range. Qed.

Lemma TimeClip_idem n : TimeClip (getTime (TimeClip n)) = TimeClip n.
Proof.
  destruct (TimeClip n) as [|t] eqn:E; [reflexivity|].
  simpl. apply TimeClip_of_Z. eapply TimeClip_in_range; eauto.
Qed.

Lemma native_or_intercepted s : native s ∨ intercepted s.
Proof. unfold native, intercepted. destruct (globalDate (globals s)); auto. Qed.

Lemma native_not_intercepted s : native s → ¬ intercepted s.
Proof. unfold native, intercepted. now intros ->. Qed.

(** With the platform's own [Date], [getCurrentTime] returns a copy of the
    instant held. *)
Lemma getCurrentTime_native s :
  native s → getCurrentTime host s = Returned (virtual_instant s) s.
Proof. unfold native, getCurrentTime. now intros ->. Qed.

(** While [Date] is intercepted it throws. *)
Lemma getCurrentTime_intercepted s :
  intercepted s → getCurrentTime host s = Thrown not_a_constructor s.
Proof. unfold intercepted, getCurrentTime. now destruct (globalDate (globals s)). Qed.

Lemma getCurrentTime_returned s d s' :
  getCurrentTime host s = Returned d s' → native s ∧ d = virtual_instant s ∧ s' = s.
Proof.
  destruct (native_or_intercepted s) as [N|I].
  - rewrite (getCurrentTime_native s N). now intros [= <- <-].
  - now rewrite (getCurrentTime_intercepted s I).
Qed.

Lemma getCurrentTime_thrown s e s' :
  getCurrentTime host s = Thrown e s' → intercepted s ∧ e = not_a_constructor ∧ s' = s.
Proof.
  destruct (native_or_intercepted s) as [N|I].
  - now rewrite (getCurrentTime_native s N).
  - rewrite (getCurrentTime_intercepted s I). now intros [= <- <-].
Qed.

Lemma getCurrentTime_state s : state_of (getCurrentTime host s) = s.
Proof.
  destruct (native_or_intercepted s) as [N|I].
  - now rewrite (getCurrentTime_native s N).
  - now rewrite (getCurrentTime_intercepted s I).
Qed.

Lemma virtual_instant_valid s t :
  currentTime (controller s) = DateAt t → in_range t → virtual_instant s = DateAt t.
Proof. unfold virtual_instant. intros -> Hr. simpl. now apply TimeClip_of_Z. Qed.

Lemma virtual_instant_invalid s :
  currentTime (controller s) = InvalidDate → virtual_instant s = InvalidDate.
Proof. unfold virtual_instant. now intros ->. Qed.

Lemma in_range_dec t : in_range t ∨ ¬ in_range t.
Proof. unfold in_range. lia. Qed.

Lemma virtual_instant_DateAt s t :
  virtual_instant s = DateAt t → currentTime (controller s) = DateAt t ∧ in_range t.
Proof.
  unfold virtual_instant. destruct (currentTime (controller s)) as [|t0]; [discriminate|].
  change (getTime (DateAt t0)) with (of_Z t0).
  destruct (in_range_dec t0) as [Hr|Hr].
  - rewrite (TimeClip_of_Z t0 Hr). intros [= <-]. auto.
  - now rewrite (TimeClip_out_of_range t0 Hr).
Qed.

Lemma reads_native s : native s → reads host s = Some (virtual_instant s).
Proof. intros N. unfold reads. now rewrite getCurrentTime_native. Qed.

Lemma reads_intercepted s : intercepted s → reads host s = None.
Proof. intros I. unfold reads. now rewrite getCurrentTime_intercepted. Qed.

End Dates.

(** ** The state a round leaves alone *)

Ltac destruct_state s :=
  let c := fresh "c" in let h := fresh "h" in let g := fresh "g" in
  destruct s as [c h g]; destruct c, h, g.

Lemma erased_set_subscribers d s :
  observers_erased (set_subscribers d s) = observers_erased s.
Proof. destruct_state s; reflexivity. Qed.

Lemma erased_set_calls l s : observers_erased (set_calls l s) = observers_erased s.
Proof. destruct_state s; reflexivity. Qed.

Lemma erased_console_log lv text v s :
  observers_erased (console_log lv text v s) = observers_erased s.
Proof. destruct_state s; reflexivity. Qed.

(** Two states that agree up to the observers differ in those three fields
    only. *)
Lemma erased_inv s s' :
  observers_erased s' = observers_erased s →
  s' = set_subscribers (subscribers (controller s'))
         (set_console (console (globals s')) (set_calls (calls (globals s')) s)).
Proof.
  destruct_state s; destruct_state s'. unfold observers_erased. simpl.
  intros H. simplify_eq. reflexivity.
Qed.

Section Rounds.

Variable host : Host.

Local Open Scope nat_scope.

Lemma erased_run_steps b s :
  observers_erased (run_steps b s).2 = observers_erased s.
Proof.
  revert s. induction b as [|[c|c|v] b IH]; intros s; simpl; auto;
    rewrite IH; apply erased_set_subscribers.
Qed.

Lemma erased_call c arg s :
  observers_erased (state_of (call host c arg s)) = observers_erased s.
Proof.
  unfold call.
  pose proof (erased_run_steps (behaviour host c)
                (set_calls (calls (globals s) ++ [(c, arg)]) s)) as H.
  destruct (run_steps _ _) as [[v|] s2]; simpl in *; rewrite H; apply erased_set_calls.
Qed.

Lemma erased_delivered arg c s :
  observers_erased (delivered host arg c s) = observers_erased s.
Proof.
  unfold delivered.
  pose proof (erased_run_steps (behaviour host c)
                (set_calls (calls (globals s) ++ [(c, arg)]) s)) as H.
  destruct (run_steps _ _) as [[v|] s2]; simpl in *;
    rewrite ?erased_console_log, H; apply erased_set_calls.
Qed.

(** One subscriber call inside its [try]/[catch] always returns. *)
Lemma deliver_eq arg c s :
  try_catch (call host c arg)
    (λ e, modify (console_log error subscriber_error (Some e))) s
  = Returned tt (delivered host arg c s).
Proof.
  unfold try_catch, call, delivered, modify.
  destruct (run_steps _ _) as [[v|] s2]; reflexivity.
Qed.

Lemma set_subscribers_twice d d' s :
  set_subscribers d (set_subscribers d' s) = set_subscribers d s.
Proof. destruct_state s; reflexivity. Qed.

Lemma set_subscribers_same s : set_subscribers (subscribers (controller s)) s = s.
Proof. destruct_state s; reflexivity. Qed.

(** A callback changes nothing but the subscriber set. *)
Lemma run_steps_state b s :
  (run_steps b s).2 = set_subscribers (subscribers (controller (run_steps b s).2)) s.
Proof.
  revert s. induction b as [|[c|c|v] b IH]; intros s; simpl;
    try (symmetry; apply set_subscribers_same);
    rewrite IH at 1; apply set_subscribers_twice.
Qed.

Lemma run_steps_throw b s : (run_steps b s).1 = first_throw b.
Proof. revert s. induction b as [|[c|c|v] b IH]; intros s; simpl; auto. Qed.

Lemma run_steps_keeps b s :
  Forall (λ st, changes_membership st = false) b → (run_steps b s).2 = s.
Proof.
  intros H. revert s. induction H as [|[c|c|v] b Hst Hb IH]; intros s; simpl; auto;
    discriminate.
Qed.

(** *** Slots *)

Lemma slots_evolve_refl d : slots_evolve d d.
Proof. split; auto. Qed.

Lemma slots_evolve_trans d1 d2 d3 :
  slots_evolve d1 d2 → slots_evolve d2 d3 → slots_evolve d1 d3.
Proof.
  intros [L1 H1] [L2 H2]. split; [lia|].
  intros j c Hj H3. apply H1; [done|]. apply H2; [lia | done].
Qed.

Lemma slots_evolve_add c d : slots_evolve d (set_add c d).
Proof.
  unfold set_add. destruct (set_has d c); [apply slots_evolve_refl|].
  split; [rewrite length_app; lia|].
  intros j c' Hj. now rewrite lookup_app_l.
Qed.

Lemma length_set_delete c d : length (set_delete c d) = length d.
Proof. unfold set_delete. apply length_fmap. Qed.

Lemma slots_evolve_delete c d : slots_evolve d (set_delete c d).
Proof.
  split; [now rewrite length_set_delete|].
  intros j c' Hj. unfold set_delete. rewrite list_lookup_fmap.
  destruct (d !! j) as [e|]; simpl; [|done].
  destruct (decide (e = Some c)); [done | congruence].
Qed.

Lemma slots_evolve_run_steps b s :
  slots_evolve (subscribers (controller s)) (subscribers (controller (run_steps b s).2)).
Proof.
  revert s. induction b as [|[c|c|v] b IH]; intros s; simpl;
    try apply slots_evolve_refl.
  - eapply slots_evolve_trans; [|apply IH]. destruct_state s; apply slots_evolve_add.
  - eapply slots_evolve_trans; [|apply IH]. destruct_state s; apply slots_evolve_delete.
Qed.

(** *** One call of a round *)

Lemma delivered_state arg c s :
  ∃ d l,
    delivered host arg c s
    = set_subscribers d
        (set_console (console (globals s) ++ l)
           (set_calls (calls (globals s) ++ [(c, arg)]) s))
    ∧ slots_evolve (subscribers (controller s)) d
    ∧ l = option_list (error_line host c).
Proof.
  unfold delivered, error_line.
  set (s1 := set_calls _ s).
  pose proof (run_steps_state (behaviour host c) s1) as Hst.
  pose proof (run_steps_throw (behaviour host c) s1) as Hth.
  pose proof (slots_evolve_run_steps (behaviour host c) s1) as Hev.
  destruct (run_steps _ _) as [r s2]. simpl in *. subst r.
  exists (subscribers (controller s2)), (option_list (error_line host c)).
  split; [|split; [|done]].
  - unfold error_line. rewrite Hst. subst s1.
    destruct (first_throw _) as [v|]; destruct_state s; simpl;
      rewrite ?app_nil_r; reflexivity.
  - subst s1. destruct_state s. exact Hev.
Qed.

Lemma delivered_keeps arg c s :
  keeps_membership host c →
  delivered host arg c s
  = set_console (console (globals s) ++ option_list (error_line host c))
      (set_calls (calls (globals s) ++ [(c, arg)]) s).
Proof.
  intros H. unfold delivered, error_line.
  set (s1 := set_calls _ s).
  pose proof (run_steps_keeps (behaviour host c) s1 H) as Hst.
  pose proof (run_steps_throw (behaviour host c) s1) as Hth.
  destruct (run_steps _ _) as [r s2]. simpl in *. subst r s2.
  destruct (first_throw _) as [v|]; subst s1; destruct_state s; simpl;
    rewrite ?app_nil_r; reflexivity.
Qed.

(** *** The loop of a round *)

Local Abbreviation deliver arg :=
  (λ callback : callback,
     try_catch (call host callback arg)
       (λ e, modify (console_log error subscriber_error (Some e)))).

Lemma forEach_step fuel i arg s :
  forEach (S fuel) i (deliver arg) s
  = match subscribers (controller s) !! i with
    | None => Returned tt s
    | Some None => forEach fuel (S i) (deliver arg) s
    | Some (Some c) => forEach fuel (S i) (deliver arg) (delivered host arg c s)
    end.
Proof.
  simpl. destruct (subscribers (controller s) !! i) as [[c|]|]; try reflexivity.
  unfold mbind, M_bind. now rewrite deliver_eq.
Qed.

(** The loop never passes on what a subscriber throws. *)
Lemma forEach_not_thrown fuel i arg s e s' :
  forEach fuel i (deliver arg) s ≠ Thrown e s'.
Proof.
  revert i s. induction fuel as [|fuel IH]; intros i s; [discriminate|].
  rewrite forEach_step.
  destruct (subscribers (controller s) !! i) as [[c|]|]; [apply IH | apply IH | discriminate].
Qed.

Lemma forEach_erased fuel i arg s :
  observers_erased (state_of (forEach fuel i (deliver arg) s)) = observers_erased s.
Proof.
  revert i s. induction fuel as [|fuel IH]; intros i s; [reflexivity|].
  rewrite forEach_step.
  destruct (subscribers (controller s) !! i) as [[c|]|]; [|apply IH|reflexivity].
  rewrite IH. apply erased_delivered.
Qed.

Lemma forEach_evolve fuel i arg s :
  slots_evolve (subscribers (controller s))
    (subscribers (controller (state_of (forEach fuel i (deliver arg) s)))).
Proof.
  revert i s. induction fuel as [|fuel IH]; intros i s; [apply slots_evolve_refl|].
  rewrite forEach_step.
  destruct (subscribers (controller s) !! i) as [[c|]|];
    [|apply IH|apply slots_evolve_refl].
  eapply slots_evolve_trans; [|apply IH].
  destruct (delivered_state arg c s) as (d & l & -> & Hev & _). exact Hev.
Qed.

(** A round that completes has called every callback it leaves in the set,
    from slot [i] on, and every call it made was with the round's argument. *)
Lemma forEach_visits fuel i arg s s' :
  forEach fuel i (deliver arg) s = Returned tt s' →
  ∃ new,
    calls (globals s') = calls (globals s) ++ new
    ∧ Forall (λ p, p.2 = arg) new
    ∧ ∀ j c, i ≤ j → subscribers (controller s') !! j = Some (Some c) → (c, arg) ∈ new.
Proof.
  revert i s. induction fuel as [|fuel IH]; intros i s; [discriminate|].
  rewrite forEach_step.
  destruct (subscribers (controller s) !! i) as [[c|]|] eqn:Hi.
  - intros H.
    pose proof (forEach_evolve fuel (S i) arg (delivered host arg c s)) as Hev.
    rewrite H in Hev. simpl in Hev.
    destruct (IH _ _ H) as (new & Hcalls & Hargs & Hvis).
    destruct (delivered_state arg c s) as (d & l & Hd & Hev0 & _).
    rewrite Hd in Hcalls, Hev. simpl in Hcalls, Hev.
    exists ((c, arg) :: new). split; [|split].
    + rewrite Hcalls. now rewrite <- app_assoc.
    + constructor; auto.
    + intros j c' Hj Hc'.
      destruct (decide (j = i)) as [->|Hne]; [|right; apply (Hvis j); [lia|done]].
      assert (i < length (subscribers (controller s))) as Hlt
        by (eapply lookup_lt_Some; eauto).
      destruct Hev0 as [Hl0 Hk0]. destruct Hev as [Hl1 Hk1].
      apply Hk1 in Hc'; [|lia]. apply Hk0 in Hc'; [|lia].
      rewrite Hi in Hc'. injection Hc' as ->. left.
  - intros H.
    pose proof (forEach_evolve fuel (S i) arg s) as Hev.
    rewrite H in Hev. simpl in Hev.
    destruct (IH _ _ H) as (new & Hcalls & Hargs & Hvis).
    exists new. split; [done|split; [done|]].
    intros j c' Hj Hc'.
    destruct (decide (j = i)) as [->|Hne]; [|apply (Hvis j); [lia|done]].
    assert (i < length (subscribers (controller s))) as Hlt
      by (eapply lookup_lt_Some; eauto).
    destruct Hev as [Hl1 Hk1]. apply Hk1 in Hc'; [|lia]. congruence.
  - intros [= <-]. exists []. split; [now rewrite app_nil_r|split; [constructor|]].
    intros j c' Hj Hc'. apply lookup_ge_None in Hi.
    apply lookup_lt_Some in Hc'. lia.
Qed.

(** When no member changes the membership, the loop has fuel enough as soon
    as it has more than there are slots, and it calls the members in order. *)
Lemma forEach_keeps fuel i arg s :
  (∀ c, Some c ∈ subscribers (controller s) → keeps_membership host c) →
  length (subscribers (controller s)) - i < fuel →
  forEach fuel i (deliver arg) s
  = Returned tt
      (set_console
         (console (globals s)
            ++ omap (error_line host) (members (drop i (subscribers (controller s)))))
         (set_calls
            (calls (globals s)
               ++ ((λ c, (c, arg)) <$> members (drop i (subscribers (controller s)))))
            s)).
Proof.
  revert i s. induction fuel as [|fuel IH]; intros i s Hk Hf; [lia|].
  rewrite forEach_step.
  destruct (subscribers (controller s) !! i) as [[c|]|] eqn:Hi.
  - assert (keeps_membership host c) as Hc
      by (apply Hk; eapply list_elem_of_lookup_2; eauto).
    rewrite (delivered_keeps _ _ _ Hc).
    rewrite IH.
    + erewrite (drop_S _ _ i) by (destruct_state s; exact Hi).
      destruct_state s. unfold members. simpl.
      rewrite <- !app_assoc. simpl.
      destruct (error_line host c); reflexivity.
    + destruct_state s. exact Hk.
    + apply lookup_lt_Some in Hi. destruct_state s. simpl in *. lia.
  - rewrite IH; [|done|apply lookup_lt_Some in Hi; lia].
    erewrite (drop_S _ _ i) by exact Hi. reflexivity.
  - apply lookup_ge_None in Hi. rewrite drop_ge by lia.
    destruct_state s. simpl. now rewrite !app_nil_r.
Qed.

Lemma delivered_calls arg c s :
  calls (globals (delivered host arg c s)) = calls (globals s) ++ [(c, arg)].
Proof. destruct (delivered_state arg c s) as (d & l & -> & _ & _). reflexivity. Qed.

(** *** Callbacks that are not members *)

Lemma not_member_add b c (d : SetData) : c ≠ b → Some b ∉ d → Some b ∉ set_add c d.
Proof.
  intros Hne Hb. unfold set_add. destruct (set_has d c); [exact Hb|].
  rewrite elem_of_app, list_elem_of_singleton. intros [H|[= H]]; [now apply Hb | congruence].
Qed.

Lemma not_member_delete b c (d : SetData) : Some b ∉ d → Some b ∉ set_delete c d.
Proof.
  intros Hb. unfold set_delete. rewrite list_elem_of_fmap. intros (e & He & Hin).
  destruct (decide (e = Some c)); [discriminate|]. subst e. now apply Hb.
Qed.

Lemma not_member_run_steps b body s :
  Subscribe b ∉ body →
  Some b ∉ subscribers (controller s) →
  Some b ∉ subscribers (controller (run_steps body s).2).
Proof.
  revert s. induction body as [|[c|c|v] body IH]; intros s Hbody Hb; simpl; auto.
  - apply IH; [intros H; apply Hbody; now right|].
    destruct_state s. simpl in *. apply not_member_add; [|exact Hb].
    intros ->. apply Hbody. now left.
  - apply IH; [intros H; apply Hbody; now right|].
    destruct_state s. simpl in *. now apply not_member_delete.
Qed.

Lemma not_member_delivered b arg c s :
  Subscribe b ∉ behaviour host c →
  Some b ∉ subscribers (controller s) →
  Some b ∉ subscribers (controller (delivered host arg c s)).
Proof.
  intros Hbody Hb. unfold delivered.
  pose proof (not_member_run_steps b (behaviour host c)
                (set_calls (calls (globals s) ++ [(c, arg)]) s) Hbody) as H.
  destruct (run_steps _ _) as [[v|] s2]; simpl in *;
    [destruct_state s2|]; apply H; destruct_state s; exact Hb.
Qed.

(** A callback that is not in the set, and that no callback subscribes, is
    not called in what is left of the round. *)
Lemma forEach_not_member fuel i arg s b :
  (∀ c, Subscribe b ∉ behaviour host c) →
  Some b ∉ subscribers (controller s) →
  ∃ new,
    calls (globals (state_of (forEach fuel i (deliver arg) s))) = calls (globals s) ++ new
    ∧ ∀ p, p ∈ new → p.1 ≠ b.
Proof.
  intros Hno. revert i s. induction fuel as [|fuel IH]; intros i s Hb.
  - exists []. split; [simpl; now rewrite app_nil_r | intros p Hp; inversion Hp].
  - rewrite forEach_step.
    destruct (subscribers (controller s) !! i) as [[c|]|] eqn:Hi.
    + assert (c ≠ b) as Hne
        by (intros ->; apply Hb; eapply list_elem_of_lookup_2; eauto).
      destruct (IH (S i) (delivered host arg c s)
                  (not_member_delivered b arg c s (Hno c) Hb)) as (new & Hcalls & Hnew).
      rewrite delivered_calls in Hcalls.
      exists ((c, arg) :: new). split.
      * rewrite Hcalls. now rewrite <- app_assoc.
      * intros p [->|Hp]%elem_of_cons; [exact Hne | now apply Hnew].
    + apply IH, Hb.
    + exists []. split; [simpl; now rewrite app_nil_r | intros p Hp; inversion Hp].
Qed.

(** *** [notifySubscribers] *)

Lemma globals_erased s s' :
  observers_erased s' = observers_erased s →
  globalDate (globals s') = globalDate (globals s) ∧ hijacker s' = hijacker s.
Proof. intros H. rewrite (erased_inv _ _ H). destruct_state s. auto. Qed.

Lemma native_erased s s' : observers_erased s' = observers_erased s → native s → native s'.
Proof. unfold native. intros H. now rewrite (proj1 (globals_erased _ _ H)). Qed.

Lemma intercepted_erased s s' :
  observers_erased s' = observers_erased s → intercepted s → intercepted s'.
Proof. unfold intercepted. intros H. now rewrite (proj1 (globals_erased _ _ H)). Qed.

Lemma virtual_instant_erased s s' :
  observers_erased s' = observers_erased s → virtual_instant s' = virtual_instant s.
Proof. intros H. rewrite (erased_inv _ _ H). destruct_state s. reflexivity. Qed.

(** With the platform's own [Date] the round starts. *)
Lemma notifySubscribers_native fuel s :
  native s →
  notifySubscribers host fuel s = forEach fuel 0 (deliver (virtual_instant s)) s.
Proof.
  intros N. unfold notifySubscribers. unfold mbind at 1, M_bind at 1.
  now rewrite (getCurrentTime_native host s N).
Qed.

(** While [Date] is intercepted it does not: [getCurrentTime ()] throws
    before any callback is called. *)
Lemma notifySubscribers_intercepted fuel s :
  intercepted s → notifySubscribers host fuel s = Thrown not_a_constructor s.
Proof.
  intros I. unfold notifySubscribers. unfold mbind at 1, M_bind at 1.
  now rewrite (getCurrentTime_intercepted host s I).
Qed.

Lemma notifySubscribers_thrown fuel s e s' :
  notifySubscribers host fuel s = Thrown e s' →
  intercepted s ∧ e = not_a_constructor ∧ s' = s.
Proof.
  destruct (native_or_intercepted s) as [N|I].
  - rewrite (notifySubscribers_native fuel s N). intros H.
    exfalso. eapply forEach_not_thrown; eauto.
  - rewrite (notifySubscribers_intercepted fuel s I). now intros [= <- <-].
Qed.

Lemma notifySubscribers_returned fuel s s' :
  notifySubscribers host fuel s = Returned tt s' → native s.
Proof.
  destruct (native_or_intercepted s) as [N|I]; [done|].
  now rewrite (notifySubscribers_intercepted fuel s I).
Qed.

Lemma notifySubscribers_erased fuel s :
  observers_erased (state_of (notifySubscribers host fuel s)) = observers_erased s.
Proof.
  destruct (native_or_intercepted s) as [N|I].
  - rewrite (notifySubscribers_native fuel s N). apply forEach_erased.
  - now rewrite (notifySubscribers_intercepted fuel s I).
Qed.

Lemma calls_since_app s s' new :
  calls (globals s') = calls (globals s) ++ new → calls_since s s' = new.
Proof. unfold calls_since. intros ->. apply drop_app_length. Qed.

Lemma console_since_app s s' new :
  console (globals s') = console (globals s) ++ new → console_since s s' = new.
Proof. unfold console_since. intros ->. apply drop_app_length. Qed.

Lemma calls_since_same s : calls_since s s = [].
Proof. unfold calls_since. apply drop_all. Qed.

Lemma elem_of_members c (d : SetData) : c ∈ members d ↔ Some c ∈ d.
Proof.
  unfold members. rewrite list_elem_of_omap. split.
  - intros (e & He & Hid). simpl in Hid. now subst e.
  - intros H. now exists (Some c).
Qed.

Lemma notifySubscribers_visits fuel s s' c :
  notifySubscribers host fuel s = Returned tt s' →
  c ∈ members (subscribers (controller s')) →
  (c, virtual_instant s) ∈ calls_since s s'.
Proof.
  intros H Hc. pose proof (notifySubscribers_returned _ _ _ H) as N.
  rewrite (notifySubscribers_native fuel s N) in H.
  destruct (forEach_visits _ _ _ _ _ H) as (new & Hcalls & _ & Hvis).
  rewrite (calls_since_app _ _ _ Hcalls).
  apply elem_of_members, list_elem_of_lookup in Hc as [j Hj].
  apply (Hvis j); [lia | done].
Qed.


Lemma membership_kept_spec (d : SetData) :
  membership_kept host d = true → ∀ c, Some c ∈ d → keeps_membership host c.
Proof.
  unfold membership_kept, keeps_membership. intros H c Hc.
  apply elem_of_members in Hc. rewrite forallb_forall in H.
  apply list_elem_of_In in Hc. specialize (H c Hc).
  rewrite forallb_forall in H. apply List.Forall_forall. intros st Hst.
  specialize (H st Hst). now destruct (changes_membership st).
Qed.

Lemma notifySubscribers_keeps fuel s :
  native s →
  membership_kept host (subscribers (controller s)) = true →
  length (subscribers (controller s)) < fuel →
  notifySubscribers host fuel s
  = Returned tt
      (set_console
         (console (globals s) ++ omap (error_line host) (members (subscribers (controller s))))
         (set_calls
            (calls (globals s)
               ++ ((λ c, (c, virtual_instant s)) <$> members (subscribers (controller s))))
            s)).
Proof.
  intros N Hk Hf. rewrite (notifySubscribers_native fuel s N).
  rewrite forEach_keeps; [reflexivity | now apply membership_kept_spec | lia].
Qed.

End Rounds.

(** ** The hijacker *)

Section HijackerReturns.

Lemma always_returns_bind (m : M unit) (k : unit → M unit) :
  always_returns m → (∀ a, always_returns (k a)) → always_returns (m ≫= k).
Proof.
  intros Hm Hk s. unfold mbind, M_bind. rewrite (Hm s). destruct (state_of (m s)) eqn:E.
  rewrite <- E. apply Hk.
Qed.

Lemma always_returns_never_throws m : always_returns m → never_throws m.
Proof. intros H s e s' Hs. rewrite (H s) in Hs. discriminate. Qed.

Lemma never_throws_bind (m : M unit) (k : unit → M unit) :
  never_throws m → (∀ a, never_throws (k a)) → never_throws (m ≫= k).
Proof.
  intros Hm Hk s e s'. unfold mbind, M_bind.
  destruct (m s) as [a s1|e1 s1|s1] eqn:E; [apply Hk | | discriminate].
  exfalso. eapply Hm; eauto.
Qed.

Lemma always_returns_modify f : always_returns (modify f).
Proof. intros s. reflexivity. Qed.

Lemma always_returns_when b m : always_returns m → always_returns (when b m).
Proof. intros H. destruct b; [exact H | intros s; reflexivity]. Qed.

Lemma hijackNativeFunctions_returns : always_returns hijackNativeFunctions.
Proof. intros s. unfold hijackNativeFunctions. destruct (isHijacked _); reflexivity. Qed.

Lemma restoreNativeFunctions_returns : always_returns restoreNativeFunctions.
Proof.
  intros s. unfold restoreNativeFunctions.
  destruct (isHijacked (hijacker s)), (backup (hijacker s)); reflexivity.
Qed.

Lemma hijackMoment_returns : always_returns hijackMoment.
Proof.
  intros s. unfold hijackMoment.
  destruct (find_moment s); [|reflexivity]. destruct (moment_now _); reflexivity.
Qed.

Lemma restoreMoment_returns : always_returns restoreMoment.
Proof.
  intros s. unfold restoreMoment.
  destruct (moment_global _); [|reflexivity].
  destruct (moment_now _) as [now|]; [|reflexivity].
  destruct (get_original _ now); reflexivity.
Qed.

Lemma hijackDayjs_returns : always_returns hijackDayjs.
Proof.
  intros s. unfold hijackDayjs.
  destruct (find_dayjs s); [|reflexivity]. simpl.
  destruct (dayjs_global _); reflexivity.
Qed.

Lemma restoreDayjs_returns : always_returns restoreDayjs.
Proof.
  intros s. unfold restoreDayjs.
  destruct (dayjs_global _) as [f|]; [|reflexivity].
  destruct (get_original _ f); reflexivity.
Qed.

Lemma hijackLibraries_returns : always_returns hijackLibraries.
Proof.
  unfold hijackLibraries.
  apply always_returns_bind; [apply hijackMoment_returns|intros _].
  apply always_returns_bind; [apply hijackDayjs_returns|intros _].
  intros s; reflexivity.
Qed.

Lemma restoreLibraries_returns : always_returns restoreLibraries.
Proof.
  unfold restoreLibraries.
  apply always_returns_bind; [apply restoreMoment_returns|intros _].
  apply always_returns_bind; [apply restoreDayjs_returns|intros _].
  intros s; reflexivity.
Qed.

Lemma Hijacker_destroy_returns : always_returns Hijacker_destroy.
Proof.
  unfold Hijacker_destroy.
  apply always_returns_bind; [apply restoreNativeFunctions_returns|intros _].
  apply always_returns_bind; [apply restoreLibraries_returns|intros _].
  apply always_returns_modify.
Qed.

End HijackerReturns.

(** ** The mutators *)

Section Mutators.

Variable host : Host.

Lemma bind_unfold {A B} (m : M A) (k : A → M B) s :
  (m ≫= k) s
  = match m s with
    | Returned a s1 => k a s1
    | Thrown e s1 => Thrown e s1
    | Diverged s1 => Diverged s1
    end.
Proof. reflexivity. Qed.

Lemma state_of_bind {A B} (m : M A) (k : A → M B) s :
  state_of ((m ≫= k) s)
  = match m s with
    | Returned a s1 => state_of (k a s1)
    | Thrown _ s1 | Diverged s1 => s1
    end.
Proof. unfold mbind, M_bind. destruct (m s); reflexivity. Qed.

Lemma erased_bind {A B} (m : M A) (k : A → M B) s :
  observers_erased (state_of (m s)) = observers_erased s →
  (∀ a s1, observers_erased (state_of (k a s1)) = observers_erased s1) →
  observers_erased (state_of ((m ≫= k) s)) = observers_erased s.
Proof.
  intros Hm Hk. rewrite state_of_bind.
  destruct (m s) as [a s1|e s1|s1]; simpl in *; [rewrite Hk|..]; exact Hm.
Qed.

(** [this.options.onTimeChange (this.getCurrentTime ())] with the platform's
    own [Date]. *)
Lemma call_onTimeChange_native s :
  native s →
  call_onTimeChange host s
  = match options_onTimeChange (options (controller s)) with
    | Some (Handler h) => call host h (virtual_instant s) s
    | Some NoHandler => Returned tt s
    | None => Thrown not_a_function s
    end.
Proof.
  intros N. unfold call_onTimeChange. rewrite bind_unfold. unfold gets.
  rewrite bind_unfold, (getCurrentTime_native host s N).
  destruct (options_onTimeChange _) as [[|h]|]; reflexivity.
Qed.

Lemma call_onTimeChange_intercepted s :
  intercepted s → call_onTimeChange host s = Thrown not_a_constructor s.
Proof.
  intros I. unfold call_onTimeChange. rewrite bind_unfold. unfold gets.
  now rewrite bind_unfold, (getCurrentTime_intercepted host s I).
Qed.

Lemma erased_call_onTimeChange s :
  observers_erased (state_of (call_onTimeChange host s)) = observers_erased s.
Proof.
  destruct (native_or_intercepted s) as [N|I].
  - rewrite (call_onTimeChange_native s N).
    destruct (options_onTimeChange _) as [[|h]|]; [reflexivity | apply erased_call | reflexivity].
  - now rewrite (call_onTimeChange_intercepted s I).
Qed.

(** What [setTime] and [addTime] do once the new instant is stored. *)
Local Abbreviation announce fuel :=
  (notifySubscribers host fuel ≫= λ _, call_onTimeChange host).

Lemma erased_announce fuel s :
  observers_erased (state_of (announce fuel s)) = observers_erased s.
Proof.
  apply erased_bind; [apply notifySubscribers_erased|].
  intros _ s1. apply erased_call_onTimeChange.
Qed.

(** [new Date (arg)], with [Date] looked up in the global scope. *)
Lemma new_Date_native arg s :
  native s →
  construct host (globalDate (globals s)) arg s = Returned (native_construct host arg) s.
Proof. unfold native. now intros ->. Qed.

Lemma new_Date_intercepted arg s :
  intercepted s →
  construct host (globalDate (globals s)) arg s = Thrown not_a_constructor s.
Proof. unfold intercepted. now destruct (globalDate (globals s)). Qed.

(** While [Date] is intercepted, [setTime] throws at [new Date (time)] and
    changes nothing. *)
Lemma setTime_intercepted fuel time s :
  intercepted s → setTime host fuel time s = Thrown not_a_constructor s.
Proof.
  intros I. unfold setTime. rewrite bind_unfold. cbv beta.
  now rewrite (new_Date_intercepted _ _ I).
Qed.

Lemma setTime_invalid fuel time s :
  native s →
  native_construct host time = InvalidDate →
  setTime host fuel time s = Thrown (Error "Invalid time provided to setTime") s.
Proof.
  intros N E. unfold setTime. rewrite bind_unfold. cbv beta.
  now rewrite (new_Date_native _ _ N), E.
Qed.

Lemma setTime_valid fuel time s t :
  native s →
  native_construct host time = DateAt t →
  setTime host fuel time s = announce fuel (set_currentTime (DateAt t) s).
Proof.
  intros N E. unfold setTime. rewrite bind_unfold. cbv beta.
  now rewrite (new_Date_native _ _ N), E.
Qed.

Lemma addTime_NaN fuel s :
  addTime host fuel NaN s = Thrown (Error "Invalid milliseconds provided to addTime") s.
Proof. reflexivity. Qed.

Lemma addTime_intercepted fuel ms s :
  isNaN ms = false → intercepted s →
  addTime host fuel ms s = Thrown not_a_constructor s.
Proof.
  intros E I. unfold addTime. rewrite E, bind_unfold. cbv beta.
  now rewrite (new_Date_intercepted _ _ I).
Qed.

Lemma addTime_number fuel ms s :
  isNaN ms = false → native s →
  addTime host fuel ms s
  = announce fuel
      (set_currentTime
         (TimeClip (num_add (getTime (currentTime (controller s))) ms)) s).
Proof.
  intros E N. unfold addTime. rewrite E, bind_unfold. cbv beta.
  now rewrite (new_Date_native _ _ N).
Qed.

Lemma currentTime_erased s s' :
  observers_erased s' = observers_erased s →
  currentTime (controller s') = currentTime (controller s).
Proof. intros H. rewrite (erased_inv _ _ H). destruct_state s. reflexivity. Qed.

Lemma currentTime_set_currentTime d s : currentTime (controller (set_currentTime d s)) = d.
Proof. destruct_state s. reflexivity. Qed.

Lemma native_set_currentTime d s : native s → native (set_currentTime d s).
Proof. destruct_state s. auto. Qed.

(** The instant [addTime] leaves, however the call ends. *)
Lemma addTime_currentTime fuel ms s :
  isNaN ms = false → native s →
  currentTime (controller (state_of (addTime host fuel ms s)))
  = TimeClip (num_add (getTime (currentTime (controller s))) ms).
Proof.
  intros H N. rewrite (addTime_number _ _ _ H N).
  rewrite (currentTime_erased _ _ (erased_announce fuel _)).
  apply currentTime_set_currentTime.
Qed.

Lemma call_calls c arg s :
  calls (globals (state_of (call host c arg s))) = calls (globals s) ++ [(c, arg)].
Proof.
  unfold call.
  pose proof (run_steps_state (behaviour host c)
                (set_calls (calls (globals s) ++ [(c, arg)]) s)) as H.
  destruct (run_steps _ _) as [[v|] s2]; simpl in *; rewrite H;
    destruct_state s; reflexivity.
Qed.

Lemma call_result c arg s :
  call host c arg s
  = match first_throw (behaviour host c) with
    | Some v => Thrown (Raised v) (state_of (call host c arg s))
    | None => Returned tt (state_of (call host c arg s))
    end.
Proof.
  unfold call.
  pose proof (run_steps_throw (behaviour host c)
                (set_calls (calls (globals s) ++ [(c, arg)]) s)) as H.
  destruct (run_steps _ _) as [[v|] s2]; simpl in *; rewrite <- H; reflexivity.
Qed.

(** What [announce] throws: the [TypeError] of [getCurrentTime ()], before
    anybody is called, or what the call of [onTimeChange] threw, after the
    round had returned. *)
Lemma announce_thrown fuel s e s' :
  announce fuel s = Thrown e s' →
  (intercepted s ∧ e = not_a_constructor ∧ s' = s)
  ∨ ∃ s1, notifySubscribers host fuel s = Returned tt s1
          ∧ call_onTimeChange host s1 = Thrown e s'.
Proof.
  rewrite bind_unfold.
  destruct (notifySubscribers host fuel s) as [[] s1|e1 s1|s1] eqn:N.
  - intros H. right. now exists s1.
  - intros [= <- <-]. left. now apply notifySubscribers_thrown in N.
  - discriminate.
Qed.

Lemma setTime_thrown fuel time s e s' :
  setTime host fuel time s = Thrown e s' →
  (intercepted s ∧ e = not_a_constructor ∧ s' = s)
  ∨ (e = Error "Invalid time provided to setTime" ∧ s' = s)
  ∨ ∃ t s1, notifySubscribers host fuel (set_currentTime (DateAt t) s) = Returned tt s1
            ∧ call_onTimeChange host s1 = Thrown e s'.
Proof.
  destruct (native_or_intercepted s) as [N|I].
  - destruct (native_construct host time) as [|t] eqn:E.
    + rewrite (setTime_invalid _ _ _ N E). intros [= <- <-]. auto.
    + rewrite (setTime_valid _ _ _ _ N E). intros H. right. right. exists t.
      apply announce_thrown in H as [(I & _)|H]; [|exact H].
      exfalso. eapply native_not_intercepted; [|exact I]. now apply native_set_currentTime.
  - rewrite (setTime_intercepted _ _ _ I). intros [= <- <-]. auto.
Qed.

Lemma addTime_thrown fuel ms s e s' :
  addTime host fuel ms s = Thrown e s' →
  (intercepted s ∧ e = not_a_constructor ∧ s' = s)
  ∨ (e = Error "Invalid milliseconds provided to addTime" ∧ s' = s)
  ∨ ∃ d s1, notifySubscribers host fuel (set_currentTime d s) = Returned tt s1
            ∧ call_onTimeChange host s1 = Thrown e s'.
Proof.
  destruct (isNaN ms) eqn:E.
  - destruct ms; try discriminate. rewrite addTime_NaN. intros [= <- <-]. auto.
  - destruct (native_or_intercepted s) as [N|I].
    + rewrite (addTime_number _ _ _ E N). intros H. right. right.
      apply announce_thrown in H as [(I & _)|H]; [|eauto].
      exfalso. eapply native_not_intercepted; [|exact I]. now apply native_set_currentTime.
    + rewrite (addTime_intercepted _ _ _ E I). intros [= <- <-]. auto.
Qed.

(** What the call of [onTimeChange] throws is no validation error. *)
Lemma call_onTimeChange_thrown s e s' :
  call_onTimeChange host s = Thrown e s' →
  e = not_a_constructor ∨ e = not_a_function ∨ ∃ v, e = Raised v.
Proof.
  destruct (native_or_intercepted s) as [N|I].
  - rewrite (call_onTimeChange_native s N).
    destruct (options_onTimeChange _) as [[|h]|]; [discriminate| |intros [= <- _]; auto].
    rewrite call_result. destruct (first_throw _) as [v|]; [|discriminate].
    intros [= <- _]. eauto.
  - rewrite (call_onTimeChange_intercepted s I). intros [= <- _]. auto.
Qed.

(** [addTime] raises its validation error for [NaN], and for [NaN] only. *)
Lemma addTime_validation fuel ms s :
  addTime host fuel ms s = Thrown (Error "Invalid milliseconds provided to addTime") s
  ↔ ms = NaN.
Proof.
  split; [|intros ->; apply addTime_NaN].
  destruct (isNaN ms) eqn:E; [now destruct ms|].
  destruct (native_or_intercepted s) as [N|I].
  - rewrite (addTime_number _ _ _ E N). intros H.
    apply announce_thrown in H as [(_ & H & _)|(s1 & _ & H)]; [discriminate|].
    apply call_onTimeChange_thrown in H as [H|[H|[v H]]]; discriminate.
  - rewrite (addTime_intercepted _ _ _ E I). discriminate.
Qed.

(** The calls of a [setTime] whose round no member disturbs: every
    subscriber is called with the new instant, then [onTimeChange]. *)
Lemma setTime_calls fuel time s t :
  native s →
  native_construct host time = DateAt t →
  membership_kept host (subscribers (controller s)) = true →
  (length (subscribers (controller s)) < fuel)%nat →
  calls_since s (state_of (setTime host fuel time s))
  = ((λ c, (c, DateAt t)) <$> members (subscribers (controller s)))
      ++ option_list ((λ h, (h, DateAt t))
                        <$> host_handler (options_onTimeChange (options (controller s)))).
Proof.
  intros N E Hk Hf. rewrite (setTime_valid _ _ _ _ N E).
  pose proof (native_construct_in_range _ _ _ E) as Hr.
  pose proof (native_set_currentTime (DateAt t) s N) as N1.
  rewrite bind_unfold.
  rewrite notifySubscribers_keeps by (try exact N1; destruct_state s; assumption).
  rewrite (virtual_instant_valid (set_currentTime (DateAt t) s) t)
    by (destruct_state s; auto).
  rewrite call_onTimeChange_native by (destruct_state s; exact N).
  rewrite (virtual_instant_valid _ t) by (destruct_state s; auto).
  match goal with |- context [options_onTimeChange ?o] =>
    replace o with (options (controller s)) by (destruct_state s; reflexivity) end.
  destruct (options_onTimeChange (options (controller s))) as [[|h]|]; simpl.
  - apply calls_since_app. destruct_state s. simpl. now rewrite app_nil_r.
  - apply calls_since_app. rewrite call_calls.
    destruct_state s. simpl. now rewrite <- app_assoc.
  - apply calls_since_app. destruct_state s. simpl. now rewrite app_nil_r.
Qed.

End Mutators.

(** ** Activation *)

Section Activation.

Variable host : Host.

Lemma preserves_policy_bind {A B} (m : M A) (k : A → M B) :
  preserves_policy m → (∀ a, preserves_policy (k a)) → preserves_policy (m ≫= k).
Proof.
  intros Hm Hk s. rewrite state_of_bind. specialize (Hm s).
  destruct (m s) as [a s1|e s1|s1]; simpl in *; [rewrite Hk|..]; exact Hm.
Qed.

Lemma preserves_policy_when b m : preserves_policy m → preserves_policy (when b m).
Proof. intros H. destruct b; [exact H | intros s; reflexivity]. Qed.

Lemma erased_policy s s' : observers_erased s' = observers_erased s → policy s' = policy s.
Proof. intros H. rewrite (erased_inv _ _ H). destruct_state s. reflexivity. Qed.

Lemma policy_set_currentTime d s : policy (set_currentTime d s) = policy s.
Proof. destruct_state s; reflexivity. Qed.

Lemma preserves_policy_notifySubscribers fuel :
  preserves_policy (notifySubscribers host fuel).
Proof. intros s. apply erased_policy, notifySubscribers_erased. Qed.

Lemma preserves_policy_call c arg : preserves_policy (call host c arg).
Proof. intros s. apply erased_policy, erased_call. Qed.

Lemma set_currentTime_same s : set_currentTime (currentTime (controller s)) s = s.
Proof. destruct_state s; reflexivity. Qed.

(** [setTime] changes the instant and what a round changes, nothing else. *)
Lemma setTime_frame fuel time s :
  ∃ d, observers_erased (state_of (setTime host fuel time s))
       = observers_erased (set_currentTime d s).
Proof.
  destruct (native_or_intercepted s) as [N|I].
  - destruct (native_construct host time) as [|t] eqn:E.
    + exists (currentTime (controller s)).
      now rewrite (setTime_invalid _ _ _ _ N E), set_currentTime_same.
    + exists (DateAt t). rewrite (setTime_valid _ _ _ _ _ N E). apply erased_announce.
  - exists (currentTime (controller s)).
    now rewrite (setTime_intercepted _ _ _ _ I), set_currentTime_same.
Qed.

Lemma addTime_frame fuel ms s :
  ∃ d, observers_erased (state_of (addTime host fuel ms s))
       = observers_erased (set_currentTime d s).
Proof.
  destruct (isNaN ms) eqn:E.
  - exists (currentTime (controller s)). destruct ms; try discriminate.
    now rewrite addTime_NaN, set_currentTime_same.
  - destruct (native_or_intercepted s) as [N|I].
    + eexists. rewrite (addTime_number _ _ _ _ E N). apply erased_announce.
    + exists (currentTime (controller s)).
      now rewrite (addTime_intercepted _ _ _ _ E I), set_currentTime_same.
Qed.

Lemma construct_now_state s :
  state_of (construct_now host (globalDate (globals s)) s) = s.
Proof.
  destruct (globalDate (globals s)) eqn:D; [reflexivity|].
  simpl. rewrite state_of_bind.
  pose proof (getCurrentTime_state host s) as H.
  destruct (getCurrentTime host s); simpl in *; now subst.
Qed.

Lemma resetToRealTime_frame fuel s :
  ∃ d, observers_erased (state_of (resetToRealTime host fuel s))
       = observers_erased (set_currentTime d s).
Proof.
  unfold resetToRealTime. rewrite state_of_bind. cbv beta.
  pose proof (construct_now_state s) as H.
  destruct (construct_now host (globalDate (globals s)) s) as [now s1|e s1|s1];
    simpl in H; subst s1.
  - apply setTime_frame.
  - exists (currentTime (controller s)). now rewrite set_currentTime_same.
  - exists (currentTime (controller s)). now rewrite set_currentTime_same.
Qed.

Lemma preserves_policy_setTime fuel time : preserves_policy (setTime host fuel time).
Proof.
  intros s. destruct (setTime_frame fuel time s) as [d H].
  rewrite (erased_policy _ _ H). apply policy_set_currentTime.
Qed.

Lemma preserves_policy_addTime fuel ms : preserves_policy (addTime host fuel ms).
Proof.
  intros s. destruct (addTime_frame fuel ms s) as [d H].
  rewrite (erased_policy _ _ H). apply policy_set_currentTime.
Qed.

Lemma preserves_policy_resetToRealTime fuel : preserves_policy (resetToRealTime host fuel).
Proof.
  intros s. destruct (resetToRealTime_frame fuel s) as [d H].
  rewrite (erased_policy _ _ H). apply policy_set_currentTime.
Qed.

(** The hijacker does not touch the controller. *)
Lemma controller_hijackNativeFunctions s :
  controller (state_of (hijackNativeFunctions s)) = controller s.
Proof. unfold hijackNativeFunctions. destruct (isHijacked (hijacker s)); reflexivity. Qed.

Lemma controller_restoreNativeFunctions s :
  controller (state_of (restoreNativeFunctions s)) = controller s.
Proof.
  unfold restoreNativeFunctions.
  destruct (isHijacked (hijacker s)), (backup (hijacker s)); reflexivity.
Qed.

Lemma controller_hijackMoment s : controller (state_of (hijackMoment s)) = controller s.
Proof.
  unfold hijackMoment. destruct (find_moment s); [|reflexivity].
  destruct (moment_now (globals s)); reflexivity.
Qed.

Lemma controller_restoreMoment s : controller (state_of (restoreMoment s)) = controller s.
Proof.
  unfold restoreMoment. destruct (moment_global (globals s)); [|reflexivity].
  destruct (moment_now (globals s)) as [now|]; [|reflexivity].
  destruct (get_original _ now) as [o|]; [|reflexivity].
  unfold delete_original. destruct (stamp_of o); reflexivity.
Qed.

Lemma controller_hijackDayjs s : controller (state_of (hijackDayjs s)) = controller s.
Proof.
  unfold hijackDayjs. destruct (find_dayjs s); [|reflexivity]. simpl.
  destruct (dayjs_global (globals s)); reflexivity.
Qed.

Lemma controller_restoreDayjs s : controller (state_of (restoreDayjs s)) = controller s.
Proof.
  unfold restoreDayjs. destruct (dayjs_global (globals s)) as [f|]; [|reflexivity].
  destruct (get_original _ f); reflexivity.
Qed.



Lemma controller_policy {A} (m : M A) :
  (∀ s, controller (state_of (m s)) = controller s) → preserves_policy m.
Proof. intros H s. unfold policy. now rewrite H. Qed.

Lemma preserves_policy_hijackNativeFunctions : preserves_policy hijackNativeFunctions.
Proof. apply controller_policy, controller_hijackNativeFunctions. Qed.

Lemma preserves_policy_restoreNativeFunctions : preserves_policy restoreNativeFunctions.
Proof. apply controller_policy, controller_restoreNativeFunctions. Qed.

Lemma preserves_policy_hijackLibraries : preserves_policy hijackLibraries.
Proof.
  unfold hijackLibraries.
  apply preserves_policy_bind; [apply controller_policy, controller_hijackMoment|intros _].
  apply preserves_policy_bind; [apply controller_policy, controller_hijackDayjs|intros _].
  intros s; reflexivity.
Qed.

Lemma preserves_policy_restoreLibraries : preserves_policy restoreLibraries.
Proof.
  unfold restoreLibraries.
  apply preserves_policy_bind; [apply controller_policy, controller_restoreMoment|intros _].
  apply preserves_policy_bind; [apply controller_policy, controller_restoreDayjs|intros _].
  intros s; reflexivity.
Qed.

Lemma preserves_policy_Hijacker_destroy : preserves_policy Hijacker_destroy.
Proof.
  unfold Hijacker_destroy.
  apply preserves_policy_bind; [apply preserves_policy_restoreNativeFunctions|intros _].
  apply preserves_policy_bind; [apply preserves_policy_restoreLibraries|intros _].
  intros s. destruct_state s. reflexivity.
Qed.

(** What the policy function answers for a given environment. *)
Lemma shouldEnableTimeControl_Some sg env :
  shouldEnableTimeControl sg (Some env) = negb (bool_decide (env = production)).
Proof. destruct env; reflexivity. Qed.

(** [enable] where the policy refuses. *)
Lemma enable_refused fuel s :
  enabled (controller s) = false →
  options_environment (options (controller s)) = Some production →
  enable host fuel s = Returned tt (console_log warn policy_warning None s).
Proof. unfold enable. intros -> ->. reflexivity. Qed.

(** The activation state [enable] leaves, and the options. *)
Lemma policy_enable fuel s :
  policy (state_of (enable host fuel s))
  = (enabled (controller s)
     || shouldEnableTimeControl (signals (globals s))
          (options_environment (options (controller s))),
     options (controller s)).
Proof.
  unfold enable. destruct (enabled (controller s)) eqn:En.
  - unfold policy. simpl. now rewrite En.
  - destruct (shouldEnableTimeControl _ _) eqn:Ok; simpl.
    + match goal with |- policy (state_of (?m s)) = _ =>
        assert (preserves_policy
                  (hijackNativeFunctions ≫= λ _,
                   when (wants_libraries s) hijackLibraries
                     ≫= λ _, notifySubscribers host fuel)) as Hp end.
      { apply preserves_policy_bind; [apply preserves_policy_hijackNativeFunctions|intros _].
        apply preserves_policy_bind;
          [apply preserves_policy_when, preserves_policy_hijackLibraries|intros _].
        apply preserves_policy_notifySubscribers. }
      unfold mbind at 1, M_bind at 1, modify. rewrite Hp.
      destruct_state s. reflexivity.
    + unfold policy. destruct_state s. simpl in *. now rewrite En.
Qed.

Lemma policy_disable fuel s :
  policy (state_of (disable host fuel s)) = (false, options (controller s)).
Proof.
  unfold disable. destruct (enabled (controller s)) eqn:En; simpl.
  - assert (preserves_policy
              (restoreNativeFunctions ≫= λ _,
               restoreLibraries ≫= λ _, notifySubscribers host fuel)) as Hp.
    { apply preserves_policy_bind; [apply preserves_policy_restoreNativeFunctions|intros _].
      apply preserves_policy_bind; [apply preserves_policy_restoreLibraries|intros _].
      apply preserves_policy_notifySubscribers. }
    unfold mbind at 1, M_bind at 1, modify. rewrite Hp.
    destruct_state s. reflexivity.
  - unfold policy. now rewrite En.
Qed.

Lemma policy_updateOptions n s :
  policy (state_of (updateOptions host n s))
  = (enabled (controller s), merge_options (options (controller s)) n).
Proof.
  unfold updateOptions.
  match goal with |- policy (state_of (?m ?s1)) = _ =>
    assert (preserves_policy m) as Hp end.
  { apply preserves_policy_bind.
    - apply preserves_policy_when.
      destruct (wants_libraries _);
        [apply preserves_policy_hijackLibraries | apply preserves_policy_restoreLibraries].
    - intros _. destruct (opt_onTimeChange n) as [| |h]; [intros s2; reflexivity..|].
      apply preserves_policy_bind; [|intros d; apply preserves_policy_call].
      intros s2. now rewrite getCurrentTime_state. }
  rewrite Hp. destruct_state s. reflexivity.
Qed.

Lemma policy_destroy fuel s :
  policy (state_of (destroy host fuel s)) = (false, options (controller s)).
Proof.
  unfold destroy. rewrite state_of_bind.
  pose proof (policy_disable fuel s) as Hd.
  destruct (disable host fuel s) as [[] s1|e s1|s1]; simpl in Hd; try exact Hd.
  rewrite <- Hd.
  apply (preserves_policy_bind Hijacker_destroy); [apply preserves_policy_Hijacker_destroy|].
  intros _ s2. destruct_state s2. reflexivity.
Qed.

(** *** The hijack and the global [Date] *)

Lemma globalDate_hijackMoment s :
  globalDate (globals (state_of (hijackMoment s))) = globalDate (globals s).
Proof.
  unfold hijackMoment. destruct (find_moment s); [|reflexivity].
  destruct (moment_now (globals s)); reflexivity.
Qed.

Lemma globalDate_restoreMoment s :
  globalDate (globals (state_of (restoreMoment s))) = globalDate (globals s).
Proof.
  unfold restoreMoment. destruct (moment_global (globals s)); [|reflexivity].
  destruct (moment_now (globals s)) as [now|]; [|reflexivity].
  destruct (get_original _ now) as [o|]; [|reflexivity].
  unfold delete_original. destruct (stamp_of o); reflexivity.
Qed.

Lemma globalDate_hijackDayjs s :
  globalDate (globals (state_of (hijackDayjs s))) = globalDate (globals s).
Proof.
  unfold hijackDayjs. destruct (find_dayjs s); [|reflexivity]. simpl.
  destruct (dayjs_global (globals s)); reflexivity.
Qed.

Lemma globalDate_restoreDayjs s :
  globalDate (globals (state_of (restoreDayjs s))) = globalDate (globals s).
Proof.
  unfold restoreDayjs. destruct (dayjs_global (globals s)) as [f|]; [|reflexivity].
  destruct (get_original _ f); reflexivity.
Qed.

Lemma globalDate_hijackLibraries s :
  globalDate (globals (state_of (hijackLibraries s))) = globalDate (globals s).
Proof.
  unfold hijackLibraries. rewrite state_of_bind, (hijackMoment_returns s).
  rewrite state_of_bind, (hijackDayjs_returns _). simpl.
  now rewrite globalDate_hijackDayjs, globalDate_hijackMoment.
Qed.

Lemma globalDate_restoreLibraries s :
  globalDate (globals (state_of (restoreLibraries s))) = globalDate (globals s).
Proof.
  unfold restoreLibraries. rewrite state_of_bind, (restoreMoment_returns s).
  rewrite state_of_bind, (restoreDayjs_returns _). simpl.
  now rewrite globalDate_restoreDayjs, globalDate_restoreMoment.
Qed.

Lemma hijackNativeFunctions_intercepts s :
  isHijacked (hijacker s) = false → intercepted (state_of (hijackNativeFunctions s)).
Proof. unfold hijackNativeFunctions, intercepted. intros ->. simpl. exact I. Qed.

Lemma intercepted_activated s :
  isHijacked (hijacker s) = false → intercepted (activated s).
Proof.
  intros H. unfold activated, intercepted.
  assert (∀ b s', globalDate (globals (state_of (when b hijackLibraries s')))
                  = globalDate (globals s')) as Hw
    by (intros [] s'; [apply globalDate_hijackLibraries | reflexivity]).
  rewrite Hw. apply hijackNativeFunctions_intercepts. destruct_state s. exact H.
Qed.

Lemma enable_activated fuel s :
  enabled (controller s) = false →
  shouldEnableTimeControl (signals (globals s)) (options_environment (options (controller s)))
  = true →
  enable host fuel s = notifySubscribers host fuel (activated s).
Proof.
  intros En Ok. unfold enable. rewrite En, Ok. simpl.
  rewrite bind_unfold. unfold modify. rewrite bind_unfold, (hijackNativeFunctions_returns _).
  rewrite bind_unfold, (always_returns_when _ _ hijackLibraries_returns _).
  reflexivity.
Qed.

(** [enable], when it activates a controller whose hijacker is not
    installed, throws: the flag is set and the shims are installed, then
    the round asks for the instant through the [Date] just installed. *)
Lemma enable_throws fuel s :
  enabled (controller s) = false →
  shouldEnableTimeControl (signals (globals s)) (options_environment (options (controller s)))
  = true →
  isHijacked (hijacker s) = false →
  enable host fuel s = Thrown not_a_constructor (activated s).
Proof.
  intros En Ok Hj. rewrite (enable_activated _ _ En Ok).
  apply notifySubscribers_intercepted. now apply intercepted_activated.
Qed.

(** What [enable] and [disable] throw is the [TypeError] of the intercepted
    [Date], raised before any subscriber is called. *)
Lemma enable_thrown fuel s e s' :
  enable host fuel s = Thrown e s' →
  e = not_a_constructor ∧ s' = activated s ∧ intercepted s'.
Proof.
  unfold enable. destruct (enabled (controller s)) eqn:En; [discriminate|].
  destruct (shouldEnableTimeControl _ _) eqn:Ok; [|discriminate]. simpl.
  rewrite bind_unfold. unfold modify. rewrite bind_unfold, (hijackNativeFunctions_returns _).
  rewrite bind_unfold, (always_returns_when _ _ hijackLibraries_returns _).
  intros H. apply notifySubscribers_thrown in H as (I & -> & ->). auto.
Qed.

Lemma disable_deactivated fuel s :
  enabled (controller s) = true →
  disable host fuel s = notifySubscribers host fuel (deactivated s).
Proof.
  intros En. unfold disable. rewrite En. simpl.
  rewrite bind_unfold. unfold modify. rewrite bind_unfold, (restoreNativeFunctions_returns _).
  rewrite bind_unfold, (restoreLibraries_returns _). reflexivity.
Qed.

Lemma disable_thrown fuel s e s' :
  disable host fuel s = Thrown e s' →
  e = not_a_constructor ∧ s' = deactivated s ∧ intercepted s'.
Proof.
  unfold disable. destruct (enabled (controller s)) eqn:En; [|discriminate]. simpl.
  rewrite bind_unfold. unfold modify. rewrite bind_unfold, (restoreNativeFunctions_returns _).
  rewrite bind_unfold, (restoreLibraries_returns _).
  intros H. apply notifySubscribers_thrown in H as (I & -> & ->). auto.
Qed.

(** The hijacker calls nobody. *)
Lemma calls_activated s : calls (globals (activated s)) = calls (globals s).
Proof.
  unfold activated.
  assert (∀ s', calls (globals (state_of (hijackLibraries s'))) = calls (globals s')) as Hl.
  { intros s'. unfold hijackLibraries.
    rewrite state_of_bind, (hijackMoment_returns s').
    rewrite state_of_bind, (hijackDayjs_returns _). simpl.
    unfold hijackDayjs. destruct (find_dayjs _); simpl.
    - destruct (dayjs_global _); simpl;
        unfold hijackMoment; destruct (find_moment s'); try reflexivity;
        destruct (moment_now (globals s')); reflexivity.
    - unfold hijackMoment; destruct (find_moment s'); try reflexivity;
        destruct (moment_now (globals s')); reflexivity. }
  assert (calls (globals (state_of (hijackNativeFunctions (set_enabled true s))))
          = calls (globals s)) as Hn.
  { unfold hijackNativeFunctions.
    destruct (isHijacked (hijacker (set_enabled true s))); destruct_state s; reflexivity. }
  destruct (wants_libraries s); simpl; [rewrite Hl|]; exact Hn.
Qed.

Lemma calls_deactivated s : calls (globals (deactivated s)) = calls (globals s).
Proof.
  unfold deactivated.
  assert (∀ s', calls (globals (state_of (restoreLibraries s'))) = calls (globals s')) as Hl.
  { intros s'. unfold restoreLibraries.
    rewrite state_of_bind, (restoreMoment_returns s').
    rewrite state_of_bind, (restoreDayjs_returns _). simpl.
    assert (∀ s2, calls (globals (state_of (restoreDayjs s2))) = calls (globals s2)) as Hd.
    { intros s2. unfold restoreDayjs. destruct (dayjs_global _) as [f|]; [|reflexivity].
      destruct (get_original _ f); reflexivity. }
    rewrite Hd. unfold restoreMoment. destruct (moment_global _); [|reflexivity].
    destruct (moment_now _) as [now|]; [|reflexivity].
    destruct (get_original _ now) as [o|]; [|reflexivity].
    unfold delete_original. destruct (stamp_of o); reflexivity. }
  rewrite Hl. unfold restoreNativeFunctions.
  destruct (isHijacked (hijacker (set_enabled false s))),
    (backup (hijacker (set_enabled false s))); destruct_state s; reflexivity.
Qed.

(** *** Construction *)

Lemma preserves_policy_logEnvironmentInfo env b : preserves_policy (logEnvironmentInfo env b).
Proof.
  intros s. unfold logEnvironmentInfo.
  destruct (negb _ || negb _); [reflexivity|].
  destruct b; [destruct_state s; reflexivity|].
  destruct (getEnvironmentWarning env); destruct_state s; reflexivity.
Qed.

Lemma logEnvironmentInfo_returns env b : always_returns (logEnvironmentInfo env b).
Proof.
  intros s. unfold logEnvironmentInfo.
  destruct (negb _ || negb _); [reflexivity|].
  destruct b; [reflexivity|]. destruct (getEnvironmentWarning env); reflexivity.
Qed.

(** The state the constructor starts from, after the field initialisers. *)
Local Abbreviation initial_state p opts :=
  (State {| currentTime := DateAt (platform_clock p); enabled := false;
            subscribers := []; options := constructor_options p opts |}
         {| backup := None; isHijacked := false |}
         (pristine p)).

Lemma new_TimeControllerImpl_eq fuel p opts :
  new_TimeControllerImpl host fuel p opts
  = (setTime host fuel (constructor_startTime p opts) ≫= λ _,
     (λ s, when (default false (options_enabled (options (controller s))))
             (enable host fuel) s) ≫= λ _,
     ((λ s, logEnvironmentInfo (options_environment (options (controller s)))
              (enabled (controller s)) s) : M unit))
      (initial_state p opts).
Proof. reflexivity. Qed.

Lemma options_enabled_constructor p opts :
  options_enabled (constructor_options p opts) = Some (requested p opts).
Proof. reflexivity. Qed.

Lemma options_environment_constructor p opts :
  options_environment (constructor_options p opts) = Some (resolved_environment p opts).
Proof. reflexivity. Qed.

(** The activation state and the options the constructor leaves: activation
    was requested and the environment allows it, or the constructor did not
    get to [enable]. *)
Lemma constructor_policy fuel p opts :
  let o := constructor_options p opts in
  let allowed := negb (bool_decide (resolved_environment p opts = production)) in
  policy (state_of (new_TimeControllerImpl host fuel p opts))
    = (requested p opts && allowed, o)
  ∨ (policy (state_of (new_TimeControllerImpl host fuel p opts)) = (false, o)
     ∧ ∀ s, new_TimeControllerImpl host fuel p opts ≠ Returned tt s).
Proof.
  intros o allowed. rewrite new_TimeControllerImpl_eq.
  set (s0 := State _ _ _).
  pose proof (preserves_policy_setTime fuel (constructor_startTime p opts) s0) as H1.
  rewrite (bind_unfold (setTime host fuel (constructor_startTime p opts))).
  destruct (setTime host fuel (constructor_startTime p opts) s0) as [[] s1|e s1|s1];
    simpl in H1; [|right; split; [exact H1|discriminate]..].
  assert (options (controller s1) = o ∧ enabled (controller s1) = false) as [Ho En]
    by (unfold policy in H1; injection H1 as -> ->; auto).
  assert (policy (state_of (when (default false (options_enabled (options (controller s1))))
                              (enable host fuel) s1))
          = (requested p opts && allowed, o)) as H2.
  { rewrite Ho. unfold o at 1. rewrite options_enabled_constructor. simpl.
    destruct (requested p opts); simpl; [|exact H1].
    rewrite policy_enable, Ho, En. unfold o at 1.
    rewrite options_environment_constructor, shouldEnableTimeControl_Some. reflexivity. }
  rewrite bind_unfold. cbv beta.
  destruct (when _ (enable host fuel) s1) as [[] s2|e s2|s2];
    simpl in H2; [|now left..].
  left. rewrite preserves_policy_logEnvironmentInfo. exact H2.
Qed.

(** With no subscriber to call and no host function in [onTimeChange],
    [setTime] stores the instant and returns. *)
Lemma setTime_returns_empty fuel time s t :
  native s →
  subscribers (controller s) = [] →
  options_onTimeChange (options (controller s)) = Some NoHandler →
  native_construct host time = DateAt t →
  (0 < fuel)%nat →
  setTime host fuel time s = Returned tt (set_currentTime (DateAt t) s).
Proof.
  intros N Hs Ho E Hf. rewrite (setTime_valid _ _ _ _ _ N E). rewrite bind_unfold.
  pose proof (native_set_currentTime (DateAt t) s N) as N1.
  rewrite notifySubscribers_keeps.
  - rewrite call_onTimeChange_native by (destruct_state s; exact N).
    destruct_state s. simpl in *. subst.
    unfold members, set_console, set_calls, set_currentTime,
      with_globals, with_controller. simpl. now rewrite Ho, !app_nil_r.
  - exact N1.
  - destruct_state s. simpl in *. now subst.
  - destruct_state s. simpl in *. subst. simpl. lia.
Qed.

(** *** Production *)

Lemma locked_policy s s' :
  policy s' = policy s → production_locked s → production_locked s'.
Proof. unfold policy, production_locked. intros [= -> ->]. auto. Qed.

Lemma perform_locked fuel o s :
  keeps_environment o → production_locked s →
  production_locked (state_of (perform host fuel o s)).
Proof.
  intros Hk Hl. destruct o; simpl.
  - eapply locked_policy; [apply preserves_policy_setTime | exact Hl].
  - eapply locked_policy; [apply preserves_policy_addTime | exact Hl].
  - eapply locked_policy; [apply preserves_policy_addTime | exact Hl].
  - eapply locked_policy; [apply preserves_policy_addTime | exact Hl].
  - eapply locked_policy; [apply preserves_policy_addTime | exact Hl].
  - eapply locked_policy; [apply preserves_policy_resetToRealTime | exact Hl].
  - destruct Hl as [He Hp]. rewrite (enable_refused _ _ He Hp).
    split; destruct_state s; assumption.
  - pose proof (policy_disable fuel s) as H. unfold policy in H.
    injection H as H1 H2. split; [exact H1 | rewrite H2; apply Hl].
  - destruct_state s. exact Hl.
  - destruct_state s. exact Hl.
  - pose proof (policy_updateOptions newOptions s) as H. unfold policy in H.
    injection H as H1 H2. destruct Hl as [He Hp]. split; [now rewrite H1|].
    rewrite H2. simpl. rewrite Hp. simpl in Hk. destruct Hk as [->| ->]; reflexivity.
  - pose proof (policy_destroy fuel s) as H. unfold policy in H.
    injection H as H1 H2. split; [exact H1 | rewrite H2; apply Hl].
  - destruct_state s. exact Hl.
Qed.

Lemma run_locked fuel ops s :
  Forall keeps_environment ops → production_locked s →
  production_locked (run host fuel ops s).
Proof.
  intros Hk. revert s. induction Hk as [|o ops Ho Hops IH]; intros s Hl; [exact Hl|].
  simpl. pose proof (perform_locked fuel o s Ho Hl) as H.
  destruct (perform host fuel o s) as [[] s1|e s1|s1]; simpl in H; auto.
Qed.

(** A controller constructed for production is locked, whatever [enabled]
    option it was given. *)
Lemma constructor_locked fuel p opts :
  resolved_environment p opts = production →
  production_locked (state_of (new_TimeControllerImpl host fuel p opts)).
Proof.
  intros Hp.
  destruct (constructor_policy fuel p opts) as [H|[H _]];
    unfold policy in H; injection H as H1 H2;
    (split; [|rewrite H2; unfold constructor_options; simpl;
              fold (resolved_environment p opts); now rewrite Hp]).
  - rewrite H1. rewrite bool_decide_true by exact Hp. apply andb_false_r.
  - exact H1.
Qed.

End Activation.

(** ** Notification rounds *)




(** ** Exceptions *)

(** C9.  What a subscriber throws stays inside the round.  What
    [notifySubscribers], [enable] and [disable] can throw is the [TypeError]
    of the intercepted [Date], raised by [getCurrentTime ()] before any
    subscriber is called; what [setTime] and [addTime] throw is that
    [TypeError] or the validation error, raised before anything changed, or
    comes from the call of [onTimeChange], made after the round returned.
    A round that completes has called every callback it leaves in the set,
    whatever was thrown on the way.  In a round whose members may throw but
    leave the membership alone, every member is called once with the round's
    instant, in order, whoever threw before it, and each throw is logged;
    for [setTime] that instant is the new one. *)
Theorem subscriber_exceptions_are_contained (host : Host) (fuel : nat) (s : state) :
  (∀ e s', notifySubscribers host fuel s = Thrown e s' →
     e = not_a_constructor ∧ s' = s)
  ∧ (∀ e s', enable host fuel s = Thrown e s' →
       e = not_a_constructor ∧ calls (globals s') = calls (globals s))
  ∧ (∀ e s', disable host fuel s = Thrown e s' →
       e = not_a_constructor ∧ calls (globals s') = calls (globals s))
  ∧ (∀ time e s', setTime host fuel time s = Thrown e s' →
       (e = not_a_constructor ∧ s' = s)
       ∨ (e = Error "Invalid time provided to setTime" ∧ s' = s)
       ∨ ∃ t s1, notifySubscribers host fuel (set_currentTime (DateAt t) s) = Returned tt s1
                 ∧ call_onTimeChange host s1 = Thrown e s')
  ∧ (∀ ms e s', addTime host fuel ms s = Thrown e s' →
       (e = not_a_constructor ∧ s' = s)
       ∨ (e = Error "Invalid milliseconds provided to addTime" ∧ s' = s)
       ∨ ∃ d s1, notifySubscribers host fuel (set_currentTime d s) = Returned tt s1
                 ∧ call_onTimeChange host s1 = Thrown e s')
  ∧ (∀ d s', getCurrentTime host s = Returned d s →
     notifySubscribers host fuel s = Returned tt s' →
     ∀ c, c ∈ members (subscribers (controller s')) → (c, d) ∈ calls_since s s')
  ∧ (∀ d, getCurrentTime host s = Returned d s →
     membership_kept host (subscribers (controller s)) = true →
     (length (subscribers (controller s)) < fuel)%nat →
     (∃ s', notifySubscribers host fuel s = Returned tt s'
        ∧ calls_since s s' = (λ c, (c, d)) <$> members (subscribers (controller s))
        ∧ console_since s s'
          = omap (error_line host) (members (subscribers (controller s))))
     ∧ ∀ time t, construct host (globalDate (globals s)) time s = Returned (DateAt t) s →
         calls_since s (state_of (setTime host fuel time s))
         = ((λ c, (c, DateAt t)) <$> members (subscribers (controller s)))
             ++ option_list
                  ((λ h, (h, DateAt t))
                     <$> host_handler (options_onTimeChange (options (controller s))))).
Proof.
  split; [intros e s' H; now apply notifySubscribers_thrown in H as (_ & -> & ->)|].
  split.
  { intros e s' H. apply enable_thrown in H as (-> & -> & _). split; [reflexivity|].
    apply calls_activated. }
  split.
  { intros e s' H. apply disable_thrown in H as (-> & -> & _). split; [reflexivity|].
    apply calls_deactivated. }
  split.
  { intros time e s' H.
    apply setTime_thrown in H as [(_ & -> & ->)|[H|H]]; auto. }
  split.
  { intros ms e s' H.
    apply addTime_thrown in H as [(_ & -> & ->)|[H|H]]; auto. }
  split.
  { intros d s' G H c Hc. apply getCurrentTime_returned in G as (_ & -> & _).
    eapply notifySubscribers_visits; eassumption. }
  intros d G Hk Hf. apply getCurrentTime_returned in G as (N & -> & _). split.
  - eexists. split; [apply notifySubscribers_keeps; assumption|]. split.
    + apply calls_since_app. destruct_state s. reflexivity.
    + apply console_since_app. destruct_state s. reflexivity.
  - intros time t E. rewrite (new_Date_native host time s N) in E.
    injection E as E. now apply setTime_calls.
Qed.

(** Two subscribers, the first of which throws: on [setTime (2000)] both are
    called with the new instant, and nothing is thrown. *)
Lemma subscriber_exceptions_are_contained_witness :
  getCurrentTime example_host throwing_subscriber = Returned (DateAt 1000) throwing_subscriber
  ∧ membership_kept example_host (subscribers (controller throwing_subscriber)) = true
  ∧ (length (subscribers (controller throwing_subscriber)) < 10)%nat
  ∧ first_throw (behaviour example_host 1%nat) = Some 7%nat
  ∧ calls_since throwing_subscriber
      (state_of (setTime example_host 10 (FromNumber (of_Z 2000)) throwing_subscriber))
    = [(1%nat, DateAt 2000); (2%nat, DateAt 2000)]
  ∧ ∃ s', setTime example_host 10 (FromNumber (of_Z 2000)) throwing_subscriber
          = Returned tt s'.
Proof.
  assert (membership_kept example_host (subscribers (controller throwing_subscriber)) = true)
    as Hk by reflexivity.
  assert (length (subscribers (controller throwing_subscriber)) < 10)%nat
    as Hf by (vm_compute; lia).
  split; [reflexivity|].
  split; [exact Hk|]. split; [exact Hf|]. split; [reflexivity|]. split.
  - pose proof (subscriber_exceptions_are_contained example_host 10 throwing_subscriber)
      as (_ & _ & _ & _ & _ & _ & H).
    destruct (H (DateAt 1000) eq_refl Hk Hf) as [_ Hset].
    exact (Hset (FromNumber (of_Z 2000)) 2000 eq_refl).
  - exists (state_of (setTime example_host 10 (FromNumber (of_Z 2000))
                          throwing_subscriber)).
    vm_compute. reflexivity.
Defined.

(** C10.  What the configured [onTimeChange] throws is not caught: it reaches
    the caller of [setTime] or [addTime].  By then the new instant is stored
    and the notification round has run to its end: the state the exception
    leaves holds the new instant, and every callback the round left in the
    set was called with it before [onTimeChange] was.  (Stated for the calls
    that get as far as [onTimeChange]: [new Date (...)] has returned the new
    instant and the round has completed.) *)
Theorem onTimeChange_exception_propagates
    (host : Host) (fuel : nat) (s : state) (h : callback) (v : nat) :
  options_onTimeChange (options (controller s)) = Some (Handler h) →
  first_throw (behaviour host h) = Some v →
  (∀ time t s1,
     construct host (globalDate (globals s)) time s = Returned (DateAt t) s →
     notifySubscribers host fuel (set_currentTime (DateAt t) s) = Returned tt s1 →
     ∃ s', setTime host fuel time s = Thrown (Raised v) s'
       ∧ currentTime (controller s') = DateAt t
       ∧ calls (globals s') = calls (globals s1) ++ [(h, DateAt t)]
       ∧ ∀ c, c ∈ members (subscribers (controller s1)) →
           (c, DateAt t) ∈ calls_since s s1)
  ∧ (∀ ms d s1,
     isNaN ms = false →
     construct host (globalDate (globals s))
       (FromNumber (num_add (getTime (currentTime (controller s))) ms)) s
     = Returned d s →
     notifySubscribers host fuel (set_currentTime d s) = Returned tt s1 →
     ∃ s', addTime host fuel ms s = Thrown (Raised v) s'
       ∧ currentTime (controller s') = d
       ∧ calls (globals s') = calls (globals s1) ++ [(h, d)]
       ∧ ∀ c, c ∈ members (subscribers (controller s1)) → (c, d) ∈ calls_since s s1).
Proof.
  intros Hh Hv.
  assert (∀ d s1,
    TimeClip (getTime d) = d →
    notifySubscribers host fuel (set_currentTime d s) = Returned tt s1 →
    ∃ s', (notifySubscribers host fuel ≫= λ _, call_onTimeChange host)
            (set_currentTime d s) = Thrown (Raised v) s'
      ∧ currentTime (controller s') = d
      ∧ calls (globals s') = calls (globals s1) ++ [(h, d)]
      ∧ ∀ c, c ∈ members (subscribers (controller s1)) → (c, d) ∈ calls_since s s1)
    as Htail.
  { intros d s1 Hd N.
    pose proof (notifySubscribers_erased host fuel (set_currentTime d s)) as Her.
    rewrite N in Her. simpl in Her.
    pose proof (notifySubscribers_returned host _ _ _ N) as Nat.
    pose proof (native_erased _ _ Her Nat) as Nat1.
    pose proof (virtual_instant_erased _ _ Her) as Hvi.
    pose proof (currentTime_erased _ _ Her) as Hc.
    rewrite currentTime_set_currentTime in Hc.
    assert (virtual_instant (set_currentTime d s) = d) as Hvd
      by (unfold virtual_instant; now rewrite currentTime_set_currentTime).
    rewrite Hvd in Hvi.
    apply erased_inv in Her.
    assert (options (controller s1) = options (controller s)) as Ho
      by (rewrite Her; destruct_state s; reflexivity).
    exists (state_of (call host h d s1)).
    split; [|split; [|split]].
    - rewrite bind_unfold, N. rewrite (call_onTimeChange_native host s1 Nat1).
      rewrite Ho, Hh, Hvi, call_result, Hv. reflexivity.
    - pose proof (erased_call host h d s1) as Hec. apply currentTime_erased in Hec.
      now rewrite Hec.
    - apply call_calls.
    - intros c Hc'.
      pose proof (notifySubscribers_visits host fuel _ _ c N Hc') as Hvis.
      rewrite Hvd in Hvis.
      replace (calls_since s s1) with (calls_since (set_currentTime d s) s1)
        by (destruct_state s; reflexivity).
      exact Hvis. }
  split.
  - intros time t s1 E N.
    assert (native s) as Nat.
    { destruct (native_or_intercepted s) as [Nat|I]; [exact Nat|].
      now rewrite (new_Date_intercepted host time s I) in E. }
    rewrite (new_Date_native host time s Nat) in E. injection E as E.
    rewrite (setTime_valid _ _ _ _ _ Nat E).
    apply Htail; [|exact N].
    simpl. apply TimeClip_of_Z. eapply native_construct_in_range; eauto.
  - intros ms d s1 Hms E N.
    assert (native s) as Nat.
    { destruct (native_or_intercepted s) as [Nat|I]; [exact Nat|].
      now rewrite (new_Date_intercepted host _ s I) in E. }
    rewrite (new_Date_native host _ s Nat) in E. injection E as E. simpl in E. subst d.
    rewrite (addTime_number _ _ _ _ Hms Nat).
    apply Htail; [apply TimeClip_idem | exact N].
Qed.

(** Two subscribers and an [onTimeChange] that throws 42: [setTime (2000)]
    throws 42 with the instant at 2000 and both subscribers called. *)
Lemma onTimeChange_exception_propagates_witness :
  options_onTimeChange (options (controller failing_onTimeChange)) = Some (Handler 9%nat)
  ∧ first_throw (behaviour example_host 9%nat) = Some 42%nat
  ∧ ∃ s', setTime example_host 10 (FromNumber (of_Z 2000)) failing_onTimeChange
          = Thrown (Raised 42) s'
      ∧ currentTime (controller s') = DateAt 2000
      ∧ calls_since failing_onTimeChange s'
        = [(1%nat, DateAt 2000); (2%nat, DateAt 2000); (9%nat, DateAt 2000)].
Proof.
  split; [reflexivity|]. split; [reflexivity|].
  destruct (proj1 (onTimeChange_exception_propagates example_host 10 failing_onTimeChange
                     9%nat 42%nat eq_refl eq_refl)
              (FromNumber (of_Z 2000)) 2000
              (state_of (notifySubscribers example_host 10
                           (set_currentTime (DateAt 2000) failing_onTimeChange)))
              eq_refl eq_refl)
    as (s' & Hthrown & Htime & Hcalls & _).
  exists s'. split; [exact Hthrown|]. split; [exact Htime|].
  unfold calls_since. rewrite Hcalls. vm_compute. reflexivity.
Defined.

(** ** Durations *)

Section Durations.

Variable host : Host.

Lemma in_range_exact t : in_range t → Z.abs t ≤ 2 ^ 53.
Proof. unfold in_range, maxTime. intros H. change (2 ^ 53) with 9007199254740992. lia. Qed.

(** A whole number of milliseconds that leaves the instant in the range of
    [Date] is added as it is. *)
Lemma addTime_whole fuel s t ms :
  native s →
  currentTime (controller s) = DateAt t →
  in_range (t + ms) →
  currentTime (controller (state_of (addTime host fuel (of_Z ms) s))) = DateAt (t + ms).
Proof.
  intros N Ht Hr. rewrite addTime_currentTime by (reflexivity || exact N).
  rewrite Ht. change (getTime (DateAt t)) with (of_Z t).
  rewrite num_add_of_Z by now apply in_range_exact.
  now apply TimeClip_of_Z.
Qed.

(** [n * 60 * 1000], [n * 60 * 60 * 1000] and [n * 24 * 60 * 60 * 1000] are
    exact for the whole numbers [n] that can shift an instant within the
    range of [Date]. *)
Lemma minutes_exact n :
  Z.abs n ≤ 2 ^ 40 →
  num_mul (num_mul (of_Z n) (of_Z 60)) (of_Z 1000) = of_Z (n * 60000).
Proof.
  intros H. change (2 ^ 40) with 1099511627776 in H.
  rewrite (num_mul_of_Z n 60 (n * 15) 2) by (change (2 ^ 53) with 9007199254740992; lia).
  rewrite (num_mul_of_Z (n * 60) 1000 (n * 1875) 5)
    by (change (2 ^ 53) with 9007199254740992; lia).
  f_equal. lia.
Qed.

Lemma hours_exact n :
  Z.abs n ≤ 2 ^ 36 →
  num_mul (num_mul (num_mul (of_Z n) (of_Z 60)) (of_Z 60)) (of_Z 1000) = of_Z (n * 3600000).
Proof.
  intros H. change (2 ^ 36) with 68719476736 in H.
  rewrite (num_mul_of_Z n 60 (n * 15) 2) by (change (2 ^ 53) with 9007199254740992; lia).
  rewrite (num_mul_of_Z (n * 60) 60 (n * 225) 4)
    by (change (2 ^ 53) with 9007199254740992; lia).
  rewrite (num_mul_of_Z (n * 60 * 60) 1000 (n * 28125) 7)
    by (change (2 ^ 53) with 9007199254740992; lia).
  f_equal. lia.
Qed.

Lemma days_exact n :
  Z.abs n ≤ 2 ^ 32 →
  num_mul (num_mul (num_mul (num_mul (of_Z n) (of_Z 24)) (of_Z 60)) (of_Z 60)) (of_Z 1000)
  = of_Z (n * 86400000).
Proof.
  intros H. change (2 ^ 32) with 4294967296 in H.
  rewrite (num_mul_of_Z n 24 (n * 3) 3) by (change (2 ^ 53) with 9007199254740992; lia).
  rewrite (num_mul_of_Z (n * 24) 60 (n * 45) 5)
    by (change (2 ^ 53) with 9007199254740992; lia).
  rewrite (num_mul_of_Z (n * 24 * 60) 60 (n * 675) 7)
    by (change (2 ^ 53) with 9007199254740992; lia).
  rewrite (num_mul_of_Z (n * 24 * 60 * 60) 1000 (n * 84375) 10)
    by (change (2 ^ 53) with 9007199254740992; lia).
  f_equal. lia.
Qed.

(** [addMinutes] by a whole number of minutes, within the range of [Date]. *)
Lemma addMinutes_whole fuel s t k :
  native s →
  currentTime (controller s) = DateAt t →
  in_range t →
  in_range (t + k * 60000) →
  currentTime (controller (state_of (addMinutes host fuel (of_Z k) s)))
  = DateAt (t + k * 60000).
Proof.
  intros N Ht Hr Hr'. unfold addMinutes.
  rewrite minutes_exact
    by (unfold in_range, maxTime in *; change (2 ^ 40) with 1099511627776; lia).
  now apply addTime_whole.
Qed.

Lemma addHours_whole fuel s t k :
  native s →
  currentTime (controller s) = DateAt t →
  in_range t →
  in_range (t + k * 3600000) →
  currentTime (controller (state_of (addHours host fuel (of_Z k) s)))
  = DateAt (t + k * 3600000).
Proof.
  intros N Ht Hr Hr'. unfold addHours.
  rewrite hours_exact
    by (unfold in_range, maxTime in *; change (2 ^ 36) with 68719476736; lia).
  now apply addTime_whole.
Qed.

Lemma addDays_whole fuel s t k :
  native s →
  currentTime (controller s) = DateAt t →
  in_range t →
  in_range (t + k * 86400000) →
  currentTime (controller (state_of (addDays host fuel (of_Z k) s)))
  = DateAt (t + k * 86400000).
Proof.
  intros N Ht Hr Hr'. unfold addDays.
  rewrite days_exact
    by (unfold in_range, maxTime in *; change (2 ^ 32) with 4294967296; lia).
  now apply addTime_whole.
Qed.

(** The mutators leave [globalThis.Date] as it is. *)
Lemma native_addTime fuel ms s : native s → native (state_of (addTime host fuel ms s)).
Proof.
  intros N. destruct (addTime_frame host fuel ms s) as [d H].
  eapply native_erased; [exact H|]. now apply native_set_currentTime.
Qed.

Lemma native_setTime fuel time s : native s → native (state_of (setTime host fuel time s)).
Proof.
  intros N. destruct (setTime_frame host fuel time s) as [d H].
  eapply native_erased; [exact H|]. now apply native_set_currentTime.
Qed.

End Durations.

(** C5: the code accepts an infinite duration.  With the platform's own
    [Date] bound, [addTime (±Infinity)] passes the validation: whatever the
    instant was, it stores an invalid date, runs a notification round and
    calls [onTimeChange].  In [throwing_subscriber] it returns, and both
    subscribers are called with the invalid date. *)
Theorem addTime_accepts_Infinity :
  (∀ host fuel s negative,
     globalDate (globals s) = NativeDate →
     addTime host fuel (Infinity negative) s
     = (notifySubscribers host fuel ≫= λ _, call_onTimeChange host)
         (set_currentTime InvalidDate s))
  ∧ globalDate (globals throwing_subscriber) = NativeDate
  ∧ ∃ s', addTime example_host 10 (Infinity false) throwing_subscriber = Returned tt s'
      ∧ currentTime (controller throwing_subscriber) = DateAt 1000
      ∧ currentTime (controller s') = InvalidDate
      ∧ calls_since throwing_subscriber s' = [(1%nat, InvalidDate); (2%nat, InvalidDate)].
Proof.
  split; [|split; [reflexivity|]].
  - intros host fuel s negative N.
    rewrite (addTime_number host fuel (Infinity negative) s eq_refl N).
    destruct (currentTime (controller s)); reflexivity.
  - exists (state_of (addTime example_host 10 (Infinity false) throwing_subscriber)).
    evaluate.
Qed.

(** C7, as stated, does not hold: at instant 1000, adding 1/64 minute
    (937.5 ms) gives 1937, and subtracting it gives 999. *)
Lemma inverse_law_fails :
  ¬ inverse_law example_host 10 disabled_controller (Finite (1 # 64)).
Proof. unfold inverse_law. vm_compute. discriminate. Qed.

(** C7, as amended.  On a controller whose [getCurrentTime ()] returns the
    valid instant [t], for a number of minutes [m] whose [m * 60 * 1000] is a
    whole number [k] of milliseconds that leaves the shifted instant in the
    range of [Date], [addMinutes (m)] followed by [addMinutes (-m)] leaves
    [getCurrentTime ()] returning [t] again, whether the calls return or
    [onTimeChange] throws. *)
Theorem addMinutes_inverse (host : Host) (fuel : nat) (s : state) (t : Z)
    (m : number) (k : Z) :
  getCurrentTime host s = Returned (DateAt t) s →
  num_mul (num_mul m (of_Z 60)) (of_Z 1000) = of_Z k →
  in_range (t + k) →
  let s1 := state_of (addMinutes host fuel m s) in
  let s2 := state_of (addMinutes host fuel (num_neg m) s1) in
  getCurrentTime host s1 = Returned (DateAt (t + k)) s1
  ∧ getCurrentTime host s2 = Returned (DateAt t) s2.
Proof.
  intros G Hk Hr' s1 s2.
  apply getCurrentTime_returned in G as (N & Hv & _).
  symmetry in Hv. apply virtual_instant_DateAt in Hv as [Ht Hr].
  assert (currentTime (controller s1) = DateAt (t + k)) as H1.
  { unfold s1, addMinutes. rewrite Hk. now apply addTime_whole. }
  assert (native s1) as N1 by (apply native_addTime; exact N).
  assert (native s2) as N2 by (apply native_addTime; exact N1).
  split.
  - rewrite (getCurrentTime_native host s1 N1).
    now rewrite (virtual_instant_valid s1 _ H1 Hr').
  - rewrite (getCurrentTime_native host s2 N2). f_equal.
    apply virtual_instant_valid; [|exact Hr].
    unfold s2, addMinutes.
    rewrite !num_mul_neg_of_Z, Hk by reflexivity.
    change (num_neg (of_Z k)) with (of_Z (- k)).
    rewrite (addTime_whole host fuel s1 (t + k) (- k) N1 H1)
      by (replace (t + k + - k) with t by lia; exact Hr).
    f_equal. lia.
Qed.

(** Half a minute forth and back from instant 1000. *)
Lemma addMinutes_inverse_witness :
  getCurrentTime example_host disabled_controller = Returned (DateAt 1000) disabled_controller
  ∧ num_mul (num_mul (Finite (1 # 2)) (of_Z 60)) (of_Z 1000) = of_Z 30000
  ∧ in_range (1000 + 30000)
  ∧ reads example_host
      (state_of (addMinutes example_host 10 (Finite (1 # 2)) disabled_controller))
    = Some (DateAt 31000)
  ∧ reads example_host
      (state_of (addMinutes example_host 10 (num_neg (Finite (1 # 2)))
                   (state_of (addMinutes example_host 10 (Finite (1 # 2))
                                disabled_controller))))
    = Some (DateAt 1000).
Proof.
  assert (num_mul (num_mul (Finite (1 # 2)) (of_Z 60)) (of_Z 1000) = of_Z 30000) as H1
    by (vm_compute; reflexivity).
  assert (in_range (1000 + 30000)) as H2 by (unfold in_range, maxTime; simpl; lia).
  split; [reflexivity|]. split; [exact H1|]. split; [exact H2|].
  destruct (addMinutes_inverse example_host 10 disabled_controller 1000 (Finite (1 # 2))
              30000 eq_refl H1 H2) as [G1 G2].
  unfold reads. rewrite G1, G2. split; reflexivity.
Defined.

(** ** The activation policy *)

(** C1, as stated, does not hold: a controller constructed with no options
    on a production platform is active after [updateOptions ({ environment:
    'development' })] and [enable ()]. *)
Lemma production_can_be_left :
  ¬ never_active example_host 10 production_platform no_options.
Proof.
  intros H. specialize (H leaving_production). vm_compute in H. discriminate H.
Qed.

(** C1, as amended.  The policy function answers false for [production] and
    true for [development] and [test].  A controller constructed for an
    environment that resolves to [production] is not active when the
    constructor is through, and stays so under every sequence of calls in
    which no [updateOptions] gives an [environment] other than [production]:
    after any of them [isActive ()] is false, and [enable ()] returns without
    throwing, having logged the policy warning and changed nothing else. *)
Theorem production_auto_never_active
    (host : Host) (fuel fuel' : nat) (p : Platform) (opts : TimeControlOptions)
    (ops : list op) :
  resolved_environment p opts = production →
  Forall keeps_environment ops →
  (∀ sg, shouldEnableTimeControl sg (Some production) = false
         ∧ shouldEnableTimeControl sg (Some development) = true
         ∧ shouldEnableTimeControl sg (Some test) = true)
  ∧ isActive (state_of (new_TimeControllerImpl host fuel p opts)) = false
  ∧ isActive (run host fuel' ops (state_of (new_TimeControllerImpl host fuel p opts)))
    = false
  ∧ enable host fuel'
      (run host fuel' ops (state_of (new_TimeControllerImpl host fuel p opts)))
    = Returned tt
        (console_log warn policy_warning None
           (run host fuel' ops (state_of (new_TimeControllerImpl host fuel p opts)))).
Proof.
  intros Hp Hk.
  pose proof (constructor_locked host fuel p opts Hp) as H0.
  pose proof (run_locked host fuel' ops _ Hk H0) as H1.
  split; [intros sg; repeat split; reflexivity|].
  split; [apply H0|]. split; [apply H1|].
  destruct H1 as [Hen Henv]. now apply enable_refused.
Qed.

(** A controller constructed with no options on a production platform, and
    a sequence of calls with four attempts to enable it. *)
Lemma production_auto_never_active_witness :
  resolved_environment production_platform no_options = production
  ∧ Forall keeps_environment insistent_calls
  ∧ isActive (run example_host 10 insistent_calls
                (state_of (new_TimeControllerImpl example_host 10 production_platform
                             no_options)))
    = false
  ∧ ∃ s, new_TimeControllerImpl example_host 10 production_platform no_options
         = Returned tt s.
Proof.
  assert (Forall keeps_environment insistent_calls) as Hk
    by (repeat constructor; left; reflexivity).
  split; [reflexivity|]. split; [exact Hk|]. split.
  - exact (proj1 (proj2 (proj2
      (production_auto_never_active example_host 10 10 production_platform no_options
         insistent_calls eq_refl Hk)))).
  - exists (state_of (new_TimeControllerImpl example_host 10 production_platform
                          no_options)).
    vm_compute. reflexivity.
Defined.

(** C8, as stated, does not hold: constructed for [production] with
    [enabled: true], the controller is not active. *)
Lemma explicit_policy_forces_fails :
  ¬ explicit_policy_forces example_host 10 production_platform
      (example_options (Given true) Absent).
Proof.
  intros H.
  specialize (H true
    (state_of (new_TimeControllerImpl example_host 10 production_platform
                 (example_options (Given true) Absent)))
    eq_refl eq_refl).
  vm_compute in H. discriminate H.
Qed.

(** C8, as amended.  An explicit [enabled: false] leaves the controller
    disabled in every environment.  An explicit [enabled: true] does not
    force activation: the constructor activates through [enable ()], which
    asks the environment policy in every case, so in a production
    environment the controller is left disabled whatever [enabled] says.  In
    both cases the constructor returns, on a platform whose clock is in
    range, when neither [startTime] nor [onTimeChange] is given. *)
Theorem initial_activation
    (host : Host) (fuel : nat) (p : Platform) (opts : TimeControlOptions) :
  opt_enabled opts = Given false ∨ resolved_environment p opts = production →
  isActive (state_of (new_TimeControllerImpl host fuel p opts)) = false
  ∧ (opt_startTime opts = Absent →
     opt_onTimeChange opts = Absent →
     in_range (platform_clock p) →
     (0 < fuel)%nat →
     ∃ s, new_TimeControllerImpl host fuel p opts = Returned tt s ∧ isActive s = false).
Proof.
  intros Hcase.
  assert (requested p opts
          && negb (bool_decide (resolved_environment p opts = production)) = false) as Hoff.
  { destruct Hcase as [He|Hp].
    - unfold requested. now rewrite He.
    - rewrite bool_decide_true by exact Hp. apply andb_false_r. }
  assert (isActive (state_of (new_TimeControllerImpl host fuel p opts)) = false) as Hact.
  { destruct (constructor_policy host fuel p opts) as [H|[H _]];
      unfold policy in H; injection H as H _; unfold isActive; rewrite H;
      [exact Hoff | reflexivity]. }
  split; [exact Hact|].
  intros Hst Hot Hr Hf.
  assert (∃ s, new_TimeControllerImpl host fuel p opts = Returned tt s) as [s Hs].
  { rewrite new_TimeControllerImpl_eq. rewrite bind_unfold.
    erewrite (setTime_returns_empty host fuel _ _ (platform_clock p));
      [|reflexivity|reflexivity|unfold constructor_options; simpl; now rewrite Hot|
       |exact Hf].
    - rewrite bind_unfold. cbv beta.
      match goal with |- context [when ?b (enable host fuel) ?s1] =>
        change b with (requested p opts);
        assert (when (requested p opts) (enable host fuel) s1
                = Returned tt (state_of (when (requested p opts) (enable host fuel) s1)))
          as Hw end.
      { destruct (requested p opts) eqn:Rq; [|reflexivity].
        cbn [andb] in Hoff. apply negb_false_iff, bool_decide_eq_true in Hoff.
        cbn [when].
        rewrite enable_refused; [reflexivity|reflexivity|].
        cbn. fold (resolved_environment p opts). now rewrite Hoff. }
      rewrite Hw. rewrite (logEnvironmentInfo_returns _ _ _). eauto.
    - unfold constructor_startTime, initial_startTime. rewrite Hst. simpl.
      now apply TimeClip_of_Z. }
  exists s. split; [exact Hs|]. now rewrite Hs in Hact.
Qed.

(** Constructed for production with [enabled: true], and for a test
    environment with [enabled: false], the controller is not active. *)
Lemma initial_activation_witness :
  (resolved_environment production_page insist_enabled = production
   ∧ opt_enabled insist_enabled = Given true
   ∧ opt_startTime insist_enabled = Absent
   ∧ opt_onTimeChange insist_enabled = Absent
   ∧ in_range (platform_clock production_page)
   ∧ (0 < 1)%nat
   ∧ ∃ s, new_TimeControllerImpl example_host 1 production_page insist_enabled
          = Returned tt s
       ∧ isActive s = false)
  ∧ (opt_enabled (example_options (Given false) Absent) = Given false
     ∧ isActive (state_of (new_TimeControllerImpl example_host 10 (example_platform "test")
                             (example_options (Given false) Absent)))
       = false).
Proof.
  assert (in_range (platform_clock production_page)) as Hr
    by (unfold in_range, maxTime; simpl; lia).
  assert (0 < 1)%nat as Hf by lia.
  split.
  - split; [reflexivity|]. split; [reflexivity|]. split; [reflexivity|].
    split; [reflexivity|]. split; [exact Hr|]. split; [exact Hf|].
    exact (proj2 (initial_activation example_host 1 production_page insist_enabled
                    (or_intror eq_refl)) eq_refl eq_refl Hr Hf).
  - split; [reflexivity|].
    exact (proj1 (initial_activation example_host 10 (example_platform "test")
                    (example_options (Given false) Absent) (or_introl eq_refl))).
Defined.

(** ** Interception *)

Section Interception.

Variable host : Host.

(** *** The native surface *)

(** A second [hijackNativeFunctions] without a restore in between does
    nothing. *)
Lemma hijackNativeFunctions_twice s :
  hijackNativeFunctions (state_of (hijackNativeFunctions s))
  = Returned tt (state_of (hijackNativeFunctions s)).
Proof.
  assert (isHijacked (hijacker (state_of (hijackNativeFunctions s))) = true) as H.
  { unfold hijackNativeFunctions.
    destruct (isHijacked (hijacker s)) eqn:E; [exact E | reflexivity]. }
  unfold hijackNativeFunctions at 1. now rewrite H.
Qed.

(** [hijackNativeFunctions] then [restoreNativeFunctions] puts back the
    constructor that was bound, and a second restore does nothing. *)
Lemma native_install_restore s :
  isHijacked (hijacker s) = false →
  let s' := state_of (restoreNativeFunctions (state_of (hijackNativeFunctions s))) in
  globalDate (globals s') = globalDate (globals s)
  ∧ isHijacked (hijacker s') = false
  ∧ restoreNativeFunctions s' = Returned tt s'.
Proof.
  intros E. unfold hijackNativeFunctions. rewrite E. simpl.
  unfold restoreNativeFunctions. simpl. repeat split.
Qed.

(** Two installs and one restore: the constructor is back as well. *)
Lemma native_install_twice_restore s :
  isHijacked (hijacker s) = false →
  globalDate (globals (state_of (restoreNativeFunctions
     (state_of (hijackNativeFunctions (state_of (hijackNativeFunctions s)))))))
  = globalDate (globals s).
Proof.
  intros E. rewrite hijackNativeFunctions_twice. simpl.
  now apply native_install_restore.
Qed.

(** *** The libraries *)

(** One install and one restore put back what [moment.now] was, when
    [moment] is on [globalThis]. *)
Lemma moment_install_restore s f :
  moment_global (globals s) = true →
  moment_now (globals s) = Some f →
  moment_now (globals (state_of (restoreMoment (state_of (hijackMoment s))))) = Some f.
Proof.
  intros Hg Hn. unfold hijackMoment, find_moment. rewrite Hg, Hn. simpl.
  unfold restoreMoment. simpl. rewrite Hg. simpl.
  rewrite lookup_insert_eq. simpl.
  unfold delete_original. destruct (stamp_of f); reflexivity.
Qed.

(** And what [globalThis.dayjs] was. *)
Lemma dayjs_install_restore s f :
  dayjs_global (globals s) = Some f →
  dayjs_global (globals (state_of (restoreDayjs (state_of (hijackDayjs s))))) = Some f.
Proof.
  intros Hg. unfold hijackDayjs, find_dayjs. rewrite Hg. simpl. rewrite Hg. simpl.
  unfold restoreDayjs. simpl. rewrite lookup_insert_eq. reflexivity.
Qed.

(** *** [Date.now] and the libraries, when the controller is not enabled *)

Lemma Date_now_transparent s k b :
  isActive s = false →
  backup (hijacker s) = Some b →
  backup_DateNow b = NativeNow →
  call_now host (ControlledNow k) s = call_now host NativeNow s.
Proof. unfold call_now. intros -> -> ->. reflexivity. Qed.

Lemma momentNow_transparent s k original :
  isActive s = false →
  call_lib host (MomentNowShim k original) [] s = call_lib host original [] s.
Proof. simpl. intros ->. reflexivity. Qed.

Lemma dayjs_transparent s k original args :
  isActive s = false →
  call_lib host (DayjsShim k original) args s = call_lib host original args s.
Proof. simpl. intros ->. now rewrite andb_false_r. Qed.

(** [new Date ()] on a [ControlledDate] throws, whoever is bound to [Date]
    and whether the controller is enabled or not; [Date ()] gives the
    string of the virtual instant when the platform's [Date] is bound, and
    throws when a [ControlledDate] is. *)
Lemma ControlledDate_throws s k D :
  construct_now host (ControlledDate k D) s = Thrown not_a_constructor s
  ∧ (∀ arg, construct host (ControlledDate k D) arg s = Thrown not_a_constructor s)
  ∧ call_Date host (ControlledDate k D) s
    = match globalDate (globals s) with
      | NativeDate => Returned (VString (virtual_instant s)) s
      | ControlledDate _ _ => Thrown not_a_constructor s
      end.
Proof.
  split; [|split; [reflexivity|]].
  - simpl. rewrite bind_unfold.
    destruct (native_or_intercepted s) as [N|I].
    + now rewrite (getCurrentTime_native host s N).
    + now rewrite (getCurrentTime_intercepted host s I).
  - simpl. rewrite bind_unfold. unfold getCurrentTime.
    destruct (globalDate (globals s)); reflexivity.
Qed.

(** *** [resetToRealTime] *)

(** While a [ControlledDate] is bound to [Date], [resetToRealTime] throws at
    [new Date ()] and the instant stays. *)
Lemma resetToRealTime_intercepted fuel s :
  intercepted s → resetToRealTime host fuel s = Thrown not_a_constructor s.
Proof.
  intros I. unfold resetToRealTime. rewrite bind_unfold. cbv beta.
  unfold intercepted in I. destruct (globalDate (globals s)) as [|k D] eqn:E; [done|].
  now rewrite (proj1 (ControlledDate_throws s k D)).
Qed.

(** With the platform's own [Date], it stores the wall-clock time. *)
Lemma resetToRealTime_native fuel s :
  native s →
  in_range (clock (globals s)) →
  currentTime (controller (state_of (resetToRealTime host fuel s)))
  = DateAt (clock (globals s)).
Proof.
  intros N Hr. unfold resetToRealTime. rewrite bind_unfold. cbv beta.
  rewrite N. simpl. unfold gets.
  rewrite (setTime_valid host fuel _ s (clock (globals s)) N)
    by (simpl; now apply TimeClip_of_Z).
  rewrite (currentTime_erased _ _ (erased_announce host fuel _)).
  apply currentTime_set_currentTime.
Qed.

End Interception.

(** C2: the libraries are not protected against a second install.  The
    native install is guarded by [isHijacked]; [hijackMoment] and
    [hijackDayjs] wrap whatever they find.  After [hijackLibraries ()] twice
    and [restoreLibraries ()] once, [moment.now] and [globalThis.dayjs] are
    still wrappers; a second restore gets [dayjs] back, but not
    [moment.now], whose wrapper has lost its [__original].  Where [moment]
    is reached through [require] only, one install and one restore leave
    [moment.now] wrapped, for [restoreMoment] does not look there. *)
Theorem library_install_not_idempotent :
  moment_now (globals disabled_controller) = Some (Shipped Moment)
  ∧ dayjs_global (globals disabled_controller) = Some (Shipped Dayjs)
  ∧ moment_now (globals twice_hijacked_once_restored)
    = Some (MomentNowShim 0 (Shipped Moment))
  ∧ dayjs_global (globals twice_hijacked_once_restored)
    = Some (DayjsShim 1 (Shipped Dayjs))
  ∧ moment_now (globals (state_of (restoreLibraries twice_hijacked_once_restored)))
    = Some (MomentNowShim 0 (Shipped Moment))
  ∧ dayjs_global (globals (state_of (restoreLibraries twice_hijacked_once_restored)))
    = Some (Shipped Dayjs)
  ∧ moment_now (globals require_only_controller) = Some (Shipped Moment)
  ∧ moment_now (globals (state_of ((hijackLibraries ≫= λ _, restoreLibraries)
                                     require_only_controller)))
    = Some (MomentNowShim 0 (Shipped Moment)).
Proof. evaluate. Qed.

(** C3: with the shims installed around a controller that is not enabled,
    at virtual instant 1000 and wall-clock time 5000, [new Date ()],
    [Date ()] and [new Date (0)] throw a [TypeError] where the platform's own
    [Date] gives the wall-clock time and the epoch; [Date.now ()],
    [moment.now ()] and [dayjs ()] do give what the functions they replaced
    give. *)
Theorem intercepted_Date_is_not_transparent :
  isActive shimmed_while_disabled = false
  ∧ Hijacker_isActive shimmed_while_disabled = true
  ∧ globalDate (globals shimmed_while_disabled) = ControlledDate 0 NativeDate
  ∧ construct_now example_host (ControlledDate 0 NativeDate) shimmed_while_disabled
    = Thrown not_a_constructor shimmed_while_disabled
  ∧ construct_now example_host NativeDate shimmed_while_disabled
    = Returned (DateAt 5000) shimmed_while_disabled
  ∧ call_Date example_host (ControlledDate 0 NativeDate) shimmed_while_disabled
    = Thrown not_a_constructor shimmed_while_disabled
  ∧ call_Date example_host NativeDate shimmed_while_disabled
    = Returned (VString (DateAt 5000)) shimmed_while_disabled
  ∧ construct example_host (ControlledDate 0 NativeDate) (FromNumber (of_Z 0))
      shimmed_while_disabled
    = Thrown not_a_constructor shimmed_while_disabled
  ∧ construct example_host NativeDate (FromNumber (of_Z 0)) shimmed_while_disabled
    = Returned (DateAt 0) shimmed_while_disabled
  ∧ call_now example_host (ControlledNow 0) shimmed_while_disabled
    = call_now example_host NativeNow shimmed_while_disabled
  ∧ moment_now (globals shimmed_while_disabled) = Some (MomentNowShim 1 (Shipped Moment))
  ∧ call_lib example_host (MomentNowShim 1 (Shipped Moment)) [] shimmed_while_disabled
    = call_lib example_host (Shipped Moment) [] shimmed_while_disabled
  ∧ dayjs_global (globals shimmed_while_disabled) = Some (DayjsShim 2 (Shipped Dayjs))
  ∧ call_lib example_host (DayjsShim 2 (Shipped Dayjs)) [] shimmed_while_disabled
    = call_lib example_host (Shipped Dayjs) [] shimmed_while_disabled.
Proof. evaluate. Qed.

(** C6: [resetToRealTime] reads [new Date ()] through the hijacked binding.
    On the controller that [enable ()] has activated, at virtual instant 1000
    and wall-clock time 5000, it throws the [TypeError] of the intercepted
    [Date] and the instant is still 1000; on the controller that is not
    enabled it returns and stores 5000. *)
Theorem resetToRealTime_keeps_virtual_instant :
  enable example_host 10 disabled_controller = Thrown not_a_constructor enabled_controller
  ∧ isActive enabled_controller = true
  ∧ Hijacker_isActive enabled_controller = true
  ∧ clock (globals enabled_controller) = 5000
  ∧ currentTime (controller enabled_controller) = DateAt 1000
  ∧ resetToRealTime example_host 10 enabled_controller
    = Thrown not_a_constructor enabled_controller
  ∧ (∃ s', resetToRealTime example_host 10 disabled_controller = Returned tt s'
       ∧ currentTime (controller s') = DateAt 5000
       ∧ getCurrentTime example_host s' = Returned (DateAt 5000) s').
Proof.
  do 6 (split; [vm_compute; reflexivity|]).
  exists (state_of (resetToRealTime example_host 10 disabled_controller)). evaluate.
Qed.

(** * Further properties of the controller, the hijacker and the utilities *)

(** ** Setting the time *)

Lemma setTime_stores (host : Host) (fuel : nat) (s : state) (time : TimeInput) (t : Z) :
  native s →
  native_construct host time = DateAt t →
  currentTime (controller (state_of (setTime host fuel time s))) = DateAt t.
Proof.
  intros N E. rewrite (setTime_valid host fuel time s t N E).
  rewrite (currentTime_erased _ _ (erased_announce host fuel _)).
  apply currentTime_set_currentTime.
Qed.

(** What [new Date (arg)] returns, it returns with the platform's own
    [Date]. *)
Lemma new_Date_returned (host : Host) (arg : TimeInput) (s : state) (d : date) (s' : state) :
  construct host (globalDate (globals s)) arg s = Returned d s' →
  native s ∧ native_construct host arg = d ∧ s' = s.
Proof.
  destruct (native_or_intercepted s) as [N|I].
  - rewrite (new_Date_native host arg s N). now intros [= <- <-].
  - now rewrite (new_Date_intercepted host arg s I).
Qed.

(** [setTime] stores what [new Date (time)] returns when that is a valid
    date: whatever the callbacks do and however the call ends,
    [getCurrentTime ()] then returns that instant. *)
Theorem setTime_getCurrentTime (host : Host) (fuel : nat) (s : state)
    (time : TimeInput) (t : Z) :
  construct host (globalDate (globals s)) time s = Returned (DateAt t) s →
  let s' := state_of (setTime host fuel time s) in
  getCurrentTime host s' = Returned (DateAt t) s'
  ∧ currentTime (controller s') = DateAt t.
Proof.
  intros E s'. apply new_Date_returned in E as (N & E & _).
  pose proof (native_construct_in_range host _ _ E) as Hr.
  pose proof (setTime_stores host fuel s time t N E) as Hc. fold s' in Hc.
  split; [|exact Hc].
  rewrite getCurrentTime_native by (apply native_setTime; exact N).
  now rewrite (virtual_instant_valid s' t Hc Hr).
Qed.

(** A number with a fraction, on the controller whose first subscriber
    throws: the whole milliseconds are stored. *)
Lemma setTime_getCurrentTime_witness :
  construct example_host (globalDate (globals throwing_subscriber))
    (FromNumber (Finite (172800001 # 2))) throwing_subscriber
  = Returned (DateAt 86400000) throwing_subscriber
  ∧ reads example_host
      (state_of (setTime example_host 10 (FromNumber (Finite (172800001 # 2)))
                   throwing_subscriber))
    = Some (DateAt 86400000).
Proof.
  assert (construct example_host (globalDate (globals throwing_subscriber))
            (FromNumber (Finite (172800001 # 2))) throwing_subscriber
          = Returned (DateAt 86400000) throwing_subscriber) as E
    by (vm_compute; reflexivity).
  split; [exact E|].
  unfold reads.
  now rewrite (proj1 (setTime_getCurrentTime example_host 10 throwing_subscriber _ _ E)).
Defined.

(** [setTime] validates before it applies: it throws its error exactly when
    [new Date (time)] returns an invalid date, and then nothing has changed,
    no callback has been called and nothing is logged. *)
Theorem setTime_validates_first (host : Host) (fuel : nat) (s : state) (time : TimeInput) :
  (construct host (globalDate (globals s)) time s = Returned InvalidDate s →
   setTime host fuel time s = Thrown (Error "Invalid time provided to setTime") s)
  ∧ (∀ s', setTime host fuel time s = Thrown (Error "Invalid time provided to setTime") s' →
     construct host (globalDate (globals s)) time s = Returned InvalidDate s ∧ s' = s).
Proof.
  split.
  - intros E. apply new_Date_returned in E as (N & E & _). now apply setTime_invalid.
  - intros s' H. destruct (native_or_intercepted s) as [N|I].
    + destruct (native_construct host time) as [|t] eqn:E.
      * rewrite (setTime_invalid host fuel time s N E) in H. injection H as <-.
        now rewrite (new_Date_native host time s N), E.
      * exfalso. rewrite (setTime_valid host fuel time s t N E) in H.
        apply announce_thrown in H as [(_ & H & _)|(s1 & _ & H)]; [discriminate|].
        apply call_onTimeChange_thrown in H as [H|[H|[v H]]]; discriminate.
    + now rewrite (setTime_intercepted host fuel time s I) in H.
Qed.

(** [setTime ("not-a-date")], a string [Date.parse] gives [NaN] for, and
    [setTime (NaN)]. *)
Lemma setTime_validates_first_witness :
  construct example_host (globalDate (globals throwing_subscriber))
    (FromString "not-a-date") throwing_subscriber
  = Returned InvalidDate throwing_subscriber
  ∧ setTime example_host 10 (FromString "not-a-date") throwing_subscriber
    = Thrown (Error "Invalid time provided to setTime") throwing_subscriber
  ∧ construct example_host (globalDate (globals throwing_subscriber)) (FromNumber NaN)
      throwing_subscriber
    = Returned InvalidDate throwing_subscriber.
Proof.
  assert (construct example_host (globalDate (globals throwing_subscriber))
            (FromString "not-a-date") throwing_subscriber
          = Returned InvalidDate throwing_subscriber) as E by (vm_compute; reflexivity).
  split; [exact E|]. split.
  - exact (proj1 (setTime_validates_first example_host 10 throwing_subscriber _) E).
  - exact (proj1 (proj2 (setTime_validates_first example_host 10 throwing_subscriber
                            (FromNumber NaN))
                    throwing_subscriber
                    (proj1 (setTime_validates_first example_host 10 throwing_subscriber
                              (FromNumber NaN)) eq_refl))).
Defined.

(** ** Adding time *)

(** [addMinutes], [addHours] and [addDays] by a whole number [n], negative to
    subtract, move the instant by [n] times 60000, 3600000 and 86400000 ms, as
    long as the result is in the range of [Date]; a day is twenty-four hours
    and an hour sixty minutes.  (On a controller whose [getCurrentTime ()]
    returns the valid instant [t].) *)
Theorem whole_units_add_up (host : Host) (fuel : nat) (s : state) (t n : Z) :
  getCurrentTime host s = Returned (DateAt t) s →
  (in_range (t + n * 60000) →
   reads host (state_of (addMinutes host fuel (of_Z n) s)) = Some (DateAt (t + n * 60000)))
  ∧ (in_range (t + n * 3600000) →
     reads host (state_of (addHours host fuel (of_Z n) s)) = Some (DateAt (t + n * 3600000))
     ∧ reads host (state_of (addMinutes host fuel (of_Z (60 * n)) s))
       = Some (DateAt (t + n * 3600000)))
  ∧ (in_range (t + n * 86400000) →
     reads host (state_of (addDays host fuel (of_Z n) s)) = Some (DateAt (t + n * 86400000))
     ∧ reads host (state_of (addHours host fuel (of_Z (24 * n)) s))
       = Some (DateAt (t + n * 86400000))).
Proof.
  intros G. apply getCurrentTime_returned in G as (N & Hv & _).
  symmetry in Hv. apply virtual_instant_DateAt in Hv as [Ht Hr0].
  assert (∀ m d, native (state_of (addTime host fuel m s)) →
            currentTime (controller (state_of (addTime host fuel m s))) = DateAt d →
            in_range d →
            reads host (state_of (addTime host fuel m s)) = Some (DateAt d)) as Hread.
  { intros m d N' Hc Hr. rewrite reads_native by exact N'.
    now rewrite (virtual_instant_valid _ d Hc Hr). }
  split; [|split].
  - intros Hr. apply Hread; [now apply native_addTime| |exact Hr].
    now apply addMinutes_whole.
  - intros Hr. split; (apply Hread; [now apply native_addTime| |exact Hr]).
    + now apply addHours_whole.
    + replace (t + n * 3600000) with (t + 60 * n * 60000) in * by lia.
      now apply addMinutes_whole.
  - intros Hr. split; (apply Hread; [now apply native_addTime| |exact Hr]).
    + now apply addDays_whole.
    + replace (t + n * 86400000) with (t + 24 * n * 3600000) in * by lia.
      now apply addHours_whole.
Qed.

(** From 2024-01-01T12:00:00Z, thirty-one days on is 2024-02-01T12:00:00Z. *)
Lemma whole_units_add_up_witness :
  getCurrentTime example_host new_year_controller
  = Returned (DateAt noon_new_year_2024) new_year_controller
  ∧ in_range (noon_new_year_2024 + 31 * 86400000)
  ∧ reads example_host (state_of (addDays example_host 10 (of_Z 31) new_year_controller))
    = Some (DateAt 1706788800000).
Proof.
  assert (in_range (noon_new_year_2024 + 31 * 86400000)) as Hr
    by (unfold in_range, maxTime, noon_new_year_2024; simpl; lia).
  split; [vm_compute; reflexivity|]. split; [exact Hr|].
  refine (proj1 (proj2 (proj2
    (whole_units_add_up example_host 10 new_year_controller noon_new_year_2024 31 _))
    Hr)).
  vm_compute. reflexivity.
Defined.

(** ** While [Date] is intercepted *)

(** While a [ControlledDate] is bound to [globalThis.Date], as it is on an
    enabled controller, every method that constructs a [Date] throws the
    [TypeError] of the shim and leaves everything as it was: the instant
    can be neither read nor moved, and no callback is called.  Only the
    validation of [addTime] comes before. *)
Theorem intercepted_Date_stops_the_clock (host : Host) (fuel : nat) (s : state) :
  intercepted s →
  getCurrentTime host s = Thrown not_a_constructor s
  ∧ (∀ time, setTime host fuel time s = Thrown not_a_constructor s)
  ∧ (∀ ms, addTime host fuel ms s
           = Thrown (if isNaN ms then Error "Invalid milliseconds provided to addTime"
                     else not_a_constructor) s)
  ∧ resetToRealTime host fuel s = Thrown not_a_constructor s
  ∧ notifySubscribers host fuel s = Thrown not_a_constructor s
  ∧ (∀ h, updateOptions host (only_onTimeChange h) s
          = Thrown not_a_constructor
              (set_options (merge_options (options (controller s)) (only_onTimeChange h)) s)).
Proof.
  intros I.
  split; [now apply getCurrentTime_intercepted|].
  split; [intros time; now apply setTime_intercepted|].
  split.
  { intros ms. destruct (isNaN ms) eqn:E.
    - destruct ms; try discriminate. reflexivity.
    - now apply addTime_intercepted. }
  split; [now apply resetToRealTime_intercepted|].
  split; [now apply notifySubscribers_intercepted|].
  intros h. unfold updateOptions.
  set (s1 := set_options _ s).
  assert (intercepted s1) as I1 by (subst s1; destruct_state s; exact I).
  assert (options_hijackLibraries (options (controller s))
          = options_hijackLibraries (options (controller s1))) as <-
    by (subst s1; destruct_state s; reflexivity).
  rewrite bool_decide_true by reflexivity. rewrite andb_false_r.
  cbn [when negb opt_onTimeChange only_onTimeChange].
  rewrite bind_unfold. change ((mret tt : M unit) s1) with (Returned tt s1). cbv beta iota.
  rewrite bind_unfold. now rewrite (getCurrentTime_intercepted host s1 I1).
Qed.

(** On the controller that [enable ()] has activated, [setTime (2000)]
    throws and the instant stays at 1000. *)
Lemma intercepted_Date_stops_the_clock_witness :
  intercepted enabled_controller
  ∧ isActive enabled_controller = true
  ∧ setTime example_host 10 (FromNumber (of_Z 2000)) enabled_controller
    = Thrown not_a_constructor enabled_controller
  ∧ currentTime (controller enabled_controller) = DateAt 1000.
Proof.
  assert (intercepted enabled_controller) as I by (vm_compute; exact I).
  split; [exact I|]. split; [reflexivity|]. split; [|reflexivity].
  exact (proj1 (proj2 (intercepted_Date_stops_the_clock example_host 10 enabled_controller I))
           (FromNumber (of_Z 2000))).
Defined.
(** ** Subscriptions *)

Section Subscriptions.

Variable host : Host.

Lemma members_app (d1 d2 : SetData) : members (d1 ++ d2) = members d1 ++ members d2.
Proof. unfold members. apply omap_app. Qed.

Lemma members_set_add c (d : SetData) :
  members (set_add c d) = if bool_decide (c ∈ members d) then members d else members d ++ [c].
Proof.
  unfold set_add, set_has.
  destruct (bool_decide_reflect (Some c ∈ d)) as [H|H];
    destruct (bool_decide_reflect (c ∈ members d)) as [H'|H'];
    rewrite elem_of_members in H'; try contradiction; [reflexivity|].
  now rewrite members_app.
Qed.

Lemma members_set_delete c (d : SetData) :
  members (set_delete c d) = filter (λ x, x ≠ c) (members d).
Proof.
  unfold members, set_delete. induction d as [|[x|] d IH]; simpl; auto.
  - destruct (decide (Some x = Some c)) as [[= ->]|Hne]; simpl.
    + rewrite filter_cons_False by auto. exact IH.
    + rewrite filter_cons_True by congruence. f_equal. exact IH.
Qed.

Lemma members_set_clear (d : SetData) : members (set_clear d) = [].
Proof. unfold members, set_clear. induction d as [|x d IH]; simpl; auto. Qed.

Lemma filter_not_in (c : callback) (l : list callback) :
  c ∉ l → filter (λ x, x ≠ c) l = l.
Proof.
  induction l as [|x l IH]; [reflexivity|]. rewrite not_elem_of_cons. intros [Hne Hl].
  rewrite filter_cons_True by auto. now rewrite IH.
Qed.

Lemma calls_to_members (c : callback) (d : date) (l : list callback) :
  NoDup l → c ∈ l → calls_to c ((λ x, (x, d)) <$> l) = [(c, d)].
Proof.
  unfold calls_to. induction 1 as [|x l Hx Hl IH]; [intros H; inversion H|].
  rewrite elem_of_cons. simpl. intros [->|Hc].
  - rewrite filter_cons_True by reflexivity. f_equal.
    clear IH Hl. induction l as [|y l IH]; [reflexivity|].
    apply not_elem_of_cons in Hx as [Hne Hx]. simpl.
    rewrite filter_cons_False by (simpl; congruence). auto.
  - rewrite filter_cons_False; [auto|]. simpl. intros ->. contradiction.
Qed.

Lemma calls_to_app c l1 l2 : calls_to c (l1 ++ l2) = calls_to c l1 ++ calls_to c l2.
Proof. apply filter_app. Qed.

End Subscriptions.

(** ** What the hijacker leaves alone *)

Section HijackerFrame.

Lemma preserves_outside_bind (m : M unit) (k : unit → M unit) :
  preserves_outside m → (∀ a, preserves_outside (k a)) → preserves_outside (m ≫= k).
Proof.
  intros Hm Hk s. rewrite state_of_bind. specialize (Hm s).
  destruct (m s) as [a s1|e s1|s1]; simpl in *; [rewrite Hk|..]; exact Hm.
Qed.

Lemma outside_hijackNativeFunctions : preserves_outside hijackNativeFunctions.
Proof.
  intros s. unfold hijackNativeFunctions.
  destruct (isHijacked (hijacker s)); first [reflexivity | destruct_state s; reflexivity].
Qed.

Lemma outside_restoreNativeFunctions : preserves_outside restoreNativeFunctions.
Proof.
  intros s. unfold restoreNativeFunctions.
  destruct (isHijacked (hijacker s)), (backup (hijacker s));
    first [reflexivity | destruct_state s; reflexivity].
Qed.

Lemma outside_hijackMoment : preserves_outside hijackMoment.
Proof.
  intros s. unfold hijackMoment. destruct (find_moment s); [|reflexivity].
  destruct (moment_now (globals s)); first [reflexivity | destruct_state s; reflexivity].
Qed.

Lemma outside_restoreMoment : preserves_outside restoreMoment.
Proof.
  intros s. unfold restoreMoment. destruct (moment_global (globals s)); [|reflexivity].
  destruct (moment_now (globals s)) as [now|]; [|reflexivity].
  destruct (get_original _ now) as [o|]; [|reflexivity].
  unfold delete_original.
  destruct (stamp_of o); first [reflexivity | destruct_state s; reflexivity].
Qed.

Lemma outside_hijackDayjs : preserves_outside hijackDayjs.
Proof.
  intros s. unfold hijackDayjs. destruct (find_dayjs s); [|reflexivity]. simpl.
  destruct (dayjs_global (globals s)); first [reflexivity | destruct_state s; reflexivity].
Qed.

Lemma outside_restoreDayjs : preserves_outside restoreDayjs.
Proof.
  intros s. unfold restoreDayjs. destruct (dayjs_global (globals s)) as [f|]; [|reflexivity].
  destruct (get_original _ f); first [reflexivity | destruct_state s; reflexivity].
Qed.

Lemma outside_hijackLibraries : preserves_outside hijackLibraries.
Proof.
  unfold hijackLibraries.
  apply preserves_outside_bind; [apply outside_hijackMoment|intros _].
  apply preserves_outside_bind; [apply outside_hijackDayjs|intros _].
  intros s; reflexivity.
Qed.

Lemma outside_restoreLibraries : preserves_outside restoreLibraries.
Proof.
  unfold restoreLibraries.
  apply preserves_outside_bind; [apply outside_restoreMoment|intros _].
  apply preserves_outside_bind; [apply outside_restoreDayjs|intros _].
  intros s; reflexivity.
Qed.

Lemma outside_Hijacker_destroy : preserves_outside Hijacker_destroy.
Proof.
  unfold Hijacker_destroy.
  apply preserves_outside_bind; [apply outside_restoreNativeFunctions|intros _].
  apply preserves_outside_bind; [apply outside_restoreLibraries|intros _].
  intros s. first [reflexivity | destruct_state s; reflexivity].
Qed.

Lemma outside_audience s s' :
  outside_hijacker s' = outside_hijacker s → audience s' = audience s.
Proof. unfold outside_hijacker, audience. intros H. simplify_eq. congruence. Qed.

End HijackerFrame.

(** ** A callback the controller does not know *)

Section Quiet.

Variable host : Host.
Variable c : callback.
Hypothesis no_subscribe : ∀ c', Subscribe c ∉ behaviour host c'.

Local Abbreviation deliver arg :=
  (λ callback : callback,
     try_catch (call host callback arg)
       (λ e, modify (console_log error subscriber_error (Some e)))).

Lemma never_calls_refl s : never_calls c s s.
Proof. exists []. split; [now rewrite app_nil_r | intros p Hp; inversion Hp]. Qed.

Lemma never_calls_trans s1 s2 s3 :
  never_calls c s1 s2 → never_calls c s2 s3 → never_calls c s1 s3.
Proof.
  intros (n1 & H1 & Hn1) (n2 & H2 & Hn2). exists (n1 ++ n2).
  split; [rewrite H2, H1, app_assoc; reflexivity|].
  intros p [H|H]%elem_of_app; auto.
Qed.

Lemma never_calls_from s0 s s' :
  calls (globals s0) = calls (globals s) → never_calls c s0 s' → never_calls c s s'.
Proof. unfold never_calls. now intros ->. Qed.

Lemma keeps_out_bind {A B} (m : M A) (k : A → M B) :
  keeps_out c m → (∀ a, keeps_out c (k a)) → keeps_out c (m ≫= k).
Proof.
  intros Hm Hk s Hq. rewrite state_of_bind. destruct (Hm s Hq) as [Hq1 Hn1].
  destruct (m s) as [a s1|e s1|s1]; simpl in *; auto.
  destruct (Hk a s1 Hq1). split; [auto|]. eapply never_calls_trans; eauto.
Qed.

Lemma keeps_out_audience {A} (m : M A) :
  (∀ s, audience (state_of (m s)) = audience s) → keeps_out c m.
Proof.
  intros H s [Hs Ho]. specialize (H s). unfold audience in H. simplify_eq.
  split; [split; congruence|]. exists []. rewrite app_nil_r.
  split; [done | intros p Hp; inversion Hp].
Qed.

Lemma keeps_out_outside (m : M unit) : preserves_outside m → keeps_out c m.
Proof. intros H. apply keeps_out_audience. intros s. apply outside_audience, H. Qed.

Lemma keeps_out_gets {A} (f : state → A) : keeps_out c (gets f).
Proof. apply keeps_out_audience. reflexivity. Qed.

Lemma keeps_out_throw {A} e : keeps_out c (throw e : M A).
Proof. apply keeps_out_audience. reflexivity. Qed.

Lemma keeps_out_ret : keeps_out c (mret tt : M unit).
Proof. apply keeps_out_audience. reflexivity. Qed.

Lemma keeps_out_modify f : (∀ s, audience (f s) = audience s) → keeps_out c (modify f).
Proof. intros H. apply keeps_out_audience. exact H. Qed.

Lemma keeps_out_when b (m : M unit) : keeps_out c m → keeps_out c (when b m).
Proof. intros H. destruct b; [exact H | apply keeps_out_ret]. Qed.

Lemma erased_options s s' :
  observers_erased s' = observers_erased s → options (controller s') = options (controller s).
Proof. intros H. apply erased_policy in H. unfold policy in H. congruence. Qed.

Lemma keeps_out_call h arg : h ≠ c → keeps_out c (call host h arg).
Proof.
  intros Hne s [Hs Ho]. split; [split|].
  - unfold call.
    pose proof (not_member_run_steps c (behaviour host h)
                  (set_calls (calls (globals s) ++ [(h, arg)]) s) (no_subscribe h)) as H.
    destruct (run_steps _ _) as [[v|] s2]; simpl in *; apply H; destruct_state s; exact Hs.
  - now rewrite (erased_options _ _ (erased_call host h arg s)).
  - exists [(h, arg)]. split; [apply call_calls|].
    intros p ->%list_elem_of_singleton. exact Hne.
Qed.

Lemma forEach_stays_out fuel i arg s :
  Some c ∉ subscribers (controller s) →
  Some c ∉ subscribers (controller (state_of (forEach fuel i (deliver arg) s))).
Proof.
  revert i s. induction fuel as [|fuel IH]; intros i s Hs; [exact Hs|].
  rewrite forEach_step.
  destruct (subscribers (controller s) !! i) as [[h|]|]; [|now apply IH|exact Hs].
  apply IH. now apply not_member_delivered.
Qed.

Lemma keeps_out_notifySubscribers fuel : keeps_out c (notifySubscribers host fuel).
Proof.
  intros s [Hs Ho]. destruct (native_or_intercepted s) as [N|I].
  - split; [split|].
    + rewrite (notifySubscribers_native host fuel s N). now apply forEach_stays_out.
    + now rewrite (erased_options _ _ (notifySubscribers_erased host fuel s)).
    + rewrite (notifySubscribers_native host fuel s N). now apply forEach_not_member.
  - rewrite (notifySubscribers_intercepted host fuel s I).
    split; [now split | apply never_calls_refl].
Qed.

Lemma keeps_out_call_onTimeChange : keeps_out c (call_onTimeChange host).
Proof.
  intros s Hq. destruct (native_or_intercepted s) as [N|I].
  - rewrite (call_onTimeChange_native host s N).
    destruct (options_onTimeChange (options (controller s))) as [[|h]|] eqn:E.
    + split; [exact Hq | apply never_calls_refl].
    + apply keeps_out_call; [destruct Hq; congruence | exact Hq].
    + split; [exact Hq | apply never_calls_refl].
  - rewrite (call_onTimeChange_intercepted host s I).
    split; [exact Hq | apply never_calls_refl].
Qed.

Lemma new_Date_state arg s :
  state_of (construct host (globalDate (globals s)) arg s) = s.
Proof. destruct (globalDate (globals s)); reflexivity. Qed.

Lemma keeps_out_state {A} (m : M A) : (∀ s, state_of (m s) = s) → keeps_out c m.
Proof. intros H. apply keeps_out_audience. intros s. now rewrite H. Qed.

Lemma keeps_out_getCurrentTime : keeps_out c (getCurrentTime host).
Proof. apply keeps_out_state, getCurrentTime_state. Qed.

Lemma keeps_out_announce fuel :
  keeps_out c (notifySubscribers host fuel ≫= λ _, call_onTimeChange host).
Proof.
  apply keeps_out_bind; [apply keeps_out_notifySubscribers|].
  intros _. apply keeps_out_call_onTimeChange.
Qed.

Lemma audience_set_currentTime d s : audience (set_currentTime d s) = audience s.
Proof. destruct_state s. reflexivity. Qed.

Lemma keeps_out_setTime fuel time : keeps_out c (setTime host fuel time).
Proof.
  unfold setTime.
  apply keeps_out_bind; [apply keeps_out_state; intros s; apply new_Date_state|intros newTime].
  destruct (isNaN (getTime newTime)); [apply keeps_out_throw|].
  apply keeps_out_bind; [apply keeps_out_modify, audience_set_currentTime|intros _].
  apply keeps_out_announce.
Qed.

Lemma keeps_out_addTime fuel ms : keeps_out c (addTime host fuel ms).
Proof.
  unfold addTime. destruct (isNaN ms); [apply keeps_out_throw|].
  apply keeps_out_bind; [apply keeps_out_state; intros s; apply new_Date_state|intros newTime].
  apply keeps_out_bind; [apply keeps_out_modify, audience_set_currentTime|intros _].
  apply keeps_out_announce.
Qed.

Lemma keeps_out_resetToRealTime fuel : keeps_out c (resetToRealTime host fuel).
Proof.
  unfold resetToRealTime.
  apply keeps_out_bind; [apply keeps_out_state, construct_now_state|intros now].
  apply keeps_out_setTime.
Qed.

Lemma keeps_out_enable_body fuel b :
  keeps_out c (modify (set_enabled true) ≫= λ _,
               hijackNativeFunctions ≫= λ _,
               when b hijackLibraries ≫= λ _, notifySubscribers host fuel).
Proof.
  apply keeps_out_bind;
    [apply keeps_out_modify; intros s; destruct_state s; reflexivity|intros _].
  apply keeps_out_bind; [apply keeps_out_outside, outside_hijackNativeFunctions|intros _].
  apply keeps_out_bind;
    [apply keeps_out_when, keeps_out_outside, outside_hijackLibraries|intros _].
  apply keeps_out_notifySubscribers.
Qed.

Lemma keeps_out_enable fuel : keeps_out c (enable host fuel).
Proof.
  intros s Hq. unfold enable. destruct (enabled (controller s)).
  - split; [exact Hq | apply never_calls_refl].
  - destruct (negb _).
    + simpl. refine (keeps_out_audience (modify (console_log warn _ None)) _ s Hq).
      intros s0. destruct_state s0. reflexivity.
    + exact (keeps_out_enable_body fuel _ s Hq).
Qed.

Lemma keeps_out_disable_body fuel :
  keeps_out c (modify (set_enabled false) ≫= λ _,
               restoreNativeFunctions ≫= λ _,
               restoreLibraries ≫= λ _, notifySubscribers host fuel).
Proof.
  apply keeps_out_bind;
    [apply keeps_out_modify; intros s; destruct_state s; reflexivity|intros _].
  apply keeps_out_bind; [apply keeps_out_outside, outside_restoreNativeFunctions|intros _].
  apply keeps_out_bind; [apply keeps_out_outside, outside_restoreLibraries|intros _].
  apply keeps_out_notifySubscribers.
Qed.

Lemma keeps_out_disable fuel : keeps_out c (disable host fuel).
Proof.
  intros s Hq. unfold disable. destruct (negb (enabled (controller s))).
  - split; [exact Hq | apply never_calls_refl].
  - exact (keeps_out_disable_body fuel s Hq).
Qed.

Lemma keeps_out_subscribe c' : c' ≠ c → keeps_out c (subscribe c').
Proof.
  intros Hne s [Hs Ho]. unfold subscribe, modify. simpl. split; [split|].
  - destruct_state s. simpl in *. now apply not_member_add.
  - destruct_state s. exact Ho.
  - eapply never_calls_from; [|apply never_calls_refl]. destruct_state s. reflexivity.
Qed.

Lemma keeps_out_unsubscribe c' : keeps_out c (unsubscribe c').
Proof.
  intros s [Hs Ho]. unfold unsubscribe, modify. simpl. split; [split|].
  - destruct_state s. simpl in *. now apply not_member_delete.
  - destruct_state s. exact Ho.
  - eapply never_calls_from; [|apply never_calls_refl]. destruct_state s. reflexivity.
Qed.

Lemma keeps_out_updateOptions_body (b b' : bool) (o : optional callback) :
  o ≠ Given c →
  keeps_out c (when b (if b' then hijackLibraries else restoreLibraries) ≫= λ _ : unit,
               match o return M unit with
               | Given h => currentTime ← getCurrentTime host; call host h currentTime
               | Absent | Undefined => (mret tt : M unit)
               end).
Proof.
  intros Ho. apply keeps_out_bind.
  - apply keeps_out_when, keeps_out_outside.
    destruct b'; [apply outside_hijackLibraries | apply outside_restoreLibraries].
  - intros _. destruct o as [| |h]; [apply keeps_out_ret..|].
    apply keeps_out_bind; [apply keeps_out_getCurrentTime|intros d].
    apply keeps_out_call. congruence.
Qed.

Lemma keeps_out_updateOptions n :
  opt_onTimeChange n ≠ Given c → keeps_out c (updateOptions host n).
Proof.
  intros Hn s [Hs Ho]. unfold updateOptions.
  set (s1 := set_options (merge_options (options (controller s)) n) s).
  assert (quiet_for c s1) as Hq1.
  { subst s1. split; [destruct_state s; exact Hs|].
    destruct_state s. simpl in *.
    destruct (opt_onTimeChange n); simpl; [exact Ho | discriminate | congruence]. }
  destruct (keeps_out_updateOptions_body
              (enabled (controller s1)
               && negb (bool_decide
                          (options_hijackLibraries (options (controller s))
                           = options_hijackLibraries (options (controller s1)))))
              (wants_libraries s1)
              (opt_onTimeChange n) Hn s1 Hq1) as [Hq Hc].
  split; [exact Hq|].
  eapply never_calls_from; [|exact Hc]. subst s1. destruct_state s. reflexivity.
Qed.

Lemma not_member_clear (d : SetData) : Some c ∉ set_clear d.
Proof. unfold set_clear. rewrite list_elem_of_fmap. intros (e & He & _). discriminate. Qed.

Lemma keeps_out_destroy fuel : keeps_out c (destroy host fuel).
Proof.
  unfold destroy. apply keeps_out_bind; [apply keeps_out_disable|intros _].
  apply keeps_out_bind; [apply keeps_out_outside, outside_Hijacker_destroy|intros _].
  intros s [Hs Ho]. unfold modify. simpl. split; [split|].
  - destruct_state s. apply not_member_clear.
  - destruct_state s. exact Ho.
  - eapply never_calls_from; [|apply never_calls_refl]. destruct_state s. reflexivity.
Qed.

Lemma keeps_out_perform fuel o : leaves_out c o → keeps_out c (perform host fuel o).
Proof.
  destruct o; simpl; intros Ho.
  - apply keeps_out_setTime.
  - apply keeps_out_addTime.
  - apply keeps_out_addTime.
  - apply keeps_out_addTime.
  - apply keeps_out_addTime.
  - apply keeps_out_resetToRealTime.
  - apply keeps_out_enable.
  - apply keeps_out_disable.
  - now apply keeps_out_subscribe.
  - apply keeps_out_unsubscribe.
  - now apply keeps_out_updateOptions.
  - apply keeps_out_destroy.
  - apply keeps_out_modify. intros s. destruct_state s. reflexivity.
Qed.

Lemma keeps_out_run fuel ops s :
  Forall (leaves_out c) ops → quiet_for c s →
  quiet_for c (run host fuel ops s) ∧ never_calls c s (run host fuel ops s).
Proof.
  intros Hops. revert s. induction Hops as [|o ops Ho Hops IH]; intros s Hq; simpl.
  - split; [exact Hq | apply never_calls_refl].
  - destruct (keeps_out_perform fuel o Ho s Hq) as [Hq1 Hc1].
    destruct (perform host fuel o s) as [[] s1|e s1|s1]; simpl in *; auto;
      destruct (IH s1 Hq1) as [Hq2 Hc2]; split; auto; eapply never_calls_trans; eauto.
Qed.

End Quiet.

Lemma not_member_delete_self c (d : SetData) : Some c ∉ set_delete c d.
Proof.
  unfold set_delete. rewrite list_elem_of_fmap. intros (e & He & _).
  destruct (decide (e = Some c)); [discriminate | congruence].
Qed.

Lemma calls_to_none c new : (∀ p, p ∈ new → fst p ≠ c) → calls_to c new = [].
Proof.
  unfold calls_to. induction new as [|p new IH]; intros H; [reflexivity|].
  rewrite filter_cons_False by (apply H; now left).
  apply IH. intros q Hq. apply H. now right.
Qed.

Lemma subscribers_set_subscribers d s : subscribers (controller (set_subscribers d s)) = d.
Proof. destruct_state s. reflexivity. Qed.

Lemma state_of_subscribe c s :
  state_of (subscribe c s) = set_subscribers (set_add c (subscribers (controller s))) s.
Proof. reflexivity. Qed.

Lemma state_of_unsubscribe c s :
  state_of (unsubscribe c s) = set_subscribers (set_delete c (subscribers (controller s))) s.
Proof. reflexivity. Qed.

(** Subscribing a callback that is already subscribed changes nothing, the
    callback is a member afterwards, and one call of the function [subscribe]
    returned removes it, leaving the other members in their order. *)
Theorem subscribe_registers_once (s : state) (c : callback) :
  state_of (subscribe c (state_of (subscribe c s))) = state_of (subscribe c s)
  ∧ c ∈ members (subscribers (controller (state_of (subscribe c s))))
  ∧ members (subscribers (controller (state_of (unsubscribe c (state_of (subscribe c s))))))
    = filter (λ x, x ≠ c) (members (subscribers (controller s)))
  ∧ c ∉ members (subscribers (controller (state_of (unsubscribe c (state_of (subscribe c s)))))).
Proof.
  rewrite !state_of_unsubscribe, !state_of_subscribe.
  rewrite !subscribers_set_subscribers, set_subscribers_twice.
  set (d := subscribers (controller s)).
  assert (Some c ∈ set_add c d) as Hin.
  { unfold set_add, set_has. destruct (bool_decide_reflect (Some c ∈ d)); [assumption|].
    apply elem_of_app. right. now left. }
  split; [|split; [|split]].
  - f_equal. unfold set_add at 1, set_has. now rewrite bool_decide_eq_true_2.
  - now apply elem_of_members.
  - rewrite members_set_delete, members_set_add.
    destruct (bool_decide_reflect (c ∈ members d)) as [H|H]; [reflexivity|].
    rewrite filter_app, filter_cons_False, filter_nil, app_nil_r by auto. reflexivity.
  - rewrite elem_of_members. apply not_member_delete_self.
Qed.

(** Once a callback is unsubscribed the controller never calls it again,
    whatever is called on the controller afterwards, as long as nobody
    subscribes that callback again or installs it as [onTimeChange]. *)
Theorem unsubscribed_callback_stays_silent
    (host : Host) (fuel : nat) (c : callback) (ops : list op) (s : state) :
  (∀ c', Subscribe c ∉ behaviour host c') →
  options_onTimeChange (options (controller s)) ≠ Some (Handler c) →
  Forall (leaves_out c) ops →
  calls_to c (calls_since s (run host fuel ops (state_of (unsubscribe c s)))) = []
  ∧ c ∉ members (subscribers (controller (run host fuel ops (state_of (unsubscribe c s))))).
Proof.
  intros Hno Ho Hops.
  assert (quiet_for c (state_of (unsubscribe c s))) as Hq.
  { unfold unsubscribe, modify. simpl. split; destruct_state s; simpl;
      [apply not_member_delete_self | exact Ho]. }
  destruct (keeps_out_run host c Hno fuel ops _ Hops Hq) as [[Hs _] (new & Hcalls & Hnew)].
  split.
  - rewrite (calls_since_app s _ new); [now apply calls_to_none|].
    rewrite Hcalls, state_of_unsubscribe. destruct_state s. reflexivity.
  - now rewrite elem_of_members.
Qed.

(** Callback 5 of the controller with the subscribers 4 and 5. *)
Lemma unsubscribed_callback_stays_silent_witness :
  calls_to 5%nat
    (calls_since meddling_subscriber
       (run example_host 10 calls_without_5 (state_of (unsubscribe 5%nat meddling_subscriber))))
  = []
  ∧ 5%nat ∉ members (subscribers (controller
       (run example_host 10 calls_without_5 (state_of (unsubscribe 5%nat meddling_subscriber))))).
Proof.
  apply (unsubscribed_callback_stays_silent example_host 10 5%nat calls_without_5
           meddling_subscriber).
  - intros c'. do 10 (destruct c' as [|c']; [simpl; refute_membership|]).
    simpl. refute_membership.
  - vm_compute. discriminate.
  - unfold calls_without_5. repeat constructor; simpl; discriminate.
Defined.

(** ** The methods of the controller, step by step *)

Section NormalForms.

Variable host : Host.

Lemma enable_eq fuel s :
  enable host fuel s
  = if enabled (controller s) then Returned tt s
    else if shouldEnableTimeControl (signals (globals s))
              (options_environment (options (controller s)))
    then notifySubscribers host fuel (activated s)
    else Returned tt (console_log warn policy_warning None s).
Proof.
  destruct (enabled (controller s)) eqn:En; [unfold enable; now rewrite En|].
  destruct (shouldEnableTimeControl _ _) eqn:Ok; [now apply enable_activated|].
  unfold enable. now rewrite En, Ok.
Qed.

Lemma disable_eq fuel s :
  disable host fuel s
  = if enabled (controller s)
    then notifySubscribers host fuel (deactivated s)
    else Returned tt s.
Proof.
  destruct (enabled (controller s)) eqn:En; [now apply disable_deactivated|].
  unfold disable. now rewrite En.
Qed.

Lemma Hijacker_destroy_eq s :
  Hijacker_destroy s
  = Returned tt
      (set_backup None (state_of (restoreLibraries (state_of (restoreNativeFunctions s))))).
Proof.
  unfold Hijacker_destroy.
  rewrite bind_unfold, (restoreNativeFunctions_returns _).
  rewrite bind_unfold, (restoreLibraries_returns _). reflexivity.
Qed.

Lemma destroy_eq fuel s :
  destroy host fuel s
  = match disable host fuel s with
    | Returned _ s1 =>
        let s2 := set_backup None
                    (state_of (restoreLibraries (state_of (restoreNativeFunctions s1)))) in
        Returned tt (set_subscribers (set_clear (subscribers (controller s2))) s2)
    | Thrown e s1 => Thrown e s1
    | Diverged s1 => Diverged s1
    end.
Proof.
  unfold destroy. rewrite bind_unfold.
  destruct (disable host fuel s) as [[] s1|e s1|s1]; try reflexivity.
  rewrite bind_unfold, Hijacker_destroy_eq. reflexivity.
Qed.

Lemma updateOptions_eq n s :
  updateOptions host n s
  = match opt_onTimeChange n with
    | Given h => (currentTime ← getCurrentTime host; call host h currentTime) (reconfigured n s)
    | Absent | Undefined => Returned tt (reconfigured n s)
    end.
Proof.
  unfold updateOptions, reconfigured. cbv zeta. rewrite bind_unfold.
  rewrite (always_returns_when _ _
             (if wants_libraries _ as b
                return always_returns (if b then hijackLibraries else restoreLibraries)
              then hijackLibraries_returns else restoreLibraries_returns) _).
  destruct (opt_onTimeChange n); reflexivity.
Qed.

Lemma erased_updateOptions n s :
  observers_erased (state_of (updateOptions host n s)) = observers_erased (reconfigured n s).
Proof.
  rewrite updateOptions_eq. destruct (opt_onTimeChange n) as [| |h]; [reflexivity..|].
  apply erased_bind; [now rewrite getCurrentTime_state|].
  intros d s1. apply erased_call.
Qed.

End NormalForms.

(** ** The virtual instant stands still *)

Section Instant.

Variable host : Host.

Local Abbreviation instant s := (currentTime (controller s)).

Lemma instant_erased s s' : observers_erased s' = observers_erased s → instant s' = instant s.
Proof. intros H. rewrite (erased_inv _ _ H). destruct_state s. reflexivity. Qed.

Lemma instant_outside s s' : outside_hijacker s' = outside_hijacker s → instant s' = instant s.
Proof. unfold outside_hijacker. intros H. simplify_eq. congruence. Qed.

Lemma instant_when_libraries b s :
  instant (state_of (when b hijackLibraries s)) = instant s.
Proof. destruct b; [apply instant_outside, outside_hijackLibraries | reflexivity]. Qed.

Lemma instant_activated s : instant (activated s) = instant s.
Proof.
  unfold activated. rewrite instant_when_libraries.
  rewrite (instant_outside _ _ (outside_hijackNativeFunctions _)).
  destruct_state s. reflexivity.
Qed.

Lemma instant_deactivated s : instant (deactivated s) = instant s.
Proof.
  unfold deactivated.
  rewrite (instant_outside _ _ (outside_restoreLibraries _)).
  rewrite (instant_outside _ _ (outside_restoreNativeFunctions _)).
  destruct_state s. reflexivity.
Qed.

Lemma instant_enable fuel s : instant (state_of (enable host fuel s)) = instant s.
Proof.
  rewrite enable_eq. destruct (enabled (controller s)); [reflexivity|].
  destruct (shouldEnableTimeControl _ _).
  - rewrite (instant_erased _ _ (notifySubscribers_erased host fuel _)).
    apply instant_activated.
  - destruct_state s. reflexivity.
Qed.

Lemma instant_disable fuel s : instant (state_of (disable host fuel s)) = instant s.
Proof.
  rewrite disable_eq. destruct (enabled (controller s)); [|reflexivity].
  rewrite (instant_erased _ _ (notifySubscribers_erased host fuel _)).
  apply instant_deactivated.
Qed.

Lemma instant_set_backup b s : instant (set_backup b s) = instant s.
Proof. destruct_state s. reflexivity. Qed.

Lemma instant_set_subscribers d s : instant (set_subscribers d s) = instant s.
Proof. destruct_state s. reflexivity. Qed.

Lemma instant_destroy fuel s : instant (state_of (destroy host fuel s)) = instant s.
Proof.
  rewrite destroy_eq. pose proof (instant_disable fuel s) as H.
  destruct (disable host fuel s) as [[] s1|e s1|s1]; cbn [state_of] in *; try exact H.
  cbv zeta. rewrite instant_set_subscribers, instant_set_backup.
  rewrite (instant_outside _ _ (outside_restoreLibraries _)).
  rewrite (instant_outside _ _ (outside_restoreNativeFunctions _)). exact H.
Qed.

Lemma instant_reconfigured n s : instant (reconfigured n s) = instant s.
Proof.
  unfold reconfigured. cbv zeta.
  set (s1 := set_options _ s).
  set (b := enabled (controller s1) && _).
  destruct b; [|subst s1; destruct_state s; reflexivity].
  destruct (wants_libraries s1); simpl;
    [rewrite (instant_outside _ _ (outside_hijackLibraries _))
    |rewrite (instant_outside _ _ (outside_restoreLibraries _))];
    subst s1; destruct_state s; reflexivity.
Qed.

Lemma instant_updateOptions n s : instant (state_of (updateOptions host n s)) = instant s.
Proof.
  rewrite (instant_erased _ _ (erased_updateOptions host n s)). apply instant_reconfigured.
Qed.

Lemma instant_perform fuel o s :
  moves_instant o = false → instant (state_of (perform host fuel o s)) = instant s.
Proof.
  destruct o; try discriminate; intros _; simpl.
  - apply instant_enable.
  - apply instant_disable.
  - destruct_state s. reflexivity.
  - destruct_state s. reflexivity.
  - apply instant_updateOptions.
  - apply instant_destroy.
  - destruct_state s. reflexivity.
Qed.

Lemma instant_run fuel ops s :
  Forall (λ o, moves_instant o = false) ops → instant (run host fuel ops s) = instant s.
Proof.
  intros Hops. revert s. induction Hops as [|o ops Ho Hops IH]; intros s; [reflexivity|].
  simpl. pose proof (instant_perform fuel o s Ho) as H.
  destruct (perform host fuel o s) as [[] s1|e s1|s1]; simpl in *;
    [rewrite IH | rewrite IH |]; exact H.
Qed.

End Instant.

(** The virtual clock does not tick: whatever wall-clock time passes, and
    whatever is enabled, disabled, subscribed, reconfigured or destroyed, the
    controller holds the same instant until [setTime], one of the [add]
    methods or [resetToRealTime] is called, and that instant is what
    [getCurrentTime ()] returns whenever it returns. *)
Theorem virtual_time_stands_still (host : Host) (fuel : nat) (ops : list op) (s : state) :
  Forall (λ o, moves_instant o = false) ops →
  currentTime (controller (run host fuel ops s)) = currentTime (controller s)
  ∧ virtual_instant (run host fuel ops s) = virtual_instant s
  ∧ ∀ d, reads host (run host fuel ops s) = Some d → d = virtual_instant s.
Proof.
  intros Hops. pose proof (instant_run host fuel ops s Hops) as H.
  split; [exact H|]. unfold virtual_instant at 1 2. rewrite H. split; [reflexivity|].
  intros d Hd. unfold reads in Hd.
  destruct (getCurrentTime host (run host fuel ops s)) as [d' s'|e s'|s'] eqn:G;
    [|discriminate..].
  apply getCurrentTime_returned in G as (_ & -> & _). injection Hd as <-.
  unfold virtual_instant. now rewrite H.
Qed.

(** Noon of new year's day, through two activations and a day of
    wall-clock time. *)
Lemma virtual_time_stands_still_witness :
  Forall (λ o, moves_instant o = false) calls_around_the_clock
  ∧ reads example_host (run example_host 10 calls_around_the_clock new_year_controller)
    = Some (DateAt noon_new_year_2024)
  ∧ DateAt noon_new_year_2024 = virtual_instant new_year_controller.
Proof.
  assert (Forall (λ o, moves_instant o = false) calls_around_the_clock) as H
    by (unfold calls_around_the_clock; repeat constructor).
  split; [exact H|].
  assert (reads example_host (run example_host 10 calls_around_the_clock new_year_controller)
          = Some (DateAt noon_new_year_2024)) as R by (vm_compute; reflexivity).
  split; [exact R|].
  exact (proj2 (proj2 (virtual_time_stands_still example_host 10 _ new_year_controller H))
           _ R).
Defined.

(** ** Invariants of a controller *)

Section MutatorFrame.

Variable host : Host.

Lemma mutator_frame fuel o s :
  moves_instant o = true →
  ∃ d, observers_erased (state_of (perform host fuel o s))
       = observers_erased (set_currentTime d s).
Proof.
  destruct o; try discriminate; intros _; simpl.
  - apply setTime_frame.
  - apply addTime_frame.
  - apply addTime_frame.
  - apply addTime_frame.
  - apply addTime_frame.
  - apply resetToRealTime_frame.
Qed.

End MutatorFrame.

Section Invariant.

Variable host : Host.
Variable I : state → Prop.

Hypothesis I_frame :
  ∀ d s s', observers_erased s' = observers_erased (set_currentTime d s) → I s → I s'.
Hypothesis I_clock : ∀ t s, I s → I (set_clock t s).
Hypothesis I_enable : ∀ s, I s → enabled (controller s) = false → I (activated s).
Hypothesis I_disable : ∀ s, I s → enabled (controller s) = true → I (deactivated s).
Hypothesis I_teardown :
  ∀ s, I s → enabled (controller s) = false →
    I (set_backup None (state_of (restoreLibraries (state_of (restoreNativeFunctions s))))).
Hypothesis I_options : ∀ n s, I s → I (reconfigured n s).

Lemma I_erased s s' : observers_erased s' = observers_erased s → I s → I s'.
Proof.
  intros H. apply (I_frame (currentTime (controller s))). now rewrite set_currentTime_same.
Qed.

Lemma invariant_enable fuel s : I s → I (state_of (enable host fuel s)).
Proof.
  intros Hs. rewrite enable_eq. destruct (enabled (controller s)) eqn:En; [exact Hs|].
  destruct (shouldEnableTimeControl _ _).
  - eapply I_erased; [apply notifySubscribers_erased|]. now apply I_enable.
  - eapply I_erased; [|exact Hs]. apply erased_console_log.
Qed.

Lemma invariant_disable fuel s : I s → I (state_of (disable host fuel s)).
Proof.
  intros Hs. rewrite disable_eq. destruct (enabled (controller s)) eqn:En; [|exact Hs].
  eapply I_erased; [apply notifySubscribers_erased|]. now apply I_disable.
Qed.

Lemma invariant_destroy fuel s : I s → I (state_of (destroy host fuel s)).
Proof.
  intros Hs. rewrite destroy_eq.
  pose proof (invariant_disable fuel s Hs) as H.
  pose proof (policy_disable host fuel s) as Hp.
  destruct (disable host fuel s) as [[] s1|e s1|s1]; cbn [state_of] in *; try exact H.
  cbv zeta. eapply I_erased; [apply erased_set_subscribers|].
  apply I_teardown; [exact H|]. unfold policy in Hp. congruence.
Qed.

Lemma invariant_updateOptions n s : I s → I (state_of (updateOptions host n s)).
Proof.
  intros Hs. eapply I_erased; [apply erased_updateOptions|]. now apply I_options.
Qed.

Lemma invariant_perform fuel o s : I s → I (state_of (perform host fuel o s)).
Proof.
  intros Hs. destruct (moves_instant o) eqn:Ho.
  - destruct (mutator_frame host fuel o s Ho) as [d Hd]. exact (I_frame d s _ Hd Hs).
  - destruct o; try discriminate; simpl.
    + now apply invariant_enable.
    + now apply invariant_disable.
    + eapply I_erased; [apply erased_set_subscribers|exact Hs].
    + eapply I_erased; [apply erased_set_subscribers|exact Hs].
    + now apply invariant_updateOptions.
    + now apply invariant_destroy.
    + now apply I_clock.
Qed.

Lemma invariant_run fuel ops s : I s → I (run host fuel ops s).
Proof.
  revert s. induction ops as [|o ops IH]; intros s Hs; [exact Hs|].
  simpl. pose proof (invariant_perform fuel o s Hs) as H.
  destruct (perform host fuel o s) as [[] s1|e s1|s1]; cbn [state_of] in H; auto.
Qed.

Lemma invariant_constructor fuel p opts :
  I (State {| currentTime := DateAt (platform_clock p); enabled := false;
              subscribers := []; options := constructor_options p opts |}
       {| backup := None; isHijacked := false |} (pristine p)) →
  I (state_of (new_TimeControllerImpl host fuel p opts)).
Proof.
  intros H0. rewrite new_TimeControllerImpl_eq.
  rewrite state_of_bind.
  match goal with |- context [setTime host fuel ?time ?s0] =>
    pose proof (invariant_perform fuel (OpSetTime time) s0 H0) as H1;
    cbn [perform] in H1; destruct (setTime host fuel time s0) as [[] s1|e s1|s1] end;
    cbn [state_of] in *; try exact H1.
  rewrite state_of_bind. cbv beta.
  match goal with |- context [when ?b (enable host fuel) s1] =>
    assert (I (state_of (when b (enable host fuel) s1))) as H2
      by (destruct b; unfold when; [now apply invariant_enable | exact H1]);
    destruct (when b (enable host fuel) s1) as [[] s2|e s2|s2] end;
    cbn [state_of] in *; try exact H2.
  eapply I_erased; [|exact H2].
  unfold logEnvironmentInfo.
  destruct (negb _ || negb _); [reflexivity|].
  destruct (enabled (controller s2)); [apply erased_console_log|].
  destruct (getEnvironmentWarning _); apply erased_console_log.
Qed.

End Invariant.
(** *** [globalThis.Date] *)

Section DateCoherent.

Variable host : Host.

Lemma preserves_bind {B} (f : state → B) (m : M unit) (k : unit → M unit) :
  preserves f m → (∀ a, preserves f (k a)) → preserves f (m ≫= k).
Proof.
  intros Hm Hk s. rewrite state_of_bind. specialize (Hm s).
  destruct (m s) as [a s1|e s1|s1]; simpl in *; [rewrite Hk|..]; exact Hm.
Qed.

Lemma libraries_hijackMoment : preserves outside_libraries hijackMoment.
Proof.
  intros s. unfold hijackMoment. destruct (find_moment s); [|reflexivity].
  destruct (moment_now (globals s)); first [reflexivity | destruct_state s; reflexivity].
Qed.

Lemma libraries_restoreMoment : preserves outside_libraries restoreMoment.
Proof.
  intros s. unfold restoreMoment. destruct (moment_global (globals s)); [|reflexivity].
  destruct (moment_now (globals s)) as [now|]; [|reflexivity].
  destruct (get_original _ now) as [o|]; [|reflexivity].
  unfold delete_original.
  destruct (stamp_of o); first [reflexivity | destruct_state s; reflexivity].
Qed.

Lemma libraries_hijackDayjs : preserves outside_libraries hijackDayjs.
Proof.
  intros s. unfold hijackDayjs. destruct (find_dayjs s); [|reflexivity]. simpl.
  destruct (dayjs_global (globals s)); first [reflexivity | destruct_state s; reflexivity].
Qed.

Lemma libraries_restoreDayjs : preserves outside_libraries restoreDayjs.
Proof.
  intros s. unfold restoreDayjs. destruct (dayjs_global (globals s)) as [f|]; [|reflexivity].
  destruct (get_original _ f); first [reflexivity | destruct_state s; reflexivity].
Qed.

Lemma libraries_hijackLibraries : preserves outside_libraries hijackLibraries.
Proof.
  unfold hijackLibraries.
  apply preserves_bind; [apply libraries_hijackMoment|intros _].
  apply preserves_bind; [apply libraries_hijackDayjs|intros _].
  intros s; reflexivity.
Qed.

Lemma libraries_restoreLibraries : preserves outside_libraries restoreLibraries.
Proof.
  unfold restoreLibraries.
  apply preserves_bind; [apply libraries_restoreMoment|intros _].
  apply preserves_bind; [apply libraries_restoreDayjs|intros _].
  intros s; reflexivity.
Qed.

Lemma Date_coherent_frame d s s' :
  observers_erased s' = observers_erased (set_currentTime d s) →
  Date_coherent s → Date_coherent s'.
Proof. intros H. rewrite (erased_inv _ _ H). destruct_state s. exact id. Qed.

Lemma Date_coherent_libraries s s' :
  outside_libraries s' = outside_libraries s → Date_coherent s → Date_coherent s'.
Proof.
  unfold outside_libraries, Date_coherent. intros H. simplify_eq.
  destruct s as [c h g], s' as [c' h' g']. simpl in *. subst.
  match goal with E : globalDate _ = globalDate _ |- _ => now rewrite E end.
Qed.

Lemma Date_coherent_clock t s : Date_coherent s → Date_coherent (set_clock t s).
Proof. destruct_state s. exact id. Qed.

Lemma Date_coherent_enable s :
  Date_coherent s → enabled (controller s) = false → Date_coherent (activated s).
Proof.
  intros [Hh Hd] En. unfold activated.
  apply (Date_coherent_libraries (state_of (hijackNativeFunctions (set_enabled true s)))).
  { destruct (wants_libraries s); [apply libraries_hijackLibraries | reflexivity]. }
  rewrite En in Hh, Hd. unfold hijackNativeFunctions.
  destruct_state s. simpl in *. subst. simpl.
  split; [reflexivity|]. simpl. split; [eexists; reflexivity | reflexivity].
Qed.

Lemma Date_coherent_disable s :
  Date_coherent s → enabled (controller s) = true → Date_coherent (deactivated s).
Proof.
  intros [Hh Hd] En. unfold deactivated.
  apply (Date_coherent_libraries (state_of (restoreNativeFunctions (set_enabled false s)))).
  { apply libraries_restoreLibraries. }
  rewrite En in Hh, Hd. destruct Hd as [[k Hk] Hb]. unfold restoreNativeFunctions.
  destruct_state s. simpl in *. subst. simpl. split; reflexivity.
Qed.

Lemma Date_coherent_teardown s :
  Date_coherent s → enabled (controller s) = false →
  Date_coherent (set_backup None
                   (state_of (restoreLibraries (state_of (restoreNativeFunctions s))))).
Proof.
  intros [Hh Hd] En. rewrite En in Hh, Hd.
  assert (state_of (restoreNativeFunctions s) = s) as ->
    by (unfold restoreNativeFunctions; now rewrite Hh).
  pose proof (libraries_restoreLibraries s) as H.
  unfold outside_libraries in H. simplify_eq.
  destruct (state_of (restoreLibraries s)) as [c' h' g']. simpl in *. subst.
  unfold Date_coherent. simpl. rewrite Hh, En. split; [reflexivity | congruence].
Qed.

Lemma Date_coherent_options n s : Date_coherent s → Date_coherent (reconfigured n s).
Proof.
  intros H. unfold reconfigured. cbv zeta. set (s1 := set_options _ s).
  apply (Date_coherent_libraries s1).
  - destruct (_ && _); [|reflexivity].
    destruct (wants_libraries s1);
      [apply libraries_hijackLibraries | apply libraries_restoreLibraries].
  - subst s1. destruct_state s. exact H.
Qed.

Lemma Date_coherent_run fuel p opts ops :
  Date_coherent (run host fuel ops (state_of (new_TimeControllerImpl host fuel p opts))).
Proof.
  apply invariant_run;
    try (apply invariant_constructor);
    eauto using Date_coherent_frame, Date_coherent_clock, Date_coherent_enable,
      Date_coherent_disable, Date_coherent_teardown, Date_coherent_options.
  all: try (split; reflexivity).
Qed.

(** On an enabled controller [getCurrentTime ()] throws. *)
Lemma Date_follows_activation fuel p opts ops :
  let s := run host fuel ops (state_of (new_TimeControllerImpl host fuel p opts)) in
  Date_coherent s
  ∧ (isActive s = false → native s)
  ∧ (isActive s = true → getCurrentTime host s = Thrown not_a_constructor s).
Proof.
  intros s. pose proof (Date_coherent_run fuel p opts ops) as H. fold s in H.
  split; [exact H|]. destruct H as [_ Hd]. unfold isActive.
  split; intros En; rewrite En in Hd; [exact Hd|].
  destruct Hd as [[k Hk] _]. apply getCurrentTime_intercepted.
  unfold intercepted. now rewrite Hk.
Qed.

End DateCoherent.

(** *** The libraries *)

Section LibrariesCoherent.

Variable host : Host.
Variable p : Platform.




Lemma libraries_wrap s :
  libraries_state p false (globals s) →
  libraries_state p true (globals (state_of (hijackLibraries s))).
Proof.
  destruct_state s. destruct p as [sg clk mg mr dg dr].
  unfold libraries_state, libraries_found, libraries_wrapped, libraries_shipped,
    wrapped_once. simpl.
  intros [(-> & -> & ->) [-> ->]].
  destruct mg, mr, dg, dr; simpl.
  all: repeat split.
  all: eexists; (split; [|split; [reflexivity|]]); [lia|].
  all: first [apply lookup_insert_eq | rewrite lookup_insert_ne by lia; apply lookup_insert_eq].
Qed.

Lemma libraries_unwrap s :
  moment_on_globalThis p →
  libraries_state p true (globals s) →
  libraries_state p false (globals (state_of (restoreLibraries s))).
Proof.
  destruct_state s. destruct p as [sg clk mg mr dg dr].
  unfold moment_on_globalThis, libraries_state, libraries_found, libraries_wrapped,
    libraries_shipped, wrapped_once. simpl.
  intros Hp [(-> & -> & ->) [Hm Hd]].
  destruct mg, mr; try (specialize (Hp eq_refl); discriminate); simpl in *;
    destruct dg; simpl in *.
  all: repeat match goal with
         | H : ∃ _, _ |- _ => destruct H as (? & ? & -> & ?)
         | H : _ = None |- _ => rewrite H
         end.
  all: unfold restoreLibraries, restoreMoment, restoreDayjs, restoreDateFns, delete_original,
         mbind, M_bind, mret, M_ret; simpl.
  all: repeat match goal with H : _ !! _ = Some _ |- _ => rewrite H; simpl end.
  all: repeat split.
Qed.


Hypothesis on_globalThis : moment_on_globalThis p.









End LibrariesCoherent.

(** Through the controller the hijack of [Date] follows the activation state,
    whatever is called on the controller after its construction.  While it
    is not enabled [globalThis.Date] is the platform's own: [new Date ()] and
    [Date.now ()] read the wall clock and [getCurrentTime ()] returns the
    instant held.  While it is enabled [globalThis.Date] is one
    [ControlledDate] around the platform's own, and [new Date ()],
    [Date.now ()] and [getCurrentTime ()] all throw the [TypeError] of the
    shim. *)
Theorem controller_keeps_Date_coherent
    (host : Host) (fuel : nat) (p : Platform) (opts : TimeControlOptions) (ops : list op) :
  let s := run host fuel ops (state_of (new_TimeControllerImpl host fuel p opts)) in
  Hijacker_isActive s = isActive s
  ∧ (isActive s = false →
     globalDate (globals s) = NativeDate
     ∧ construct_now host (globalDate (globals s)) s = Returned (DateAt (clock (globals s))) s
     ∧ call_now host (now_of (globalDate (globals s))) s
       = Returned (of_Z (clock (globals s))) s
     ∧ getCurrentTime host s = Returned (virtual_instant s) s)
  ∧ (isActive s = true →
     (∃ k, globalDate (globals s) = ControlledDate k NativeDate)
     ∧ construct_now host (globalDate (globals s)) s = Thrown not_a_constructor s
     ∧ call_now host (now_of (globalDate (globals s))) s = Thrown not_a_constructor s
     ∧ getCurrentTime host s = Thrown not_a_constructor s).
Proof.
  intros s. destruct (Date_coherent_run host fuel p opts ops) as [Hh Hd].
  fold s in Hh, Hd. unfold Hijacker_isActive, isActive.
  split; [exact Hh|]. split; intros En; rewrite En in Hd.
  - split; [exact Hd|]. rewrite Hd. split; [reflexivity|]. split; [reflexivity|].
    now apply getCurrentTime_native.
  - destruct Hd as [[k Hk] Hb].
    assert (intercepted s) as I by (unfold intercepted; now rewrite Hk).
    pose proof (getCurrentTime_intercepted host s I) as G.
    split; [eauto|]. rewrite Hk. split; [|split; [|exact G]].
    + cbn [construct_now]. now rewrite bind_unfold, G.
    + unfold call_now, now_of, isActive. rewrite En. cbn [negb].
      now rewrite bind_unfold, G.
Qed.

(** The controller that [enable ()] has activated: [new Date ()] throws. *)
Lemma controller_keeps_Date_coherent_witness :
  let s := run example_host 10 calls_while_enabled
             (state_of (new_TimeControllerImpl example_host 10 (example_platform "test")
                          (example_options (Given false) Absent))) in
  isActive s = true
  ∧ construct_now example_host (globalDate (globals s)) s = Thrown not_a_constructor s.
Proof.
  intros s.
  assert (isActive s = true) as En by (vm_compute; reflexivity).
  split; [exact En|].
  exact (proj1 (proj2 (proj2 (proj2 (controller_keeps_Date_coherent example_host 10
           (example_platform "test") (example_options (Given false) Absent)
           calls_while_enabled)) En))).
Defined.



(** ** [destroy] *)

Lemma backup_set_subscribers d s : backup (hijacker (set_subscribers d s)) = backup (hijacker s).
Proof. destruct_state s. reflexivity. Qed.

Lemma backup_set_backup b s : backup (hijacker (set_backup b s)) = b.
Proof. destruct_state s. reflexivity. Qed.

Lemma destroy_returned (host : Host) (fuel : nat) (s s' : state) :
  destroy host fuel s = Returned tt s' →
  isActive s' = false
  ∧ members (subscribers (controller s')) = []
  ∧ backup (hijacker s') = None
  ∧ options (controller s') = options (controller s)
  ∧ currentTime (controller s') = currentTime (controller s).
Proof.
  intros H.
  pose proof (policy_destroy host fuel s) as Hp.
  pose proof (instant_destroy host fuel s) as Hi.
  rewrite H in Hp, Hi. cbn [state_of] in Hp, Hi. unfold policy in Hp.
  injection Hp as En Ho.
  assert (members (subscribers (controller s')) = [] ∧ backup (hijacker s') = None)
    as [Hm Hb].
  { rewrite destroy_eq in H.
    destruct (disable host fuel s) as [[] s1|e s1|s1]; try discriminate.
    cbv zeta in H. injection H as <-.
    rewrite subscribers_set_subscribers, members_set_clear.
    now rewrite backup_set_subscribers, backup_set_backup. }
  auto.
Qed.

(** After [restoreNativeFunctions] the hijacker is not installed, or has
    no backup; in such a state [restoreNativeFunctions] does nothing. *)
Lemma restoreNativeFunctions_settled s :
  isHijacked (hijacker (state_of (restoreNativeFunctions s))) = false
  ∨ backup (hijacker (state_of (restoreNativeFunctions s))) = None.
Proof.
  unfold restoreNativeFunctions.
  destruct (isHijacked (hijacker s)) eqn:Hj, (backup (hijacker s)) eqn:Hb; simpl; auto.
Qed.

Lemma restoreNativeFunctions_nothing s :
  isHijacked (hijacker s) = false ∨ backup (hijacker s) = None →
  restoreNativeFunctions s = Returned tt s.
Proof.
  unfold restoreNativeFunctions. intros [-> | ->]; [reflexivity|].
  destruct (isHijacked _); reflexivity.
Qed.

(** [destroy] of an enabled controller, when it returns, leaves the
    platform's own [Date] bound: the round of [disable] has returned, so
    [disable] had restored it, and the hijacker has nothing more to
    restore. *)
Lemma destroy_native (host : Host) (fuel : nat) (s s' : state) :
  isActive s = true → destroy host fuel s = Returned tt s' → native s'.
Proof.
  unfold isActive. intros En H. rewrite destroy_eq in H.
  rewrite (disable_deactivated host fuel s En) in H.
  destruct (notifySubscribers host fuel (deactivated s)) as [[] s1|e s1|s1] eqn:Hn;
    try discriminate.
  cbv zeta in H. injection H as <-.
  pose proof (notifySubscribers_returned host fuel _ _ Hn) as N.
  pose proof (notifySubscribers_erased host fuel (deactivated s)) as Her.
  rewrite Hn in Her. cbn [state_of] in Her.
  destruct (globals_erased _ _ Her) as [HD Hh].
  assert (restoreNativeFunctions s1 = Returned tt s1) as Hr.
  { apply restoreNativeFunctions_nothing. rewrite Hh. unfold deactivated.
    pose proof (libraries_restoreLibraries
                  (state_of (restoreNativeFunctions (set_enabled false s)))) as Hl.
    unfold outside_libraries in Hl.
    assert (hijacker (state_of (restoreLibraries
                (state_of (restoreNativeFunctions (set_enabled false s)))))
            = hijacker (state_of (restoreNativeFunctions (set_enabled false s)))) as ->
      by congruence.
    apply restoreNativeFunctions_settled. }
  rewrite Hr. cbn [state_of]. unfold native.
  replace (globalDate (globals (set_subscribers _ _)))
    with (globalDate (globals (state_of (restoreLibraries s1)))).
  - rewrite globalDate_restoreLibraries, HD. exact N.
  - destruct (state_of (restoreLibraries s1)) as [c h g]. reflexivity.
Qed.

(** When [destroy] returns, the controller is not enabled, has no subscriber
    left and its hijacker has dropped the backup; the options, [onTimeChange]
    among them, and the virtual instant are kept, and after the [destroy] of
    an enabled controller [getCurrentTime ()] returns that instant.  A later
    [setTime] calls no subscriber any more, but still calls
    [onTimeChange]. *)
Theorem destroy_releases_subscribers (host : Host) (fuel : nat) (s s' : state) :
  destroy host fuel s = Returned tt s' →
  isActive s' = false
  ∧ members (subscribers (controller s')) = []
  ∧ backup (hijacker s') = None
  ∧ options (controller s') = options (controller s)
  ∧ currentTime (controller s') = currentTime (controller s)
  ∧ virtual_instant s' = virtual_instant s
  ∧ (isActive s = true → getCurrentTime host s' = Returned (virtual_instant s) s')
  ∧ ∀ time t,
      (length (subscribers (controller s')) < fuel)%nat →
      construct host (globalDate (globals s')) time s' = Returned (DateAt t) s' →
      calls_since s' (state_of (setTime host fuel time s'))
      = option_list ((λ h, (h, DateAt t))
                       <$> host_handler (options_onTimeChange (options (controller s)))).
Proof.
  intros H. destruct (destroy_returned host fuel s s' H) as (En & Hm & Hb & Ho & Hi).
  assert (virtual_instant s' = virtual_instant s) as Hv
    by (unfold virtual_instant; now rewrite Hi).
  repeat match goal with |- _ ∧ _ => split end; try assumption.
  - intros Ea. pose proof (destroy_native host fuel s s' Ea H) as N.
    now rewrite (getCurrentTime_native host s' N), Hv.
  - intros time t Hf E. apply new_Date_returned in E as (N & E & _).
    rewrite (setTime_calls host fuel time s' t N E); [|..|exact Hf].
    + now rewrite Hm, Ho.
    + unfold membership_kept. now rewrite Hm.
Qed.

(** The controller with subscriber 1 that [enable ()] has activated, at
    instant 1000. *)
Lemma destroy_releases_subscribers_witness :
  destroy example_host 10 busy_controller
  = Returned tt (state_of (destroy example_host 10 busy_controller))
  ∧ members (subscribers (controller busy_controller)) = [1%nat]
  ∧ members (subscribers (controller (state_of (destroy example_host 10 busy_controller)))) = []
  ∧ reads example_host busy_controller = None
  ∧ reads example_host (state_of (destroy example_host 10 busy_controller))
    = Some (DateAt 1000).
Proof.
  assert (destroy example_host 10 busy_controller
          = Returned tt (state_of (destroy example_host 10 busy_controller))) as H
    by (vm_compute; reflexivity).
  split; [exact H|]. split; [vm_compute; reflexivity|].
  split; [exact (proj1 (proj2 (destroy_releases_subscribers example_host 10
                                  busy_controller _ H)))|].
  split; [vm_compute; reflexivity|].
  unfold reads.
  rewrite (proj1 (proj2 (proj2 (proj2 (proj2 (proj2 (proj2
             (destroy_releases_subscribers example_host 10 busy_controller _ H)))))))
             eq_refl).
  vm_compute. reflexivity.
Defined.

(** ** [updateOptions] *)

Section Options.

Variable host : Host.

Lemma outside_toggle (b new : bool) s :
  outside_hijacker
    (state_of (when b (if new then hijackLibraries else restoreLibraries) s))
  = outside_hijacker s.
Proof.
  destruct b; [|reflexivity].
  destruct new; [apply outside_hijackLibraries | apply outside_restoreLibraries].
Qed.

Lemma libraries_toggle (b new : bool) s :
  outside_libraries
    (state_of (when b (if new then hijackLibraries else restoreLibraries) s))
  = outside_libraries s.
Proof.
  destruct b; [|reflexivity].
  destruct new; [apply libraries_hijackLibraries | apply libraries_restoreLibraries].
Qed.

(** Reconfiguring changes the options and the library wrappers only. *)
Lemma reconfigured_frame n s :
  calls (globals (reconfigured n s)) = calls (globals s)
  ∧ currentTime (controller (reconfigured n s)) = currentTime (controller s)
  ∧ globalDate (globals (reconfigured n s)) = globalDate (globals s).
Proof.
  unfold reconfigured. cbv zeta.
  set (s1 := set_options _ s). set (b := enabled (controller s1) && _).
  pose proof (outside_toggle b (wants_libraries s1) s1) as Ho.
  pose proof (libraries_toggle b (wants_libraries s1) s1) as Hl.
  set (s2 := state_of (when b _ s1)) in *.
  unfold outside_hijacker in Ho. unfold outside_libraries in Hl. simplify_eq.
  repeat split.
  - etransitivity; [eassumption|]. subst s1. destruct_state s. reflexivity.
  - etransitivity; [apply f_equal; eassumption|]. subst s1. destruct_state s. reflexivity.
  - etransitivity; [eassumption|]. subst s1. destruct_state s. reflexivity.
Qed.

Lemma virtual_instant_reconfigured n s :
  virtual_instant (reconfigured n s) = virtual_instant s.
Proof. unfold virtual_instant. now rewrite (proj1 (proj2 (reconfigured_frame n s))). Qed.

Lemma updateOptions_calls_native n s :
  native s →
  calls_since s (state_of (updateOptions host n s))
  = option_list ((λ h, (h, virtual_instant s)) <$> given (opt_onTimeChange n)).
Proof.
  intros N. rewrite updateOptions_eq.
  destruct (reconfigured_frame n s) as (Hc & _ & Hd).
  assert (native (reconfigured n s)) as N2 by (unfold native; now rewrite Hd).
  destruct (opt_onTimeChange n) as [| |h]; simpl.
  - unfold calls_since. rewrite Hc. apply drop_all.
  - unfold calls_since. rewrite Hc. apply drop_all.
  - rewrite bind_unfold, (getCurrentTime_native host _ N2).
    apply calls_since_app. now rewrite call_calls, Hc, virtual_instant_reconfigured.
Qed.

Lemma updateOptions_intercepted n s :
  intercepted s →
  calls_since s (state_of (updateOptions host n s)) = []
  ∧ ∀ h, opt_onTimeChange n = Given h →
      updateOptions host n s = Thrown not_a_constructor (reconfigured n s).
Proof.
  intros I. rewrite updateOptions_eq.
  destruct (reconfigured_frame n s) as (Hc & _ & Hd).
  assert (intercepted (reconfigured n s)) as I2 by (unfold intercepted; now rewrite Hd).
  destruct (opt_onTimeChange n) as [| |h]; simpl.
  - split; [|discriminate]. unfold calls_since. rewrite Hc. apply drop_all.
  - split; [|discriminate]. unfold calls_since. rewrite Hc. apply drop_all.
  - rewrite bind_unfold, (getCurrentTime_intercepted host _ I2). simpl.
    split; [|reflexivity]. unfold calls_since. rewrite Hc. apply drop_all.
Qed.

End Options.

(** [updateOptions] merges the options it is given into the stored ones, a
    property given as [undefined] included, and nothing else: the activation
    state stays as it is even when [enabled] is given, the virtual instant
    stays and no subscriber is notified.  An [onTimeChange] that is given is
    called at once, one time, with the current instant, when [Date] is the
    platform's own; while [Date] is intercepted [updateOptions] throws the
    [TypeError] of the shim instead, the options merged, and calls
    nobody. *)
Theorem updateOptions_merges_and_announces
    (host : Host) (n : TimeControlOptions) (s : state) :
  let s' := state_of (updateOptions host n s) in
  isActive s' = isActive s
  ∧ options (controller s') = merge_options (options (controller s)) n
  ∧ currentTime (controller s') = currentTime (controller s)
  ∧ (native s →
     calls_since s s'
     = option_list ((λ h, (h, virtual_instant s)) <$> given (opt_onTimeChange n)))
  ∧ (intercepted s →
     calls_since s s' = []
     ∧ ∀ h, opt_onTimeChange n = Given h →
         updateOptions host n s = Thrown not_a_constructor s').
Proof.
  intros s'. subst s'.
  pose proof (policy_updateOptions host n s) as Hp. unfold policy in Hp.
  injection Hp as En Ho.
  split; [exact En|]. split; [exact Ho|]. split; [apply instant_updateOptions|].
  split; [now apply updateOptions_calls_native|].
  intros I. destruct (updateOptions_intercepted host n s I) as [Hc Ht].
  split; [exact Hc|]. intros h Hh. rewrite (Ht h Hh). reflexivity.
Qed.

(** [updateOptions ({ onTimeChange: 9 })] on the controller at instant 1000
    with two subscribers: callback 9 is called with 1000, no subscriber
    is. *)
Lemma updateOptions_merges_and_announces_witness :
  native throwing_subscriber
  ∧ calls_since throwing_subscriber
      (state_of (updateOptions example_host (only_onTimeChange 9%nat) throwing_subscriber))
    = [(9%nat, DateAt 1000)].
Proof.
  assert (native throwing_subscriber) as N by reflexivity.
  split; [exact N|].
  refine (eq_trans (proj1 (proj2 (proj2 (proj2
            (updateOptions_merges_and_announces example_host (only_onTimeChange 9%nat)
               throwing_subscriber)))) N) _).
  vm_compute. reflexivity.
Defined.

(** The environment the policy of [enable] looks at is the stored option:
    after [updateOptions ({ environment })] with an environment other than
    production, [enable] activates a controller that is not enabled,
    whatever environment it was constructed for. *)
Theorem updateOptions_environment_unlocks_enable
    (host : Host) (fuel : nat) (s : state) (e : Environment) :
  e ≠ production →
  isActive (state_of (enable host fuel
              (state_of (updateOptions host (only_environment (Given e)) s)))) = true.
Proof.
  intros He. unfold isActive.
  pose proof (policy_enable host fuel
                (state_of (updateOptions host (only_environment (Given e)) s))) as Hp.
  pose proof (policy_updateOptions host (only_environment (Given e)) s) as Hu.
  unfold policy in Hp, Hu. injection Hu as En Ho. injection Hp as Hp _.
  rewrite Hp, Ho. cbn [merge_options options_environment only_environment opt_environment spread id].
  rewrite shouldEnableTimeControl_Some.
  rewrite bool_decide_eq_false_2 by exact He. apply orb_true_r.
Qed.

(** A controller constructed in production: not active, and [enable] alone
    does not activate it; after [updateOptions ({ environment: 'test' })] it
    does. *)
Lemma updateOptions_environment_unlocks_enable_witness :
  isActive (state_of (enable example_host 10 production_controller)) = false
  ∧ isActive (state_of (enable example_host 10
                (state_of (updateOptions example_host (only_environment (Given test))
                             production_controller)))) = true.
Proof.
  split; [vm_compute; reflexivity|].
  apply (updateOptions_environment_unlocks_enable example_host 10 production_controller test).
  discriminate.
Defined.

(** ** Notifications of [enable] and [disable] *)

Section ActivationRounds.

Variable host : Host.

Lemma outside_activated s : outside_hijacker (activated s) = outside_hijacker (set_enabled true s).
Proof.
  unfold activated. etransitivity; [|apply outside_hijackNativeFunctions].
  destruct (wants_libraries s); [apply outside_hijackLibraries | reflexivity].
Qed.

Lemma outside_deactivated s :
  outside_hijacker (deactivated s) = outside_hijacker (set_enabled false s).
Proof.
  unfold deactivated. etransitivity; [apply outside_restoreLibraries|].
  apply outside_restoreNativeFunctions.
Qed.

(** [enable] on a controller whose hijacker is not installed calls
    nobody. *)
Lemma enable_calls fuel s :
  isHijacked (hijacker s) = false →
  calls (globals (state_of (enable host fuel s))) = calls (globals s).
Proof.
  intros Hj. rewrite enable_eq.
  destruct (enabled (controller s)) eqn:En; [reflexivity|].
  destruct (shouldEnableTimeControl _ _).
  - rewrite notifySubscribers_intercepted by now apply intercepted_activated.
    apply calls_activated.
  - destruct_state s. reflexivity.
Qed.

(** [disable] on a controller whose [Date] it restores to the platform's
    own calls every subscriber. *)
Lemma disable_calls fuel s :
  enabled (controller s) = true →
  native (deactivated s) →
  membership_kept host (subscribers (controller s)) = true →
  (length (subscribers (controller s)) < fuel)%nat →
  disable host fuel s = Returned tt (state_of (disable host fuel s))
  ∧ calls (globals (state_of (disable host fuel s)))
    = calls (globals s)
      ++ ((λ c, (c, virtual_instant s)) <$> members (subscribers (controller s))).
Proof.
  intros En N Hk Hf. rewrite (disable_deactivated host fuel s En).
  pose proof (outside_deactivated s) as Ho.
  unfold outside_hijacker in Ho. simplify_eq.
  match goal with Hc : controller (deactivated s) = _ |- _ => rename Hc into Hc3 end.
  assert (subscribers (controller (deactivated s)) = subscribers (controller s)
          ∧ currentTime (controller (deactivated s)) = currentTime (controller s))
    as [Hs Ht] by (rewrite Hc3; destruct_state s; auto).
  rewrite notifySubscribers_keeps by (try exact N; rewrite Hs; assumption).
  split; [reflexivity|].
  unfold virtual_instant. rewrite Hs, Ht.
  cbn [state_of]. unfold set_console, set_calls, with_globals. cbn [globals calls].
  f_equal. etransitivity; [eassumption|]. destruct_state s. reflexivity.
Qed.

End ActivationRounds.

(** What [enable] and [disable] notify, whatever was called on the
    controller before.  [enable] calls nobody: where it activates the
    controller it sets the flag and installs the shims, and then throws the
    [TypeError] of the [Date] it has just installed before the round starts.
    [disable], when the controller is enabled, restores [Date] and returns
    after it has called each subscriber once, in insertion order, with the
    virtual instant, and nobody else; on a controller that is not enabled it
    calls nobody.  (For subscribers whose code does not subscribe or
    unsubscribe.) *)
Theorem activation_notifies_subscribers_only
    (host : Host) (fuel : nat) (p : Platform) (opts : TimeControlOptions) (ops : list op) :
  let s := run host fuel ops (state_of (new_TimeControllerImpl host fuel p opts)) in
  membership_kept host (subscribers (controller s)) = true →
  (length (subscribers (controller s)) < fuel)%nat →
  calls_since s (state_of (enable host fuel s)) = []
  ∧ (isActive s = false →
     shouldEnableTimeControl (signals (globals s))
       (options_environment (options (controller s))) = true →
     enable host fuel s = Thrown not_a_constructor (activated s)
     ∧ isActive (activated s) = true)
  ∧ calls_since s (state_of (disable host fuel s))
    = (if isActive s
       then (λ c, (c, virtual_instant s)) <$> members (subscribers (controller s))
       else [])
  ∧ (isActive s = true →
     disable host fuel s = Returned tt (state_of (disable host fuel s))
     ∧ isActive (state_of (disable host fuel s)) = false).
Proof.
  intros s Hk Hf. unfold isActive.
  pose proof (Date_coherent_run host fuel p opts ops) as Hd. fold s in Hd.
  assert (enabled (controller s) = false → isHijacked (hijacker s) = false) as Hj
    by (destruct Hd as [-> _]; auto).
  assert (enabled (controller s) = true → native (deactivated s)) as Hn.
  { intros En. pose proof (Date_coherent_disable s Hd En) as [_ H].
    replace (enabled (controller (deactivated s))) with false in H; [exact H|].
    pose proof (outside_deactivated s) as Ho. unfold outside_hijacker in Ho.
    simplify_eq. match goal with Hc : controller (deactivated s) = _ |- _ => rewrite Hc end.
    destruct_state s. reflexivity. }
  split; [|split; [|split]].
  - destruct (enabled (controller s)) eqn:En.
    + unfold enable. rewrite En. apply calls_since_same.
    + apply calls_since_app. rewrite (enable_calls host fuel s (Hj eq_refl)).
      now rewrite app_nil_r.
  - intros En Ok. split; [now apply enable_throws; auto|].
    pose proof (outside_activated s) as Ho. unfold outside_hijacker in Ho.
    simplify_eq. match goal with Hc : controller (activated s) = _ |- _ => rewrite Hc end.
    destruct_state s. reflexivity.
  - destruct (enabled (controller s)) eqn:En.
    + apply calls_since_app. now apply disable_calls; auto.
    + unfold disable. rewrite En. apply calls_since_same.
  - intros En. split; [now apply disable_calls; auto|].
    pose proof (policy_disable host fuel s) as Hp. unfold policy in Hp.
    now injection Hp as ->.
Qed.

(** The controller with subscriber 1 that [enable ()] has activated, an
    [onTimeChange] stored in its options: [disable] calls subscriber 1 with
    the virtual instant 1000, and nobody else. *)
Lemma activation_notifies_subscribers_only_witness :
  let s := run example_host 10
             (calls_while_enabled ++ [OpUpdateOptions (only_onTimeChange 9%nat)])
             (state_of (new_TimeControllerImpl example_host 10 (example_platform "test")
                          (example_options (Given false) Absent))) in
  isActive s = true
  ∧ calls_since s (state_of (disable example_host 10 s)) = [(1%nat, DateAt 1000)].
Proof.
  intros s.
  assert (membership_kept example_host (subscribers (controller s)) = true) as Hk
    by (vm_compute; reflexivity).
  assert (length (subscribers (controller s)) < 10)%nat as Hf by (vm_compute; lia).
  split; [vm_compute; reflexivity|].
  refine (eq_trans (proj1 (proj2 (proj2
            (activation_notifies_subscribers_only example_host 10 (example_platform "test")
               (example_options (Given false) Absent)
               (calls_while_enabled ++ [OpUpdateOptions (only_onTimeChange 9%nat)])
               Hk Hf))) ) _).
  vm_compute. reflexivity.
Defined.

(** ** An invalid instant *)

(** [addTime] and its siblings cannot repair an instant that is an invalid
    date: while the controller holds one, [getCurrentTime ()] returns an
    invalid date whenever it returns, and after [addTime (ms)] with any
    number [ms], however that call ends, the controller still holds one. *)
Theorem invalid_instant_is_sticky (host : Host) (fuel : nat) (s : state) (ms : number) :
  currentTime (controller s) = InvalidDate →
  (∀ d, reads host s = Some d → d = InvalidDate)
  ∧ (native s → getCurrentTime host s = Returned InvalidDate s)
  ∧ currentTime (controller (state_of (addTime host fuel ms s))) = InvalidDate
  ∧ ∀ d, reads host (state_of (addTime host fuel ms s)) = Some d → d = InvalidDate.
Proof.
  intros H.
  assert (∀ s0, currentTime (controller s0) = InvalidDate →
            ∀ d, reads host s0 = Some d → d = InvalidDate) as Hread.
  { intros s0 H0 d. unfold reads.
    destruct (getCurrentTime host s0) as [d' s'|e s'|s'] eqn:G; [|discriminate..].
    apply getCurrentTime_returned in G as (_ & -> & _). intros [= <-].
    now apply virtual_instant_invalid. }
  assert (currentTime (controller (state_of (addTime host fuel ms s))) = InvalidDate) as H'.
  { destruct (isNaN ms) eqn:E.
    - destruct ms; try discriminate. now rewrite addTime_NaN.
    - destruct (native_or_intercepted s) as [N|I].
      + rewrite (addTime_currentTime host fuel ms s E N), H. reflexivity.
      + now rewrite (addTime_intercepted host fuel ms s E I). }
  split; [now apply Hread|]. split; [|split; [exact H' | now apply Hread]].
  intros N. rewrite (getCurrentTime_native host s N). now rewrite virtual_instant_invalid.
Qed.

(** On the controller that holds an invalid date, taking a second off
    leaves it invalid. *)
Lemma invalid_instant_is_sticky_witness :
  currentTime (controller lost_controller) = InvalidDate
  ∧ currentTime (controller
      (state_of (addTime example_host 10 (of_Z (-1000)) lost_controller))) = InvalidDate.
Proof.
  assert (currentTime (controller lost_controller) = InvalidDate) as H
    by (vm_compute; reflexivity).
  split; [exact H|].
  exact (proj1 (proj2 (proj2 (invalid_instant_is_sticky example_host 10 lost_controller
                         (of_Z (-1000)) H)))).
Defined.
(** ** The hijacker on its own *)

(** The native hijack is guarded.  On a hijacker that is not installed,
    [restoreNativeFunctions] does nothing; a second [hijackNativeFunctions]
    does nothing; and [restoreNativeFunctions], after one install or two,
    binds [globalThis.Date] to what it was before and leaves the hijacker
    not installed. *)
Theorem native_hijack_is_guarded (s : state) :
  Hijacker_isActive s = false →
  restoreNativeFunctions s = Returned tt s
  ∧ Hijacker_isActive (state_of (hijackNativeFunctions s)) = true
  ∧ hijackNativeFunctions (state_of (hijackNativeFunctions s))
    = Returned tt (state_of (hijackNativeFunctions s))
  ∧ (let s' := state_of (restoreNativeFunctions (state_of (hijackNativeFunctions s))) in
     globalDate (globals s') = globalDate (globals s) ∧ Hijacker_isActive s' = false)
  ∧ (let s' := state_of (restoreNativeFunctions
                 (state_of (hijackNativeFunctions (state_of (hijackNativeFunctions s))))) in
     globalDate (globals s') = globalDate (globals s) ∧ Hijacker_isActive s' = false).
Proof.
  unfold Hijacker_isActive. intros E.
  pose proof (native_install_restore s E) as (H1 & H2 & _).
  repeat match goal with |- _ ∧ _ => split end.
  - unfold restoreNativeFunctions. now rewrite E.
  - unfold hijackNativeFunctions. now rewrite E.
  - apply hijackNativeFunctions_twice.
  - exact H1.
  - exact H2.
  - now apply native_install_twice_restore.
  - rewrite hijackNativeFunctions_twice. exact H2.
Qed.

(** Two installs and one restore around the controller that is not
    enabled. *)
Lemma native_hijack_is_guarded_witness :
  Hijacker_isActive disabled_controller = false
  ∧ globalDate (globals (state_of (restoreNativeFunctions
       (state_of (hijackNativeFunctions (state_of (hijackNativeFunctions
          disabled_controller)))))))
    = NativeDate.
Proof.
  assert (Hijacker_isActive disabled_controller = false) as H by (vm_compute; reflexivity).
  split; [exact H|].
  exact (proj1 (proj2 (proj2 (proj2 (proj2 (native_hijack_is_guarded disabled_controller H)))))).
Defined.

(** ** A [Date.now] captured while the controller was enabled *)

Section CapturedNow.

Variable host : Host.

Lemma erased_hijacker s s' :
  observers_erased s' = observers_erased s → hijacker s' = hijacker s.
Proof. intros H. rewrite (erased_inv _ _ H). destruct_state s. reflexivity. Qed.

Lemma disable_keeps_backup fuel s :
  backup (hijacker (state_of (disable host fuel s))) = backup (hijacker s).
Proof.
  rewrite disable_eq. destruct (enabled (controller s)); [|reflexivity].
  rewrite (erased_hijacker _ _ (notifySubscribers_erased host fuel _)).
  unfold deactivated.
  pose proof (libraries_restoreLibraries (state_of (restoreNativeFunctions (set_enabled false s))))
    as H.
  unfold outside_libraries in H. simplify_eq.
  match goal with E : hijacker _ = hijacker _ |- _ => rewrite E end.
  unfold restoreNativeFunctions.
  destruct (isHijacked (hijacker (set_enabled false s))),
    (backup (hijacker (set_enabled false s))) eqn:Eb;
    try (destruct_state s; reflexivity).
Qed.

End CapturedNow.

(** A reference to [Date.now] taken while the controller was enabled is the
    arrow function of the hijacker.  After [disable] it still works and
    reads the wall clock; after [destroy], which drops the hijacker's backup,
    calling it throws a [TypeError]. *)
Theorem captured_Date_now_breaks_after_destroy
    (host : Host) (fuel : nat) (p : Platform) (opts : TimeControlOptions) (ops : list op) :
  let s := run host fuel ops (state_of (new_TimeControllerImpl host fuel p opts)) in
  isActive s = true →
  (∀ s1, disable host fuel s = Returned tt s1 →
     call_now host (now_of (globalDate (globals s))) s1
     = Returned (of_Z (clock (globals s1))) s1)
  ∧ (∀ s2, destroy host fuel s = Returned tt s2 →
     call_now host (now_of (globalDate (globals s))) s2
     = Thrown (TypeError "Cannot read properties of null (reading 'DateNow')") s2).
Proof.
  intros s En.
  destruct (Date_coherent_run host fuel p opts ops) as [_ Hd]. fold s in Hd.
  unfold isActive in En. rewrite En in Hd. destruct Hd as [[k Hk] Hb]. rewrite Hk.
  split.
  - intros s1 H1.
    pose proof (policy_disable host fuel s) as Hp.
    pose proof (disable_keeps_backup host fuel s) as Hb1.
    rewrite H1 in Hp, Hb1. cbn [state_of] in Hp, Hb1. unfold policy in Hp.
    injection Hp as E1 _. unfold call_now, now_of, isActive.
    now rewrite E1, Hb1, Hb.
  - intros s2 H2.
    destruct (destroy_returned host fuel s s2 H2) as (E2 & _ & Hb2 & _).
    unfold call_now, now_of. now rewrite E2, Hb2.
Qed.

(** The [Date.now] captured on the controller that [enable ()] has
    activated, called after [destroy ()]. *)
Lemma captured_Date_now_breaks_after_destroy_witness :
  let s := run example_host 10 calls_while_enabled
             (state_of (new_TimeControllerImpl example_host 10 (example_platform "test")
                          (example_options (Given false) Absent))) in
  isActive s = true
  ∧ destroy example_host 10 s = Returned tt (state_of (destroy example_host 10 s))
  ∧ call_now example_host (now_of (globalDate (globals s)))
      (state_of (destroy example_host 10 s))
    = Thrown (TypeError "Cannot read properties of null (reading 'DateNow')")
        (state_of (destroy example_host 10 s)).
Proof.
  intros s.
  assert (isActive s = true) as En by (vm_compute; reflexivity).
  assert (destroy example_host 10 s = Returned tt (state_of (destroy example_host 10 s)))
    as H by (vm_compute; reflexivity).
  split; [exact En|]. split; [exact H|].
  exact (proj2 (captured_Date_now_breaks_after_destroy example_host 10
                  (example_platform "test") (example_options (Given false) Absent)
                  calls_while_enabled En) _ H).
Defined.

(** ** Construction *)

Section Construction.

Variable host : Host.

Lemma call_keeps h arg s :
  keeps_membership host h →
  subscribers (controller (state_of (call host h arg s))) = subscribers (controller s).
Proof.
  intros Hk. unfold call.
  pose proof (run_steps_keeps (behaviour host h)
                (set_calls (calls (globals s) ++ [(h, arg)]) s) Hk) as H.
  destruct (run_steps _ _) as [[v|] s2]; simpl in *; subst s2; destruct_state s; reflexivity.
Qed.

Lemma calls_logEnvironmentInfo env b s :
  calls (globals (state_of (logEnvironmentInfo env b s))) = calls (globals s).
Proof.
  unfold logEnvironmentInfo. destruct (negb _ || negb _); [reflexivity|].
  destruct b; [destruct_state s; reflexivity|].
  destruct (getEnvironmentWarning env); destruct_state s; reflexivity.
Qed.

Lemma instant_logEnvironmentInfo env b s :
  currentTime (controller (state_of (logEnvironmentInfo env b s)))
  = currentTime (controller s).
Proof.
  unfold logEnvironmentInfo. destruct (negb _ || negb _); [reflexivity|].
  destruct b; [destruct_state s; reflexivity|].
  destruct (getEnvironmentWarning env); destruct_state s; reflexivity.
Qed.

(** [enable] on a controller without subscribers calls nobody. *)
Lemma enable_calls_empty fuel s :
  subscribers (controller s) = [] → (0 < fuel)%nat →
  calls (globals (state_of (enable host fuel s))) = calls (globals s).
Proof.
  intros Hs Hf. rewrite enable_eq.
  destruct (enabled (controller s)) eqn:En; [reflexivity|].
  destruct (shouldEnableTimeControl _ _); [|destruct_state s; reflexivity].
  pose proof (outside_activated s) as Ho. unfold outside_hijacker in Ho. simplify_eq.
  match goal with Hc : controller (activated s) = _ |- _ => rename Hc into Hc3 end.
  assert (subscribers (controller (activated s)) = []) as Hs3
    by (rewrite Hc3; destruct_state s; exact Hs).
  destruct (native_or_intercepted (activated s)) as [N|I].
  - rewrite notifySubscribers_keeps; try exact N.
    + rewrite Hs3. cbn [state_of]. unfold set_console, set_calls, with_globals.
      cbn [globals calls members omap fmap list_fmap]. rewrite app_nil_r.
      apply calls_activated.
    + now rewrite Hs3.
    + rewrite Hs3. simpl. lia.
  - rewrite notifySubscribers_intercepted by exact I. apply calls_activated.
Qed.

(** What the constructor does after [setTime] returned in [s1] with no
    subscriber. *)
Lemma constructor_tail fuel s1 :
  subscribers (controller s1) = [] → (0 < fuel)%nat →
  let s := state_of (((λ s, when (default false (options_enabled (options (controller s))))
                              (enable host fuel) s) ≫= λ _,
             ((λ s, logEnvironmentInfo (options_environment (options (controller s)))
                      (enabled (controller s)) s) : M unit)) s1) in
  currentTime (controller s) = currentTime (controller s1)
  ∧ calls (globals s) = calls (globals s1).
Proof.
  intros Hs Hf s. subst s. rewrite state_of_bind. cbv beta.
  generalize (default false (options_enabled (options (controller s1)))). intros b.
  assert (currentTime (controller (state_of (when b (enable host fuel) s1)))
          = currentTime (controller s1)
          ∧ calls (globals (state_of (when b (enable host fuel) s1))) = calls (globals s1))
    as [Ht Hc].
  { destruct b; [|split; reflexivity]. unfold when. split; [apply instant_enable|].
    now apply enable_calls_empty. }
  destruct (when b (enable host fuel) s1) as [[] s2|e s2|s2]; cbn [state_of] in *; auto.
  now rewrite instant_logEnvironmentInfo, calls_logEnvironmentInfo.
Qed.

End Construction.

(** The start of a controller.  [startTime] is used when it is given and
    truthy, the wall-clock time otherwise: [0], [NaN] and the empty string
    count as not given.  When [new Date (startTime)] is an invalid date the
    constructor throws the error of [setTime] before it has called anybody;
    otherwise the controller starts at that instant, and an [onTimeChange]
    given to the constructor is called with it, once, during construction
    (for an [onTimeChange] whose code does not subscribe or unsubscribe). *)
Theorem constructor_start_instant
    (host : Host) (fuel : nat) (p : Platform) (opts : TimeControlOptions) :
  (0 < fuel)%nat →
  let start :=
    match opt_startTime opts with
    | Given v => if truthy v then v else FromDate (DateAt (platform_clock p))
    | Absent | Undefined => FromDate (DateAt (platform_clock p))
    end in
  let s := state_of (new_TimeControllerImpl host fuel p opts) in
  (native_construct host start = InvalidDate →
     new_TimeControllerImpl host fuel p opts
     = Thrown (Error "Invalid time provided to setTime") s
     ∧ calls (globals s) = [] ∧ isActive s = false)
  ∧ (∀ t, native_construct host start = DateAt t →
       currentTime (controller s) = DateAt t
       ∧ (given (opt_onTimeChange opts) = None → calls (globals s) = [])
       ∧ (∀ h, opt_onTimeChange opts = Given h → keeps_membership host h →
            calls (globals s) = [(h, DateAt t)])).
Proof.
  intros Hf start s. subst s. rewrite new_TimeControllerImpl_eq.
  change (constructor_startTime p opts) with start.
  set (s0 := State _ _ (pristine p)).
  assert (native s0) as N0 by reflexivity.
  split.
  - intros E. rewrite bind_unfold, (setTime_invalid host fuel start s0 N0 E).
    repeat split.
  - intros t E. pose proof (native_construct_in_range host _ _ E) as Hr.
    rewrite state_of_bind.
    assert (native (set_currentTime (DateAt t) s0)) as N1 by reflexivity.
    destruct (opt_onTimeChange opts) as [| |h] eqn:Eh.
    + (* no [onTimeChange] *)
      rewrite (setTime_returns_empty host fuel start s0 t)
        by (simpl; try rewrite Eh; auto).
      destruct (constructor_tail host fuel (set_currentTime (DateAt t) s0) eq_refl Hf)
        as [Ht Hc].
      split; [exact Ht|]. split; [intros _; exact Hc | discriminate].
    + (* [onTimeChange: undefined] *)
      rewrite (setTime_returns_empty host fuel start s0 t)
        by (simpl; try rewrite Eh; auto).
      destruct (constructor_tail host fuel (set_currentTime (DateAt t) s0) eq_refl Hf)
        as [Ht Hc].
      split; [exact Ht|]. split; [intros _; exact Hc | discriminate].
    + (* an [onTimeChange] was given *)
      assert (setTime host fuel start s0
              = call host h (DateAt t) (set_currentTime (DateAt t) s0)) as Hset.
      { rewrite (setTime_valid host fuel start s0 t N0 E), bind_unfold.
        rewrite notifySubscribers_keeps by (simpl; first [reflexivity | lia]).
        rewrite call_onTimeChange_native by reflexivity.
        cbn [set_console set_calls with_globals with_controller set_currentTime controller
             options options_onTimeChange constructor_options initial_options s0].
        rewrite Eh.
        rewrite (virtual_instant_valid _ t) by (simpl; auto). reflexivity. }
      rewrite Hset.
      pose proof (call_calls host h (DateAt t) (set_currentTime (DateAt t) s0)) as Hc.
      pose proof (erased_inv _ _ (erased_call host h (DateAt t) (set_currentTime (DateAt t) s0)))
        as Hi.
      assert (currentTime (controller (state_of
                (call host h (DateAt t) (set_currentTime (DateAt t) s0)))) = DateAt t) as Ht
        by (rewrite Hi; reflexivity).
      destruct (call host h (DateAt t) (set_currentTime (DateAt t) s0)) as [[] s1|e s1|s1] eqn:Ec;
        cbn [state_of] in *.
      * split; [|split; [discriminate|]].
        -- rewrite state_of_bind. cbv beta.
           revert Ht. generalize (default false (options_enabled (options (controller s1)))).
           intros b Ht.
           assert (currentTime (controller (state_of (when b (enable host fuel) s1)))
                   = DateAt t) as Ht'
             by (destruct b; [unfold when; now rewrite instant_enable | exact Ht]).
           destruct (when b (enable host fuel) s1) as [[] s2|e s2|s2]; cbn [state_of] in *; auto.
           now rewrite instant_logEnvironmentInfo.
        -- intros h' [= <-] Hk.
           assert (subscribers (controller s1) = []) as Hs1.
           { pose proof (call_keeps host h (DateAt t) (set_currentTime (DateAt t) s0) Hk) as H.
             rewrite Ec in H. exact H. }
           now rewrite (proj2 (constructor_tail host fuel s1 Hs1 Hf)).
      * split; [exact Ht|]. split; [discriminate|]. intros h' [= <-] _. exact Hc.
      * split; [exact Ht|]. split; [discriminate|]. intros h' [= <-] _. exact Hc.
Qed.

(** [startTime: 0] on a platform whose wall clock reads 5000: the controller
    starts at 5000, and [onTimeChange] has been called with it. *)
Lemma constructor_start_instant_witness :
  let s := state_of (new_TimeControllerImpl example_host 10 (example_platform "test")
                       epoch_start) in
  currentTime (controller s) = DateAt 5000 ∧ calls (globals s) = [(2%nat, DateAt 5000)].
Proof.
  intros s.
  assert (0 < 10)%nat as Hf by lia.
  assert (native_construct example_host (FromDate (DateAt 5000)) = DateAt 5000) as E
    by (vm_compute; reflexivity).
  destruct (proj2 (constructor_start_instant example_host 10 (example_platform "test")
                     epoch_start Hf) 5000 E) as (Ht & _ & Hc).
  split; [exact Ht|]. apply (Hc 2%nat eq_refl). constructor.
Defined.

(** ** Environment detection *)

Lemma nodeEnv_unrecognised sg e :
  NODE_ENV_unrecognised sg →
  (if process_env sg then toLowerCase <$> NODE_ENV sg else None) ≠ Some (env_name (Some e)).
Proof.
  intros [H|[H|(v & H & Hv)]]; rewrite H; try (destruct (process_env sg); discriminate).
  destruct (process_env sg); [|discriminate]. simpl. intros [= E]. exact (Hv e E).
Qed.

(** [NODE_ENV] settles the environment, in any letter case, whatever the
    browser signals say.  Without a recognised [NODE_ENV]: outside a browser
    the environment is development; in a browser a test runner makes it
    test, and otherwise a page served from an explicit port is development,
    also over https.  [shouldEnableTimeControl ()] allows time control in
    every detected environment but production. *)
Theorem detectEnvironment_precedence (sg : Signals) :
  (∀ v e, process_env sg = true → NODE_ENV sg = Some v → toLowerCase v = env_name (Some e) →
     detectEnvironment sg = e)
  ∧ (NODE_ENV_unrecognised sg →
       (has_window sg = false → detectEnvironment sg = development)
       ∧ (has_window sg = true → test_runner sg = true → detectEnvironment sg = test)
       ∧ (has_window sg = true → test_runner sg = false → port sg ≠ "" →
            detectEnvironment sg = development))
  ∧ shouldEnableTimeControl sg None = negb (bool_decide (detectEnvironment sg = production)).
Proof.
  split; [|split].
  - intros v e Hp Hn Hv. unfold detectEnvironment. rewrite Hp, Hn. simpl. rewrite Hv.
    destruct e; simpl; repeat (destruct (decide _) as [?|?]; try congruence);
      reflexivity.
  - intros Hu. unfold detectEnvironment.
    pose proof (nodeEnv_unrecognised sg production Hu) as H1.
    pose proof (nodeEnv_unrecognised sg test Hu) as H2.
    pose proof (nodeEnv_unrecognised sg development Hu) as H3.
    simpl in H1, H2, H3.
    destruct (decide _) as [?|_]; [contradiction|].
    destruct (decide _) as [?|_]; [contradiction|].
    destruct (decide _) as [?|_]; [contradiction|].
    split; [|split].
    + intros ->. reflexivity.
    + intros -> ->. reflexivity.
    + intros -> -> Hport.
      assert (String.eqb (port sg) "" = false) as -> by now apply String.eqb_neq.
      simpl. now rewrite !orb_true_r.
  - unfold shouldEnableTimeControl. simpl.
    destruct (detectEnvironment sg); reflexivity.
Qed.

(** [NODE_ENV=PRODUCTION] on a development machine, and a page served over
    https from port 8443. *)
Lemma detectEnvironment_precedence_witness :
  detectEnvironment (node_signals "PRODUCTION") = production
  ∧ detectEnvironment (page_signals "shop.example.com" "8443" "https:") = development.
Proof.
  split.
  - apply (proj1 (detectEnvironment_precedence (node_signals "PRODUCTION"))
             "PRODUCTION" production); reflexivity.
  - apply (proj1 (proj2 (detectEnvironment_precedence
                           (page_signals "shop.example.com" "8443" "https:")))).
    + left. reflexivity.
    + reflexivity.
    + reflexivity.
    + discriminate.
Defined.

(** * utils.ts *)

(** ** [clamp] *)

Lemma num_lt_irrefl a : num_lt a a = false.
Proof.
  destruct a as [|s|x]; simpl; [reflexivity | destruct s; reflexivity|].
  apply negb_false_iff, Qle_bool_iff, Qle_refl.
Qed.

Lemma num_lt_le_trans a b c :
  isNaN a = false → isNaN b = false → isNaN c = false →
  num_lt a b = true → num_lt c b = false → num_lt a c = true.
Proof.
  destruct a as [|sa|x], b as [|sb|y], c as [|sc|z]; simpl; try discriminate;
    intros _ _ _.
  - destruct sa, sb, sc; simpl; congruence.
  - destruct sa, sb; simpl; congruence.
  - destruct sa, sc; simpl; congruence.
  - auto.
  - destruct sb, sc; simpl; congruence.
  - destruct sb; simpl; congruence.
  - destruct sc; simpl; congruence.
  - rewrite !negb_true_iff, negb_false_iff. intros Hab Hcb.
    apply Qle_bool_iff in Hcb.
    destruct (Qle_bool z x) eqn:E; [|reflexivity].
    apply Qle_bool_iff in E.
    assert (Qle_bool y x = true) as H by (apply Qle_bool_iff; eapply Qle_trans; eauto).
    congruence.
Qed.

(** [clamp] gives [NaN] as soon as one argument is [NaN].  For numbers
    with [min <= max] the result lies between [min] and [max], and is [value]
    itself when [value] does; with [min > max] the result is [max], whatever
    [value] is. *)
Theorem clamp_bounds (value min max : number) :
  (isNaN value || isNaN min || isNaN max = true → clamp value min max = NaN)
  ∧ (isNaN value || isNaN min || isNaN max = false →
     (num_lt max min = false →
        num_lt (clamp value min max) min = false
        ∧ num_lt max (clamp value min max) = false
        ∧ (num_lt value min = false → num_lt max value = false →
           clamp value min max = value))
     ∧ (num_lt max min = true → clamp value min max = max)).
Proof.
  unfold clamp, Math_min, Math_max. split.
  - intros H. destruct (isNaN value); [reflexivity|].
    destruct (isNaN min); [reflexivity|]. simpl in H. rewrite H.
    now rewrite orb_true_r.
  - intros H. apply orb_false_iff in H as [H Hmax]. apply orb_false_iff in H as [Hv Hmin].
    rewrite Hv, Hmin. simpl.
    assert (isNaN (if num_lt value min then min else value) = false) as Hm
      by (destruct (num_lt value min); assumption).
    rewrite Hm, Hmax. simpl. split.
    + intros Hle. destruct (num_lt value min) eqn:E1.
      * destruct (num_lt max min) eqn:E2; [discriminate|].
        split; [apply num_lt_irrefl|]. split; [exact E2 | discriminate].
      * destruct (num_lt max value) eqn:E2.
        -- split; [exact Hle|]. split; [apply num_lt_irrefl | discriminate].
        -- split; [exact E1|]. split; [exact E2 | reflexivity].
    + intros Hgt. destruct (num_lt value min) eqn:E1.
      * now rewrite Hgt.
      * now rewrite (num_lt_le_trans max min value Hmax Hmin Hv Hgt E1).
Qed.

(** [clamp (150, 0, 100)] is [100]; with the bounds swapped,
    [clamp (50, 100, 0)] is [0]. *)
Lemma clamp_bounds_witness :
  clamp (of_Z 150) (of_Z 0) (of_Z 100) = of_Z 100
  ∧ clamp (of_Z 50) (of_Z 100) (of_Z 0) = of_Z 0.
Proof.
  split.
  - vm_compute. reflexivity.
  - apply (proj2 (proj2 (clamp_bounds (of_Z 50) (of_Z 100) (of_Z 0)) eq_refl)).
    vm_compute. reflexivity.
Defined.

(** ** [safeParseDate] *)

(** [safeParseDate] accepts exactly what [setTime] accepts, and gives the
    instant [setTime] stores.  With the platform's own [Date]: when
    [new Date (input)] is a valid date it returns that date, touching
    nothing, and parsing its result again gives the same date; when it is
    not, [safeParseDate] throws its error, as [setTime] throws its own.
    While [Date] is intercepted both throw the [TypeError] of the shim.
    [safeParseDate] never returns an invalid date. *)
Theorem safeParseDate_agrees_with_setTime
    (host : Host) (toString : TimeInput → string) (fuel : nat)
    (input : TimeInput) (s : state) :
  well_formed input →
  (native s →
   (∀ t, native_construct host input = DateAt t →
      safeParseDate host toString input s = Returned (DateAt t) s
      ∧ safeParseDate host toString (FromDate (DateAt t)) s = Returned (DateAt t) s
      ∧ currentTime (controller (state_of (setTime host fuel input s))) = DateAt t)
   ∧ (native_construct host input = InvalidDate →
      safeParseDate host toString input s
      = Thrown (Error ("Unable to parse date from input: " ++ toString input)) s
      ∧ setTime host fuel input s = Thrown (Error "Invalid time provided to setTime") s))
  ∧ (intercepted s →
     safeParseDate host toString input s = Thrown not_a_constructor s
     ∧ setTime host fuel input s = Thrown not_a_constructor s)
  ∧ (∀ d s', safeParseDate host toString input s = Returned d s' →
     isValidDate (FromDate d) = true).
Proof.
  intros Hwf.
  assert (native s → ∀ t, native_construct host input = DateAt t →
            safeParseDate host toString input s = Returned (DateAt t) s) as Hok.
  { intros N t E. unfold safeParseDate.
    destruct input as [[|t0]|n|str];
      cbn [native_construct isValidDate as_Date getTime isNaN negb of_Z] in *;
      try discriminate;
      rewrite ?bind_unfold, (new_Date_native host _ s N);
      cbn [native_construct isValidDate getTime]; rewrite E; reflexivity. }
  assert (native s → native_construct host input = InvalidDate →
            safeParseDate host toString input s
            = Thrown (Error ("Unable to parse date from input: " ++ toString input)) s) as Hko.
  { intros N E. unfold safeParseDate.
    destruct input as [[|t0]|n|str];
      cbn [native_construct isValidDate as_Date getTime isNaN negb of_Z] in *;
      try (rewrite ?bind_unfold, (new_Date_native host _ s N);
           cbn [native_construct isValidDate getTime]; rewrite ?E; reflexivity).
    change (getTime (DateAt t0)) with (of_Z t0) in E.
    rewrite (TimeClip_of_Z t0 Hwf) in E. discriminate. }
  split; [|split].
  - intros N. split.
    + intros t E. split; [now apply Hok|]. split.
      * unfold safeParseDate. cbn [isValidDate as_Date getTime isNaN negb of_Z].
        rewrite (new_Date_native host _ s N). cbn [native_construct].
        rewrite TimeClip_of_Z; [reflexivity|].
        apply (native_construct_in_range host input). exact E.
      * now apply setTime_stores.
    + intros E. split; [now apply Hko|]. now apply setTime_invalid.
  - intros I. split; [|now apply setTime_intercepted].
    unfold safeParseDate. destruct (isValidDate input).
    + now apply new_Date_intercepted.
    + rewrite bind_unfold. now rewrite (new_Date_intercepted host input s I).
  - intros d s' H. destruct (native_or_intercepted s) as [N|I].
    + destruct (native_construct host input) as [|t] eqn:E.
      * rewrite (Hko N eq_refl) in H. discriminate.
      * rewrite (Hok N t eq_refl) in H. injection H as <- _. reflexivity.
    + exfalso. revert H. unfold safeParseDate. destruct (isValidDate input).
      * now rewrite (new_Date_intercepted host _ s I).
      * rewrite bind_unfold. now rewrite (new_Date_intercepted host input s I).
Qed.

(** A number of milliseconds is accepted; a string [Date.parse] cannot read
    is refused with the string in the message. *)
Lemma safeParseDate_agrees_with_setTime_witness :
  safeParseDate example_host example_toString (FromNumber (of_Z 86400000)) disabled_controller
  = Returned (DateAt 86400000) disabled_controller
  ∧ safeParseDate example_host example_toString (FromString "tomorrow") disabled_controller
    = Thrown (Error "Unable to parse date from input: tomorrow") disabled_controller.
Proof.
  assert (native disabled_controller) as N by reflexivity.
  split.
  - apply (proj1 (proj1 (safeParseDate_agrees_with_setTime example_host example_toString 10
                    (FromNumber (of_Z 86400000)) disabled_controller I) N)).
    vm_compute. reflexivity.
  - apply (proj2 (proj1 (safeParseDate_agrees_with_setTime example_host example_toString 10
                           (FromString "tomorrow") disabled_controller I) N)).
    vm_compute. reflexivity.
Defined.

(** ** [parseTimePeriod] *)

Section Periods.

Local Open Scope string_scope.

Lemma append_cons x a b : String x a ++ b = String x (a ++ b).
Proof. reflexivity. Qed.

Lemma append_nil_l b : "" ++ b = b.
Proof. reflexivity. Qed.

Lemma string_app_assoc (a b c : string) : (a ++ b) ++ c = a ++ (b ++ c).
Proof.
  induction a as [|x a IH]; [reflexivity|]. rewrite !append_cons. f_equal. exact IH.
Qed.

Lemma string_app_nil_r (a : string) : a ++ "" = a.
Proof.
  induction a as [|x a IH]; [reflexivity|]. rewrite append_cons. f_equal. exact IH.
Qed.

Lemma toLowerCase_app a b : toLowerCase (a ++ b) = toLowerCase a ++ toLowerCase b.
Proof.
  induction a as [|x a IH]; [reflexivity|].
  rewrite append_cons. simpl. rewrite append_cons. f_equal. exact IH.
Qed.

Lemma lower_ascii_digit c : is_digit c = true → lower_ascii c = c.
Proof.
  unfold is_digit, lower_ascii. cbv zeta. intros [H1 H2]%andb_true_iff.
  apply Nat.leb_le in H1, H2.
  destruct (Nat.leb_spec 65 (nat_of_ascii c)); [lia | reflexivity].
Qed.

Lemma is_whitespace_cases c :
  is_whitespace c = true → nat_of_ascii c ∈ [9; 10; 11; 12; 13; 32; 160]%nat.
Proof. unfold is_whitespace. apply bool_decide_eq_true_1. Qed.

Lemma lower_ascii_whitespace c : is_whitespace c = true → lower_ascii c = c.
Proof.
  intros H%is_whitespace_cases. unfold lower_ascii. cbv zeta.
  repeat (apply elem_of_cons in H as [->|H]; [reflexivity|]). inversion H.
Qed.

Lemma whitespace_not_digit c : is_whitespace c = true → is_digit c = false.
Proof.
  intros H%is_whitespace_cases. unfold is_digit. cbv zeta.
  repeat (apply elem_of_cons in H as [->|H]; [reflexivity|]). inversion H.
Qed.

Lemma whitespace_not_point c : is_whitespace c = true → Ascii.eqb c "." = false.
Proof.
  intros H. apply Ascii.eqb_neq. intros ->. discriminate H.
Qed.

Lemma is_unit_cases c : is_unit c = true → c ∈ ["s"; "m"; "h"; "d"; "w"]%char.
Proof. unfold is_unit. apply bool_decide_eq_true_1. Qed.

Lemma unit_classes c :
  is_unit c = true →
  is_digit c = false ∧ is_whitespace c = false ∧ Ascii.eqb c "." = false
  ∧ lower_ascii c = c.
Proof.
  intros H%is_unit_cases.
  repeat (apply elem_of_cons in H as [->|H]; [repeat split|]). inversion H.
Qed.

Lemma toLowerCase_all f s :
  (∀ c, f c = true → lower_ascii c = c) → all_chars f s = true → toLowerCase s = s.
Proof.
  intros Hf. induction s as [|c s IH]; [reflexivity|]. simpl.
  intros [Hc Hs]%andb_true_iff. now rewrite (Hf c Hc), IH.
Qed.

Lemma span_app f a b :
  all_chars f a = true → starts_without f b → span f (a ++ b) = (a, b).
Proof.
  intros Ha Hb. induction a as [|c a IH].
  - rewrite append_nil_l. destruct b as [|c b]; [reflexivity|].
    simpl in *. now rewrite Hb.
  - rewrite append_cons. simpl in *.
    apply andb_true_iff in Ha as [Hc Ha]. now rewrite Hc, (IH Ha).
Qed.

(** What is left after the number: white space and a unit letter. *)
Lemma tail_classes ws u :
  all_chars is_whitespace ws = true →
  (u = "" ∨ ∃ c, u = String c "" ∧ is_unit c = true) →
  starts_without is_digit (ws ++ u)
  ∧ starts_without is_whitespace u
  ∧ match ws ++ u with
    | String c _ => Ascii.eqb c "." = false
    | EmptyString => True
    end.
Proof.
  intros Hws Hu.
  assert (starts_without is_digit u ∧ starts_without is_whitespace u
          ∧ match u with String c _ => Ascii.eqb c "." = false | EmptyString => True end)
    as (H1 & H2 & H3).
  { destruct Hu as [->|(c & -> & Hc)]; [repeat split|].
    destruct (unit_classes c Hc) as (? & ? & ? & _). repeat split; assumption. }
  destruct ws as [|w ws]; [rewrite append_nil_l; auto|].
  rewrite append_cons. simpl in *.
  apply andb_true_iff in Hws as [Hw _].
  split; [now apply whitespace_not_digit|]. split; [exact H2|].
  now apply whitespace_not_point.
Qed.

Lemma match_period_accepts int frac ws u :
  int ≠ "" →
  all_chars is_digit int = true →
  all_chars is_digit frac = true →
  all_chars is_whitespace ws = true →
  (u = "" ∨ ∃ c, u = String c "" ∧ is_unit c = true) →
  match_period (number_text int frac ++ ws ++ u) = Some (int, frac, u).
Proof.
  intros Hne Hint Hfrac Hws Hu.
  destruct (tail_classes ws u Hws Hu) as (Hd & Hw & Hp).
  assert (span is_whitespace (ws ++ u) = (ws, u)) as Hsp by now apply span_app.
  assert (match u with
          | "" => Some (int, frac, "")
          | String c "" => if is_unit c then Some (int, frac, String c "") else None
          | String _ (String _ _) => None
          end = Some (int, frac, u)) as Hend.
  { destruct Hu as [->|(c & -> & Hc)]; [reflexivity | now rewrite Hc]. }
  apply String.eqb_neq in Hne.
  unfold match_period, number_text.
  destruct (String.eqb_spec frac "") as [->|Hf].
  - rewrite (span_app is_digit int (ws ++ u) Hint Hd), Hne.
    destruct (ws ++ u) as [|c r] eqn:E.
    + destruct ws; [|discriminate]. rewrite append_nil_l in E. subst u. reflexivity.
    + rewrite Hp. cbv beta iota zeta. rewrite Hsp. exact Hend.
  - rewrite !string_app_assoc.
    rewrite (span_app is_digit int ("." ++ frac ++ ws ++ u) Hint eq_refl), Hne.
    rewrite append_cons, append_nil_l. cbv beta iota zeta.
    change (Ascii.eqb "." ".") with true. cbv beta iota zeta.
    rewrite (span_app is_digit frac (ws ++ u) Hfrac Hd).
    apply String.eqb_neq in Hf. rewrite Hf. cbv beta iota zeta. rewrite Hsp. exact Hend.
Qed.

End Periods.

(** Every string made of digits, digits after a point if any, white space
    if any, and a unit letter in either case if any, is a time period:
    [parseTimePeriod] returns the number, as [parseFloat] reads it, times the
    length of the unit, rounded as a product of numbers is, and the unit is
    the minute when none is written.  A whole number up to [2^53] is read
    exactly, and so is the product when it is no larger. *)
Theorem parseTimePeriod_accepts (int frac ws u : string) :
  int ≠ "" →
  all_chars is_digit int = true →
  all_chars is_digit frac = true →
  all_chars is_whitespace ws = true →
  unit_text u →
  parseTimePeriod (number_text int frac ++ ws ++ u)%string
  = inr (num_mul (parseFloat_decimal int frac)
           (multipliers (if String.eqb u "" then "m" else toLowerCase u)))
  ∧ (frac = "" → Z.abs (digits_value 0 int) ≤ 2 ^ 53 →
     parseFloat_decimal int frac = of_Z (digits_value 0 int))
  ∧ (frac = "" →
     ∀ m, multipliers (if String.eqb u "" then "m" else toLowerCase u) = of_Z m →
       Z.abs (digits_value 0 int * m) ≤ 2 ^ 53 →
       parseTimePeriod (number_text int frac ++ ws ++ u)%string
       = inr (of_Z (digits_value 0 int * m))).
Proof.
  intros Hne Hint Hfrac Hws Hu.
  assert (parseTimePeriod (number_text int frac ++ ws ++ u)%string
          = inr (num_mul (parseFloat_decimal int frac)
                   (multipliers (if String.eqb u "" then "m" else toLowerCase u)))) as Hp.
  { assert (toLowerCase (number_text int frac ++ ws ++ u)%string
            = (number_text int frac ++ ws ++ toLowerCase u)%string) as Hl.
    { rewrite !toLowerCase_app.
      rewrite (toLowerCase_all is_whitespace ws lower_ascii_whitespace Hws).
      f_equal. unfold number_text. destruct (String.eqb frac ""); rewrite ?toLowerCase_app;
        now rewrite ?(toLowerCase_all is_digit int lower_ascii_digit Hint),
                    ?(toLowerCase_all is_digit frac lower_ascii_digit Hfrac). }
    unfold parseTimePeriod. rewrite Hl.
    rewrite (match_period_accepts int frac ws (toLowerCase u) Hne Hint Hfrac Hws).
    + destruct Hu as [->|(c & -> & Hc)]; reflexivity.
    + destruct Hu as [->|(c & -> & Hc)]; [now left|]. right. eauto. }
  assert (frac = "" → Z.abs (digits_value 0 int) ≤ 2 ^ 53 →
          parseFloat_decimal int frac = of_Z (digits_value 0 int)) as Hwhole.
  { intros -> Hn. unfold parseFloat_decimal, decimal_value.
    rewrite string_app_nil_r. now apply round64_of_Z. }
  split; [exact Hp|]. split; [exact Hwhole|].
  intros Hf m Hm Hnm. rewrite Hp, Hm.
  assert (1000 ≤ m) as Hm1.
  { revert Hm. unfold multipliers.
    repeat match goal with
           | |- context [String.eqb ?a ?b] => destruct (String.eqb a b)
           end; try discriminate; unfold of_Z; intros [= <-]; lia. }
  rewrite Hwhole by (try exact Hf; nia).
  f_equal. apply (num_mul_of_Z _ _ (digits_value 0 int * m) 0); lia.
Qed.

(** [parseTimePeriod ("15 M")] is a quarter of an hour;
    [parseTimePeriod ("0.27m")] is 16200.000000000002. *)
Lemma parseTimePeriod_accepts_witness :
  parseTimePeriod "15 M" = inr (of_Z 900000)
  ∧ parseTimePeriod "0.27m" = inr (Finite (8906044184985601 # 549755813888)).
Proof.
  split.
  - refine (eq_trans (proj1 (parseTimePeriod_accepts "15" "" " " "M" _ _ _ _ _)) _).
    + discriminate.
    + reflexivity.
    + reflexivity.
    + reflexivity.
    + right. exists "M"%char. split; reflexivity.
    + vm_compute. reflexivity.
  - refine (eq_trans (proj1 (parseTimePeriod_accepts "0" "27" "" "m" _ _ _ _ _)) _).
    + discriminate.
    + reflexivity.
    + reflexivity.
    + reflexivity.
    + right. exists "m"%char. split; reflexivity.
    + vm_compute. reflexivity.
Defined.

Lemma lower_ascii_not_digit c : is_digit c = false → is_digit (lower_ascii c) = false.
Proof.
  intros H. unfold lower_ascii. cbv zeta.
  destruct (Nat.leb_spec 65 (nat_of_ascii c)) as [H1|_]; [|exact H].
  destruct (Nat.leb_spec (nat_of_ascii c) 90) as [H2|_]; [|exact H]. simpl.
  unfold is_digit. cbv zeta. rewrite nat_ascii_embedding by lia.
  destruct (Nat.leb_spec (nat_of_ascii c + 32) 57); [lia|]. apply andb_false_r.
Qed.

(** A string that does not start with a digit is no time period:
    [parseTimePeriod] throws, with the string in the message.  So it reads
    no sign, no number that starts with the point, and no leading white
    space. *)
Theorem parseTimePeriod_rejects (input : string) :
  starts_without is_digit input →
  parseTimePeriod input = inl (Error ("Invalid time period format: " ++ input)).
Proof.
  intros H. unfold parseTimePeriod, match_period.
  destruct input as [|c r]; [reflexivity|]. simpl in *.
  now rewrite (lower_ascii_not_digit c H).
Qed.

(** A sign, and a number that starts with the point. *)
Lemma parseTimePeriod_rejects_witness :
  parseTimePeriod "-5m" = inl (Error "Invalid time period format: -5m")
  ∧ parseTimePeriod ".5h" = inl (Error "Invalid time period format: .5h").
Proof.
  split.
  - apply (parseTimePeriod_rejects "-5m"). reflexivity.
  - apply (parseTimePeriod_rejects ".5h"). reflexivity.
Defined.

(** Every shortcut of [DEFAULT_TIME_PERIODS] is a time period that
    [parseTimePeriod] reads as the value of its entry. *)
Theorem DEFAULT_TIME_PERIODS_shortcuts_parse :
  Forall (λ tp, parseTimePeriod <$> period_shortcut tp = Some (inr (period_value tp)))
    DEFAULT_TIME_PERIODS.
Proof. unfold DEFAULT_TIME_PERIODS. repeat constructor. Qed.

(** ** [getRelativeTimeDescription] *)

Section Relative.

Lemma Math_abs_of_Z z : Math_abs (of_Z z) = of_Z (Z.abs z).
Proof. unfold Math_abs, of_Z. now rewrite Qabs_inject_Z. Qed.

(** The whole seconds of a distance of up to [2^53] ms: the quotient is
    rounded, and its floor is the integer quotient all the same. *)
Lemma floor_div_1000 d :
  0 ≤ d ≤ 2 ^ 53 → Math_floor (num_div (of_Z d) (of_Z 1000)) = of_Z (d / 1000).
Proof.
  intros Hd. destruct (Z.eq_dec d (2 ^ 53)%Z) as [->|Hne].
  - vm_compute. reflexivity.
  - apply floor_div_of_Z; lia.
Qed.

Lemma positive_number k : num_lt (of_Z 0) (of_Z k) = (0 <? k).
Proof.
  unfold num_lt, of_Z, Qle_bool. simpl. rewrite Z.mul_1_r.
  destruct (Z.leb_spec k 0), (Z.ltb_spec 0 k); try reflexivity; lia.
Qed.

Lemma is_one k : num_eqb (of_Z k) (of_Z 1) = (k =? 1).
Proof.
  unfold num_eqb, of_Z, Qeq_bool. cbn [Qnum Qden inject_Z]. now rewrite Z.mul_1_r.
Qed.

Lemma is_negative k : num_lt (of_Z k) (of_Z 0) = (k <? 0).
Proof.
  unfold num_lt, of_Z, Qle_bool. simpl. rewrite Z.mul_1_r.
  destruct (Z.leb_spec 0 k), (Z.ltb_spec k 0); try reflexivity; lia.
Qed.

Lemma reaches d U : 0 ≤ d → 0 < U → (0 <? d / U) = (U <=? d).
Proof.
  intros Hd HU. destruct (Z.leb_spec U d) as [H|H].
  - apply Z.ltb_lt. apply Z.div_str_pos. lia.
  - apply Z.ltb_ge. rewrite Z.div_small; lia.
Qed.

End Relative.

(** [getRelativeTimeDescription] between two valid dates gives the whole
    number of the largest of day, hour, minute and second that the distance
    reaches (seconds below one minute), the unit in the singular for one,
    and [ago] exactly when [toTime] is before [fromTime], [from now]
    otherwise; flooring in steps loses nothing, and neither does the
    rounding of the quotients.  When one of the dates is invalid the text is
    [NaN seconds from now]. *)
Theorem getRelativeTimeDescription_largest_unit (host : Host) (f t : Z) (s : state) :
  Z.abs (t - f) ≤ 2 ^ 53 →
  getRelativeTimeDescription host (DateAt f) (Some (DateAt t)) s
  = Returned (relative_description f t) s
  ∧ getRelativeTimeDescription host InvalidDate (Some (DateAt t)) s
    = Returned "NaN seconds from now" s
  ∧ getRelativeTimeDescription host (DateAt f) (Some InvalidDate) s
    = Returned "NaN seconds from now" s.
Proof.
  intros Hb. split; [|split; reflexivity].
  unfold getRelativeTimeDescription. rewrite bind_unfold.
  change ((mret (DateAt t) : M date) s) with (Returned (DateAt t) s). cbv beta iota.
  cbn [getTime].
  rewrite (num_sub_of_Z t f Hb), Math_abs_of_Z.
  set (d := Z.abs (t - f)) in *.
  assert (0 ≤ d) as Hd by (subst d; lia).
  rewrite (floor_div_1000 d) by lia.
  assert (0 ≤ d / 1000 < 2 ^ 53) as H1
    by (split; [apply Z.div_pos; lia | apply Z.div_lt_upper_bound; lia]).
  rewrite (floor_div_of_Z (d / 1000) 60) by lia.
  assert (0 ≤ d / 1000 / 60 < 2 ^ 53) as H2
    by (split; [apply Z.div_pos; lia | apply Z.div_lt_upper_bound; lia]).
  rewrite (floor_div_of_Z (d / 1000 / 60) 60) by lia.
  assert (0 ≤ d / 1000 / 60 / 60 < 2 ^ 53) as H3
    by (split; [apply Z.div_pos; lia | apply Z.div_lt_upper_bound; lia]).
  rewrite (floor_div_of_Z (d / 1000 / 60 / 60) 24) by lia.
  rewrite !positive_number, !is_one, is_negative.
  rewrite !Z.div_div by lia.
  change (1000 * (60 * (60 * 24))) with 86400000.
  change (1000 * (60 * 60)) with 3600000. change (1000 * 60) with 60000.
  rewrite !reaches by lia.
  replace (t - f <? 0) with (t <? f)
    by (destruct (Z.ltb_spec t f), (Z.ltb_spec (t - f) 0); try reflexivity; lia).
  unfold relative_description, largest_unit. fold d. cbv zeta.
  destruct (86400000 <=? d); [|destruct (3600000 <=? d); [|destruct (60000 <=? d)]];
    cbv beta iota; unfold Number_toString, of_Z; rewrite Qfloor_Z;
    match goal with |- context [?n =? 1] => destruct (n =? 1) end; reflexivity.
Qed.

(** An hour and a half: [1 hour], [from now] when [toTime] is the later of
    the two. *)
Lemma getRelativeTimeDescription_largest_unit_witness :
  getRelativeTimeDescription example_host (DateAt 0) (Some (DateAt 5400000))
    disabled_controller = Returned "1 hour from now" disabled_controller
  ∧ getRelativeTimeDescription example_host (DateAt 5400000) (Some (DateAt 0))
      disabled_controller = Returned "1 hour ago" disabled_controller.
Proof.
  split.
  - refine (eq_trans (proj1 (getRelativeTimeDescription_largest_unit example_host 0 5400000
                               disabled_controller _)) _); [vm_compute; discriminate|].
    vm_compute. reflexivity.
  - refine (eq_trans (proj1 (getRelativeTimeDescription_largest_unit example_host 5400000 0
                               disabled_controller _)) _); [vm_compute; discriminate|].
    vm_compute. reflexivity.
Defined.

(** With [toTime] left out, [getRelativeTimeDescription] measures against
    [new Date ()], with the [Date] that is bound when it is called: in every
    state reachable from the constructor by public calls it describes the
    distance to the wall-clock time while the controller is not enabled, and
    throws the [TypeError] of the shim while it is. *)
Theorem getRelativeTimeDescription_follows_controller
    (host : Host) (fuel : nat) (p : Platform) (opts : TimeControlOptions) (ops : list op)
    (fromTime : date) :
  let s := run host fuel ops (state_of (new_TimeControllerImpl host fuel p opts)) in
  getRelativeTimeDescription host fromTime None s
  = if isActive s then Thrown not_a_constructor s
    else getRelativeTimeDescription host fromTime (Some (DateAt (clock (globals s)))) s.
Proof.
  intros s.
  destruct (Date_follows_activation host fuel p opts ops) as (_ & Hn & Ha).
  fold s in Hn, Ha. unfold getRelativeTimeDescription. rewrite !bind_unfold. cbv beta.
  destruct (isActive s) eqn:En.
  - specialize (Ha eq_refl).
    apply getCurrentTime_thrown in Ha as (I & _). unfold intercepted in I.
    destruct (globalDate (globals s)) as [|k D] eqn:ED; [contradiction|].
    cbn [construct_now]. rewrite bind_unfold.
    rewrite getCurrentTime_intercepted; [reflexivity|].
    unfold intercepted. now rewrite ED.
  - specialize (Hn eq_refl). unfold native in Hn. rewrite Hn. reflexivity.
Qed.

(** ** The library wrappers on their own *)

(** One [hijackLibraries] followed by one [restoreLibraries] gives back the
    entry points the platform shipped, on a platform whose [moment] is on
    [globalThis]; in between, [moment.now] and [globalThis.dayjs] are one
    wrapper each around the shipped function. *)
Theorem libraries_install_restore_once (p : Platform) (s : state) :
  moment_on_globalThis p →
  libraries_state p false (globals s) →
  libraries_wrapped p (globals (state_of (hijackLibraries s)))
  ∧ moment_now (globals (state_of (restoreLibraries (state_of (hijackLibraries s)))))
    = moment_now (globals s)
  ∧ dayjs_global (globals (state_of (restoreLibraries (state_of (hijackLibraries s)))))
    = dayjs_global (globals s).
Proof.
  intros Hp Hs.
  pose proof (libraries_wrap p s Hs) as Hw.
  pose proof (libraries_unwrap p _ Hp Hw) as [_ [Hm Hd]].
  destruct Hs as [_ [Hm0 Hd0]]. destruct Hw as [_ Hw].
  split; [exact Hw|]. split; congruence.
Qed.

(** [moment.now] around the controller that is not enabled. *)
Lemma libraries_install_restore_once_witness :
  moment_now (globals (state_of (hijackLibraries disabled_controller)))
  = Some (MomentNowShim 0 (Shipped Moment))
  ∧ moment_now (globals (state_of (restoreLibraries
       (state_of (hijackLibraries disabled_controller)))))
    = Some (Shipped Moment).
Proof.
  assert (moment_on_globalThis (example_platform "test")) as Hp by (intros _; reflexivity).
  assert (libraries_state (example_platform "test") false (globals disabled_controller)) as Hs
    by (vm_compute; repeat split).
  split; [vm_compute; reflexivity|].
  exact (proj1 (proj2 (libraries_install_restore_once (example_platform "test")
                         disabled_controller Hp Hs))).
Defined.

(** ** What the constructor logs *)

Section ConstructorConsole.

Variable host : Host.

Lemma run_steps_globals b s : globals (run_steps b s).2 = globals s.
Proof. rewrite run_steps_state. destruct_state s. reflexivity. Qed.

Lemma call_console h arg s :
  console (globals (state_of (call host h arg s))) = console (globals s).
Proof.
  unfold call.
  pose proof (run_steps_globals (behaviour host h)
                (set_calls (calls (globals s) ++ [(h, arg)]) s)) as H.
  destruct (run_steps _ _) as [[v|] s2]; simpl in *; rewrite H; destruct_state s; reflexivity.
Qed.

Lemma call_signals h arg s :
  signals (globals (state_of (call host h arg s))) = signals (globals s).
Proof.
  unfold call.
  pose proof (run_steps_globals (behaviour host h)
                (set_calls (calls (globals s) ++ [(h, arg)]) s)) as H.
  destruct (run_steps _ _) as [[v|] s2]; simpl in *; rewrite H; destruct_state s; reflexivity.
Qed.

(** [setTime] on a controller without subscribers. *)
Lemma setTime_alone fuel time s t :
  native s → subscribers (controller s) = [] → (0 < fuel)%nat →
  native_construct host time = DateAt t →
  setTime host fuel time s
  = match options_onTimeChange (options (controller s)) with
    | Some (Handler h) => call host h (DateAt t) (set_currentTime (DateAt t) s)
    | Some NoHandler => Returned tt (set_currentTime (DateAt t) s)
    | None => Thrown not_a_function (set_currentTime (DateAt t) s)
    end.
Proof.
  intros N Hs Hf E. pose proof (native_construct_in_range host _ _ E) as Hr.
  pose proof (native_set_currentTime (DateAt t) s N) as N1.
  rewrite (setTime_valid host fuel time s t N E), bind_unfold.
  assert (notifySubscribers host fuel (set_currentTime (DateAt t) s)
          = Returned tt (set_currentTime (DateAt t) s)) as Hround.
  { rewrite notifySubscribers_keeps;
      [|try exact N1; destruct_state s; simpl in *; subst; first [reflexivity | simpl; lia]..].
    f_equal. destruct_state s. cbn [subscribers controller] in Hs. subst.
    unfold set_console, set_calls, set_currentTime, with_globals, with_controller. simpl.
    now rewrite !app_nil_r. }
  rewrite Hround, call_onTimeChange_native by exact N1.
  rewrite (virtual_instant_valid _ t) by (destruct_state s; auto).
  destruct_state s. reflexivity.
Qed.

(** What [enable] logs on a controller without subscribers: the warning
    of the policy when it refuses. *)
Lemma enable_console fuel s :
  subscribers (controller s) = [] → (0 < fuel)%nat →
  console (globals (state_of (enable host fuel s)))
  = console (globals s)
    ++ (if negb (enabled (controller s))
           && negb (shouldEnableTimeControl (signals (globals s))
                      (options_environment (options (controller s))))
        then [Log warn policy_warning None] else [])
  ∧ signals (globals (state_of (enable host fuel s))) = signals (globals s).
Proof.
  intros Hs Hf. rewrite enable_eq.
  destruct (enabled (controller s)) eqn:En; simpl; [now rewrite app_nil_r|].
  destruct (shouldEnableTimeControl _ _); simpl.
  - pose proof (outside_activated s) as Ho. unfold outside_hijacker in Ho. simplify_eq.
    match goal with Hc : controller (activated s) = _ |- _ => rename Hc into Hc3 end.
    assert (subscribers (controller (activated s)) = []) as Hs3
      by (rewrite Hc3; destruct_state s; exact Hs).
    assert (console (globals (activated s)) = console (globals s)
            ∧ signals (globals (activated s)) = signals (globals s)) as [Hcon Hsig]
      by (split; (etransitivity; [eassumption|]); destruct_state s; reflexivity).
    destruct (native_or_intercepted (activated s)) as [N|I].
    + rewrite notifySubscribers_keeps;
        [|try exact N; rewrite Hs3; first [reflexivity | simpl; lia]..].
      rewrite Hs3. cbn [state_of]. unfold set_console, set_calls, with_globals.
      cbn [globals console signals members omap]. rewrite !app_nil_r. auto.
    + rewrite notifySubscribers_intercepted by exact I. cbn [state_of].
      rewrite app_nil_r. auto.
  - destruct_state s. simpl. auto.
Qed.

Lemma logEnvironmentInfo_console env b s :
  console (globals (state_of (logEnvironmentInfo (Some env) b s)))
  = console (globals s)
    ++ if isBrowser (signals (globals s)) && has_console (signals (globals s))
       then [environment_line env b] else [].
Proof.
  unfold logEnvironmentInfo, environment_line.
  destruct (isBrowser _), (has_console _); simpl; rewrite ?app_nil_r; try reflexivity.
  destruct b; [destruct_state s; reflexivity|].
  destruct env; destruct_state s; reflexivity.
Qed.

End ConstructorConsole.

(** What a constructor that returns has logged.  The warning of [enable],
    when activation was asked for in a production environment; then, in a
    browser only, one line of [logEnvironmentInfo]: at level [info] that
    time control is enabled or disabled in the environment, or at level
    [warn], in production, that it is disabled for safety.  Outside a
    browser [logEnvironmentInfo] logs nothing.  A constructor that returns
    has not activated the controller, so the line is never the one for an
    enabled controller.  (For an [onTimeChange] whose code does not
    subscribe or unsubscribe.) *)
Theorem constructor_console
    (host : Host) (fuel : nat) (p : Platform) (opts : TimeControlOptions) (s : state) :
  (0 < fuel)%nat →
  (∀ h, opt_onTimeChange opts = Given h → keeps_membership host h) →
  new_TimeControllerImpl host fuel p opts = Returned tt s →
  console (globals s)
  = (if requested p opts && bool_decide (resolved_environment p opts = production)
     then [Log warn policy_warning None] else [])
    ++ (if isBrowser (platform_signals p) && has_console (platform_signals p)
        then [environment_line (resolved_environment p opts) (isActive s)] else [])
  ∧ isActive s = false.
Proof.
  intros Hf Hk H. rewrite new_TimeControllerImpl_eq in H.
  set (o := constructor_options p opts) in *.
  set (s0 := State _ _ (pristine p)) in *.
  assert (native s0) as N0 by reflexivity.
  rewrite bind_unfold in H.
  destruct (native_construct host (constructor_startTime p opts)) as [|t] eqn:E.
  { rewrite (setTime_invalid host fuel _ s0 N0 E) in H. discriminate. }
  rewrite (setTime_alone host fuel _ s0 t N0 eq_refl Hf E) in H.
  (* the state [setTime] leaves *)
  assert (∃ s1, match options_onTimeChange (options (controller s0)) with
                | Some (Handler h) => call host h (DateAt t) (set_currentTime (DateAt t) s0)
                | Some NoHandler => Returned tt (set_currentTime (DateAt t) s0)
                | None => Thrown not_a_function (set_currentTime (DateAt t) s0)
                end = Returned tt s1
                ∧ subscribers (controller s1) = []
                ∧ console (globals s1) = []
                ∧ signals (globals s1) = platform_signals p
                ∧ policy s1 = (false, o)
                ∧ isHijacked (hijacker s1) = false)
    as (s1 & Hs1 & Hsub & Hcon & Hsig & Hpol & Hhj).
  { cbn [s0 controller options o constructor_options initial_options options_onTimeChange] in *.
    destruct (opt_onTimeChange opts) as [| |h] eqn:Eh.
    - eexists. split; [reflexivity|]. repeat split.
    - eexists. split; [reflexivity|]. repeat split.
    - pose proof (call_keeps host h (DateAt t) (set_currentTime (DateAt t) s0) (Hk h eq_refl))
        as H1.
      pose proof (call_console host h (DateAt t) (set_currentTime (DateAt t) s0)) as H2.
      pose proof (call_signals host h (DateAt t) (set_currentTime (DateAt t) s0)) as H3.
      pose proof (preserves_policy_call host h (DateAt t) (set_currentTime (DateAt t) s0)) as H4.
      pose proof (proj2 (globals_erased _ _
                    (erased_call host h (DateAt t) (set_currentTime (DateAt t) s0)))) as H5.
      destruct (call host h (DateAt t) (set_currentTime (DateAt t) s0)) as [[] s1|e s1|s1];
        try discriminate.
      cbn [state_of] in *. exists s1. rewrite H5. repeat split; assumption. }
  rewrite Hs1 in H. rewrite bind_unfold in H. cbv beta in H.
  (* [enable], if asked for *)
  unfold policy in Hpol. injection Hpol as En Ho.
  rewrite Ho in H. unfold o at 1 in H. rewrite options_enabled_constructor in H.
  cbn [default from_option id] in H.
  assert (console (globals (state_of (when (requested p opts) (enable host fuel) s1)))
          = (if requested p opts && bool_decide (resolved_environment p opts = production)
             then [Log warn policy_warning None] else [])
          ∧ signals (globals (state_of (when (requested p opts) (enable host fuel) s1)))
            = platform_signals p
          ∧ options (controller (state_of (when (requested p opts) (enable host fuel) s1)))
            = o) as (Hc2 & Hsig2 & Ho2).
  { destruct (requested p opts); unfold when.
    - destruct (enable_console host fuel s1 Hsub Hf) as [Hc Hs].
      pose proof (policy_enable host fuel s1) as Hp. unfold policy in Hp.
      injection Hp as _ Hp. rewrite Hc, Hs, Hcon, En, Ho, Hp, Ho. unfold o at 1.
      rewrite options_environment_constructor, shouldEnableTimeControl_Some.
      simpl. rewrite negb_involutive. auto.
    - cbn [state_of mret M_ret]. simpl. auto. }
  assert (∀ s2, when (requested p opts) (enable host fuel) s1 = Returned tt s2 →
            enabled (controller s2) = false) as Hoff.
  { intros s2. destruct (requested p opts); unfold when.
    - intros He. pose proof (policy_enable host fuel s1) as Hp. rewrite He in Hp.
      unfold policy in Hp. cbn [state_of] in Hp. injection Hp as Hp _.
      rewrite Hp, En. cbn [orb].
      destruct (shouldEnableTimeControl _ _) eqn:Ok; [|reflexivity].
      rewrite (enable_throws host fuel s1 En Ok Hhj) in He. discriminate.
    - intros [= <-]. exact En. }
  destruct (when (requested p opts) (enable host fuel) s1) as [[] s2|e s2|s2];
    try discriminate.
  specialize (Hoff s2 eq_refl).
  cbn [state_of] in *. cbv beta in H.
  rewrite Ho2 in H. unfold o at 1 in H. rewrite options_environment_constructor in H.
  pose proof (logEnvironmentInfo_console
                (resolved_environment p opts) (enabled (controller s2)) s2)
    as Hlog.
  pose proof (logEnvironmentInfo_returns
                (Some (resolved_environment p opts)) (enabled (controller s2)) s2)
    as Hret.
  pose proof (preserves_policy_logEnvironmentInfo
                (Some (resolved_environment p opts)) (enabled (controller s2)) s2)
    as Hpol.
  rewrite Hret in H. injection H as <-.
  unfold policy in Hpol. injection Hpol as Hen _.
  unfold isActive. rewrite Hen, Hlog, Hc2, Hsig2. split; [reflexivity | exact Hoff].
Qed.

(** [{ enabled: true }] on a page of a production site: the warning of
    [enable], then the warning of [logEnvironmentInfo]. *)
Lemma constructor_console_witness :
  console (globals (state_of (new_TimeControllerImpl example_host 10 production_page
                                insist_enabled)))
  = [Log warn policy_warning None;
     Log warn "[react-time-travel] Time control is disabled in production for safety. This is expected behavior." None].
Proof.
  assert (0 < 10)%nat as Hf by lia.
  assert (∀ h, opt_onTimeChange insist_enabled = Given h → keeps_membership example_host h)
    as Hk by (intros h Hh; discriminate Hh).
  assert (new_TimeControllerImpl example_host 10 production_page insist_enabled
          = Returned tt (state_of (new_TimeControllerImpl example_host 10 production_page
                                     insist_enabled))) as H by (vm_compute; reflexivity).
  refine (eq_trans (proj1 (constructor_console example_host 10 production_page
                             insist_enabled _ Hf Hk H)) _).
  vm_compute. reflexivity.
Defined.

(** ** A subscriber that subscribes itself again *)

Section Resubscribing.

Variable host : Host.
Variable c : callback.
Hypothesis resubscribes : behaviour host c = [Unsubscribe c; Subscribe c].

Local Abbreviation deliver arg :=
  (λ callback : callback,
     try_catch (call host callback arg)
       (λ e, modify (console_log error subscriber_error (Some e)))).

Lemma delivered_resubscribing arg s :
  subscribers (controller (delivered host arg c s))
  = set_delete c (subscribers (controller s)) ++ [Some c].
Proof.
  unfold delivered. rewrite resubscribes. cbn [run_steps].
  rewrite !subscribers_set_subscribers.
  unfold set_add, set_has. rewrite bool_decide_eq_false_2 by apply not_member_delete_self.
  destruct_state s. reflexivity.
Qed.

Lemma forEach_resubscribing fuel i arg s :
  subscribers (controller s) !! i = Some (Some c) →
  length (subscribers (controller s)) = S i →
  ∃ s', forEach fuel i (deliver arg) s = Diverged s'.
Proof.
  revert i s. induction fuel as [|fuel IH]; intros i s Hi Hl; [eexists; reflexivity|].
  rewrite forEach_step, Hi. apply IH.
  - rewrite delivered_resubscribing, lookup_app_r by (rewrite length_set_delete; lia).
    rewrite length_set_delete, Hl, Nat.sub_diag. reflexivity.
  - rewrite delivered_resubscribing, length_app, length_set_delete, Hl. simpl. lia.
Qed.

End Resubscribing.

(** A notification round walks the live set, and a member that is deleted
    and added again during the round is visited again: when the only
    subscriber unsubscribes itself and subscribes itself again in its own
    call, the round never ends, so [setTime] with a time for which
    [new Date (time)] returns a valid date does not return, whatever number
    of calls it is given. *)
Theorem resubscribing_subscriber_never_ends
    (host : Host) (c : callback) (s : state) (time : TimeInput) (t : Z) :
  behaviour host c = [Unsubscribe c; Subscribe c] →
  subscribers (controller s) = [Some c] →
  construct host (globalDate (globals s)) time s = Returned (DateAt t) s →
  ∀ fuel, ∃ s', setTime host fuel time s = Diverged s'.
Proof.
  intros Hb Hs E fuel. apply new_Date_returned in E as (N & E & _).
  rewrite (setTime_valid host fuel time s t N E), bind_unfold.
  rewrite notifySubscribers_native by now apply native_set_currentTime.
  destruct (forEach_resubscribing host c Hb fuel 0
              (virtual_instant (set_currentTime (DateAt t) s))
              (set_currentTime (DateAt t) s)) as [s' Hs'].
  - destruct_state s. simpl in *. now subst.
  - destruct_state s. simpl in *. now subst.
  - rewrite Hs'. eauto.
Qed.

(** Callback 3 of [resubscribing_host], with a thousand calls allowed. *)
Lemma resubscribing_subscriber_never_ends_witness :
  ∃ s', setTime resubscribing_host 1000 (FromNumber (of_Z 2000)) resubscribing_controller
        = Diverged s'.
Proof.
  apply (resubscribing_subscriber_never_ends resubscribing_host 3%nat
           resubscribing_controller (FromNumber (of_Z 2000)) 2000).
  - reflexivity.
  - vm_compute. reflexivity.
  - vm_compute. reflexivity.
Defined.

(** ** [debounce] *)

Section DebounceProperties.

Context {Args : Type}.

Implicit Types d : Debounced Args.

Lemma debounced_eq wait args d :
  0 ≤ wait → one_waiting d →
  debounced wait args d
  = {| timeout := Some (timers_next (debounce_timers d));
       debounce_timers :=
         {| timers_now := timers_now (debounce_timers d);
            timers_next := S (timers_next (debounce_timers d));
            timers_pending :=
              [(timers_next (debounce_timers d), timers_now (debounce_timers d) + wait, args)] |};
       debounce_calls := debounce_calls d |}.
Proof.
  intros Hw Hd. unfold debounced, setTimeout, clearTimeout.
  destruct d as [t [now next pending] calls]. unfold one_waiting in Hd. simpl in *.
  rewrite Z.max_r by lia.
  destruct Hd as [Hd|(due & a & Hd & [h Ht])]; subst; simpl.
  - destruct t; reflexivity.
  - rewrite filter_cons_False by (simpl; auto). reflexivity.
Qed.

Lemma debounce_elapse_early dt d h due args :
  timers_pending (debounce_timers d) = [(h, due, args)] →
  timers_now (debounce_timers d) + dt < due →
  debounce_elapse dt d
  = {| timeout := timeout d;
       debounce_timers :=
         {| timers_now := timers_now (debounce_timers d) + dt;
            timers_next := timers_next (debounce_timers d);
            timers_pending := [(h, due, args)] |};
       debounce_calls := debounce_calls d |}.
Proof.
  intros Hp Hlt. unfold debounce_elapse, run_timers. rewrite Hp.
  rewrite !filter_cons, !filter_nil. simpl.
  repeat case_decide; try lia. simpl. now rewrite app_nil_r.
Qed.

Lemma debounce_elapse_due dt d h due args :
  timers_pending (debounce_timers d) = [(h, due, args)] →
  due ≤ timers_now (debounce_timers d) + dt →
  debounce_elapse dt d
  = {| timeout := timeout d;
       debounce_timers :=
         {| timers_now := timers_now (debounce_timers d) + dt;
            timers_next := timers_next (debounce_timers d);
            timers_pending := [] |};
       debounce_calls := debounce_calls d ++ [(timers_now (debounce_timers d) + dt, args)] |}.
Proof.
  intros Hp Hle. unfold debounce_elapse, run_timers. rewrite Hp.
  rewrite !filter_cons, !filter_nil. simpl.
  repeat case_decide; try lia. reflexivity.
Qed.

(** Over a burst whose pauses are shorter than [wait] nothing is called,
    and one timer is left waiting. *)
Lemma debounce_burst_quiet wait burst d :
  0 ≤ wait → one_waiting d →
  Forall (λ call, 0 ≤ call.2 < wait) burst →
  debounce_calls (debounce_burst wait burst d) = debounce_calls d
  ∧ one_waiting (debounce_burst wait burst d)
  ∧ timers_now (debounce_timers (debounce_burst wait burst d))
    = timers_now (debounce_timers d) + foldr (λ call acc, call.2 + acc) 0 burst.
Proof.
  intros Hw Hd Hb. revert d Hd.
  induction Hb as [|[args pause] burst Hp Hb IH]; intros d Hd; simpl.
  - split; [reflexivity|]. split; [exact Hd | lia].
  - simpl in Hp. rewrite (debounced_eq wait args d Hw Hd).
    erewrite debounce_elapse_early; [|reflexivity | simpl; lia].
    match goal with |- context [debounce_burst wait burst ?d1] =>
      destruct (IH d1) as (H1 & H2 & H3) end.
    { right. simpl. eauto. }
    rewrite H1, H3. simpl. split; [reflexivity|]. split; [exact H2 | lia].
Qed.

End DebounceProperties.

(** A debounced function calls [func] once for a burst of calls, with the
    arguments of the last call of the burst: while every call comes less
    than [wait] after the one before, [func] is not called; once [wait] has
    passed after the last call, [func] is called, one time, with the
    arguments of that call, when the host runs its timers. *)
Theorem debounce_calls_last_of_burst {Args : Type}
    (wait : Z) (burst : list (Args * Z)) (last : Args) (dt : Z) (d : Debounced Args) :
  1 ≤ wait ≤ 2147483647 →
  timers_pending (debounce_timers d) = [] →
  Forall (λ call, 0 ≤ call.2 < wait) burst →
  wait ≤ dt →
  let d' := debounce_burst wait burst d in
  debounce_calls d' = debounce_calls d
  ∧ debounce_calls (debounced wait last d') = debounce_calls d
  ∧ debounce_calls (debounce_elapse dt (debounced wait last d'))
    = debounce_calls d ++ [(timers_now (debounce_timers d') + dt, last)]
  ∧ timers_pending (debounce_timers (debounce_elapse dt (debounced wait last d'))) = [].
Proof.
  intros Hrange Hp Hb Hdt d'.
  assert (0 ≤ wait) as Hw by lia.
  destruct (debounce_burst_quiet wait burst d Hw (or_introl Hp) Hb) as (Hc & Ho & _).
  fold d' in Hc, Ho.
  split; [exact Hc|]. rewrite (debounced_eq wait last d' Hw Ho).
  split; [exact Hc|].
  erewrite debounce_elapse_due; [|reflexivity | simpl; lia]. simpl.
  now rewrite Hc.
Qed.

(** Three calls 100 ms apart, debounced by 250 ms: [func] is called once,
    250 ms after the third call, with its argument. *)
Lemma debounce_calls_last_of_burst_witness :
  debounce_calls
    (debounce_elapse 250
       (debounced 250 3%nat
          (debounce_burst 250 [(1%nat, 100); (2%nat, 100)] (debounce 0))))
  = [(450, 3%nat)].
Proof.
  refine (eq_trans (proj1 (proj2 (proj2
    (debounce_calls_last_of_burst 250 [(1%nat, 100); (2%nat, 100)] 3%nat 250 (debounce 0)
       _ _ _ _)))) _).
  - lia.
  - reflexivity.
  - repeat constructor; simpl; lia.
  - lia.
  - vm_compute. reflexivity.
Defined.

(** ** [throttle] *)

Section ThrottleProperties.

Context {Args : Type}.
Variable func_throws : Args → bool.

Implicit Types t : Throttled Args.

Lemma throttled_open limit args t :
  0 ≤ limit →
  inThrottle t = false →
  timers_pending (throttle_timers t) = [] →
  func_throws args = false →
  throttled func_throws limit args t
  = (false,
     {| inThrottle := true;
        throttle_timers :=
          {| timers_now := timers_now (throttle_timers t);
             timers_next := S (timers_next (throttle_timers t));
             timers_pending :=
               [(timers_next (throttle_timers t), timers_now (throttle_timers t) + limit, tt)] |};
        throttle_calls := throttle_calls t ++ [(timers_now (throttle_timers t), args)] |}).
Proof.
  intros Hl Hopen Hp Hf. unfold throttled, setTimeout.
  rewrite Hopen, Hf, Hp. simpl. now rewrite Z.max_r by lia.
Qed.

Lemma throttle_elapse_early dt t h due :
  timers_pending (throttle_timers t) = [(h, due, tt)] →
  timers_now (throttle_timers t) + dt < due →
  throttle_elapse dt t
  = {| inThrottle := inThrottle t;
       throttle_timers :=
         {| timers_now := timers_now (throttle_timers t) + dt;
            timers_next := timers_next (throttle_timers t);
            timers_pending := [(h, due, tt)] |};
       throttle_calls := throttle_calls t |}.
Proof.
  intros Hp Hlt. unfold throttle_elapse, run_timers. rewrite Hp.
  rewrite !filter_cons, !filter_nil. simpl.
  repeat case_decide; try lia. reflexivity.
Qed.

Lemma throttle_elapse_due dt t h due :
  timers_pending (throttle_timers t) = [(h, due, tt)] →
  due ≤ timers_now (throttle_timers t) + dt →
  throttle_elapse dt t
  = {| inThrottle := false;
       throttle_timers :=
         {| timers_now := timers_now (throttle_timers t) + dt;
            timers_next := timers_next (throttle_timers t);
            timers_pending := [] |};
       throttle_calls := throttle_calls t |}.
Proof.
  intros Hp Hle. unfold throttle_elapse, run_timers. rewrite Hp.
  rewrite !filter_cons, !filter_nil. simpl.
  repeat case_decide; try lia. reflexivity.
Qed.

Lemma elapsed_Pause dt (events : list (timer_event Args)) :
  elapsed (Pause dt :: events) = dt + elapsed events.
Proof. reflexivity. Qed.

Lemma elapsed_Invoke args (events : list (timer_event Args)) :
  elapsed (Invoke args :: events) = elapsed events.
Proof. reflexivity. Qed.

Lemma elapsed_nonneg (events : list (timer_event Args)) :
  Forall forward events → 0 ≤ elapsed events.
Proof.
  induction 1 as [|[a|x] l Hx Hl IH].
  - reflexivity.
  - now rewrite elapsed_Invoke.
  - rewrite elapsed_Pause. unfold forward in Hx. lia.
Qed.

(** While the timer of the last call waits, calls change nothing. *)
Lemma throttle_run_within limit events t h due :
  Forall forward events →
  inThrottle t = true →
  timers_pending (throttle_timers t) = [(h, due, tt)] →
  timers_now (throttle_timers t) + elapsed events < due →
  throttle_run func_throws limit events t
  = {| inThrottle := true;
       throttle_timers :=
         {| timers_now := timers_now (throttle_timers t) + elapsed events;
            timers_next := timers_next (throttle_timers t);
            timers_pending := [(h, due, tt)] |};
       throttle_calls := throttle_calls t |}.
Proof.
  intros Hev. revert t. induction Hev as [|[args|dt] events He Hev IH]; intros t Hin Hp Hlt.
  - change (elapsed []) with 0. rewrite Z.add_0_r.
    destruct t as [b [now next pending] calls]. simpl in *. now subst.
  - rewrite elapsed_Invoke in *. cbn [throttle_run].
    assert (throttled func_throws limit args t = (false, t)) as ->
      by (unfold throttled; now rewrite Hin).
    now apply IH.
  - rewrite elapsed_Pause in *. cbn [throttle_run]. unfold forward in He.
    pose proof (elapsed_nonneg events Hev) as Hpos.
    rewrite (throttle_elapse_early dt t h due Hp) by lia.
    rewrite IH; cbn [inThrottle throttle_timers throttle_calls timers_now
                     timers_next timers_pending];
      [| assumption | reflexivity | lia].
    rewrite Z.add_assoc. reflexivity.
Qed.

End ThrottleProperties.

(** A throttled function calls [func] on the first call and then drops
    every call made before [limit] has passed: dropped calls change nothing
    and are not made up for later.  The first call after the host has run
    the timer, [limit] or more after the call that was let through, is let
    through again.  (For a [func] that returns on the first call: when
    [func] throws the closure stays open.) *)
Theorem throttle_drops_calls_within_limit {Args : Type}
    (func_throws : Args → bool) (limit : Z) (t : Throttled Args) (args : Args)
    (events : list (timer_event Args)) :
  1 ≤ limit ≤ 2147483647 →
  inThrottle t = false →
  timers_pending (throttle_timers t) = [] →
  func_throws args = false →
  Forall forward events →
  elapsed events < limit →
  let t1 := (throttled func_throws limit args t).2 in
  let t2 := throttle_run func_throws limit events t1 in
  throttle_calls t1 = throttle_calls t ++ [(timers_now (throttle_timers t), args)]
  ∧ throttle_calls t2 = throttle_calls t1
  ∧ ∀ dt args',
      0 ≤ dt → limit ≤ elapsed events + dt →
      throttle_calls (throttled func_throws limit args' (throttle_elapse dt t2)).2
      = throttle_calls t1
        ++ [(timers_now (throttle_timers t) + elapsed events + dt, args')].
Proof.
  intros Hrange Hopen Hp Hf Hev Hlt t1 t2. subst t2 t1.
  assert (0 ≤ limit) as Hl by lia.
  rewrite (throttled_open func_throws limit args t Hl Hopen Hp Hf). cbn [snd].
  erewrite throttle_run_within; [|exact Hev | reflexivity | reflexivity | simpl; lia].
  cbn [throttle_calls throttle_timers timers_now timers_next].
  split; [reflexivity|]. split; [reflexivity|].
  intros dt args' Hdt Hge.
  erewrite throttle_elapse_due; [|reflexivity | simpl; lia].
  unfold throttled. simpl. destruct (func_throws args'); reflexivity.
Qed.

(** Throttled by one second: of the calls at 0, 0, 400 and 1000 ms, the
    first and the last are let through. *)
Lemma throttle_drops_calls_within_limit_witness :
  throttle_calls
    (throttled (λ _ : nat, false) 1000 4%nat
       (throttle_elapse 600
          (throttle_run (λ _ : nat, false) 1000 [Invoke 2%nat; Pause 400; Invoke 3%nat]
             (throttled (λ _ : nat, false) 1000 1%nat (throttle 0)).2))).2
  = [(0, 1%nat); (1000, 4%nat)].
Proof.
  refine (eq_trans (proj2 (proj2
    (throttle_drops_calls_within_limit (λ _ : nat, false) 1000 (throttle 0) 1%nat
       [Invoke 2%nat; Pause 400; Invoke 3%nat] _ _ _ _ _ _)) 600 4%nat _ _) _).
  - lia.
  - reflexivity.
  - reflexivity.
  - reflexivity.
  - repeat constructor. simpl. lia.
  - vm_compute. reflexivity.
  - lia.
  - vm_compute. discriminate.
  - vm_compute. reflexivity.
Defined.
